(** * bmmd-preview: render cache, scroll synchronisation, message protocol,
      incremental patching and the update coordinator.

    A shallow embedding of the TypeScript sources under [src/lib/preview]
    together with the properties the specification states about them.

    Conventions used throughout:
    - a JavaScript [number] that only ever holds an integer (timestamps from
      [Date.now()], sizes, counts, the numeric cache options) is a [Z];
      a [number] that may hold a fraction (scroll percentages, line fields of
      untyped messages) is a [Q], its arithmetic taken exactly; where the
      code takes the floor of a product, in [handleWebviewScroll], the
      arguments are [Float64.Number]s, which include [NaN] and the
      infinities, and the product is rounded to binary64;
    - a JavaScript string is a [string]; [String.length] stands for the
      [.length] property (UTF-16 code units; the two agree on ASCII text);
    - every reading of [Date.now()] is an explicit argument [now];
    - a [Map] is an association list in insertion order, which is the order
      in which a JavaScript [Map] is iterated. *)

From Stdlib Require Import ZArith List String Ascii Bool Lia.
From Stdlib Require Import QArith Qround Qminmax Qpower.
Import ListNotations.

Local Open Scope string_scope.
Local Open Scope list_scope.
Local Open Scope Z_scope.

(** ** The render cache ([cache.ts]) *)

Module RenderCache.

(** [interface CacheEntry] *)
Record CacheEntry : Type := mkEntry {
  html : string;
  timestamp : Z;
  accessCount : Z;
  lastAccess : Z
}.

(** [Map<string, CacheEntry>]: keys are unique, iteration is in insertion
    order, [set] on an existing key keeps its position. *)
Definition EntryMap : Type := list (string * CacheEntry).

Fixpoint map_get (key : string) (m : EntryMap) : option CacheEntry :=
  match m with
  | [] => None
  | (k, e) :: m' => if String.eqb k key then Some e else map_get key m'
  end.

Definition map_has (key : string) (m : EntryMap) : bool :=
  match map_get key m with Some _ => true | None => false end.

Fixpoint map_set (key : string) (e : CacheEntry) (m : EntryMap) : EntryMap :=
  match m with
  | [] => [(key, e)]
  | (k, e') :: m' =>
      if String.eqb k key then (k, e) :: m' else (k, e') :: map_set key e m'
  end.

Fixpoint map_delete (key : string) (m : EntryMap) : EntryMap :=
  match m with
  | [] => []
  | (k, e) :: m' =>
      if String.eqb k key then m' else (k, e) :: map_delete key m'
  end.

Definition map_size (m : EntryMap) : Z := Z.of_nat (List.length m).

Definition keys (m : EntryMap) : list string := List.map fst m.

(** [class RenderCache]: the private fields. *)
Record t : Type := mkCache {
  cache : EntryMap;
  maxSize : Z;
  ttl : Z;
  maxMemorySize : Z;
  currentMemorySize : Z
}.

(** [interface RenderCacheOptions] *)
Record RenderCacheOptions : Type := mkOptions {
  opt_maxSize : option Z;
  opt_ttl : option Z;
  opt_maxMemorySize : option Z
}.

Definition nullish (o : option Z) (d : Z) : Z :=
  match o with Some v => v | None => d end.

(** [constructor(options = {})] *)
Definition new (options : RenderCacheOptions) : t :=
  {| cache := [];
     maxSize := nullish (opt_maxSize options) 100;
     ttl := nullish (opt_ttl options) (5 * 60 * 1000);
     maxMemorySize := nullish (opt_maxMemorySize options) (50 * 1024 * 1024);
     currentMemorySize := 0 |}.

Definition defaults : RenderCacheOptions := mkOptions None None None.

(** [estimateSize(str)]: [str.length * 2 + 100]. *)
Definition estimateSize (str : string) : Z :=
  Z.of_nat (String.length str) * 2 + 100.

(** [htmlSize > this.maxMemorySize * 0.2], with the product taken exactly. *)
Definition overShare (htmlSize maxMem : Z) : bool :=
  negb (Qle_bool (inject_Z htmlSize) (inject_Z maxMem * (2 # 10))%Q).

Definition with_cache (c : t) (m : EntryMap) : t :=
  {| cache := m; maxSize := maxSize c; ttl := ttl c;
     maxMemorySize := maxMemorySize c;
     currentMemorySize := currentMemorySize c |}.

Definition with_memory (c : t) (mem : Z) : t :=
  {| cache := cache c; maxSize := maxSize c; ttl := ttl c;
     maxMemorySize := maxMemorySize c;
     currentMemorySize := mem |}.

(** [now - entry.timestamp > this.ttl] *)
Definition expired (c : t) (now : Z) (e : CacheEntry) : bool :=
  ttl c <? now - timestamp e.

(** [get(key)]: the returned value and the cache afterwards. *)
Definition get (key : string) (now : Z) (c : t) : option string * t :=
  match map_get key (cache c) with
  | None => (None, c)
  | Some entry =>
      if expired c now entry
      then (None, with_cache c (map_delete key (cache c)))
      else
        let entry' := {| html := html entry;
                         timestamp := timestamp entry;
                         accessCount := accessCount entry + 1;
                         lastAccess := now |} in
        (Some (html entry), with_cache c (map_set key entry' (cache c)))
  end.

(** [has(key)] *)
Definition has (key : string) (now : Z) (c : t) : bool * t :=
  match map_get key (cache c) with
  | None => (false, c)
  | Some entry =>
      if expired c now entry
      then (false, with_cache c (map_delete key (cache c)))
      else (true, c)
  end.

(** [delete(key)] *)
Definition delete (key : string) (c : t) : t :=
  match map_get key (cache c) with
  | Some entry =>
      with_cache
        (with_memory c (currentMemorySize c - estimateSize (html entry)))
        (map_delete key (cache c))
  | None => c
  end.

(** [clear()] *)
Definition clear (c : t) : t :=
  with_memory (with_cache c []) 0.

(** One turn of the [for ... of this.cache.entries()] loop of
    [cleanExpired]; the state is the cache and [count]. *)
Definition cleanStep (now : Z) (st : t * Z) (ke : string * CacheEntry)
  : t * Z :=
  let '(c, count) := st in
  let '(key, entry) := ke in
  if expired c now entry
  then (with_cache
          (with_memory c (currentMemorySize c - estimateSize (html entry)))
          (map_delete key (cache c)),
        count + 1)
  else (c, count).

(** [cleanExpired()]: deleting the entry under the cursor does not disturb
    the iteration of a [Map], so every entry present at the start is
    visited once. *)
Definition cleanExpired (now : Z) (c : t) : Z * t :=
  let '(c', count) := fold_left (cleanStep now) (cache c) (c, 0) in
  (count, c').

(** The scan of [evictLeastRecentlyUsed]: [lruKey] and [lruTime], where
    [None] for the time is [Number.POSITIVE_INFINITY] and [None] for the key
    is [undefined]. *)
Definition before (x : Z) (lruTime : option Z) : bool :=
  match lruTime with
  | None => true
  | Some t => x <? t
  end.

Definition lruStep (st : option string * option Z) (ke : string * CacheEntry)
  : option string * option Z :=
  let '(key, entry) := ke in
  if before (lastAccess entry) (snd st)
  then (Some key, Some (lastAccess entry))
  else st.

Definition lruScan (m : EntryMap) : option string * option Z :=
  fold_left lruStep m (None, None).

(** Truthiness of [lruKey : string | undefined]. *)
Definition truthy (k : option string) : bool :=
  match k with
  | None => false
  | Some s => negb (String.eqb s "")
  end.

(** [evictLeastRecentlyUsed()].  The non-null assertion on
    [this.cache.get(lruKey)!] cannot fail (lemma [lruScan_key_present]);
    the branch is kept as a no-op. *)
Definition evictLeastRecentlyUsed (c : t) : t :=
  let lruKey := fst (lruScan (cache c)) in
  if truthy lruKey then
    match lruKey with
    | Some k =>
        match map_get k (cache c) with
        | Some entry =>
            with_cache
              (with_memory c
                 (currentMemorySize c - estimateSize (html entry)))
              (map_delete k (cache c))
        | None => c
        end
    | None => c
    end
  else c.

(** How the [while] loop of [set] is left: by falling through to the
    insertion, or by the [return] taken on an empty cache. *)
Inductive LoopExit : Type :=
| Proceed (c : t)
| Abort (c : t).

(** The loop condition of [set]. *)
Definition noRoom (htmlSize : Z) (c : t) : bool :=
  (maxSize c <=? map_size (cache c))
  || (maxMemorySize c <? currentMemorySize c + htmlSize).

(** The [while] loop of [set]; [None] when [fuel] turns did not leave it. *)
Fixpoint setLoop (fuel : nat) (htmlSize : Z) (c : t) : option LoopExit :=
  match fuel with
  | O => None
  | S fuel' =>
      if noRoom htmlSize c then
        if map_size (cache c) =? 0 then Some (Abort c)
        else setLoop fuel' htmlSize (evictLeastRecentlyUsed c)
      else Some (Proceed c)
  end.

(** The tail of [set], after the loop. *)
Definition store (key html : string) (now : Z) (c : t) : t :=
  let htmlSize := estimateSize html in
  let mem :=
    match map_get key (cache c) with
    | Some oldEntry => currentMemorySize c - estimateSize (oldEntry.(RenderCache.html))
    | None => currentMemorySize c
    end in
  with_cache
    (with_memory c (mem + htmlSize))
    (map_set key
       {| RenderCache.html := html; timestamp := now;
          accessCount := 1; lastAccess := now |}
       (cache c)).

(** [set(key, html)]; [None] when the loop did not end within [fuel]
    turns. *)
Definition set (fuel : nat) (key html : string) (now : Z) (c : t)
  : option t :=
  let htmlSize := estimateSize html in
  if overShare htmlSize (maxMemorySize c) then Some c
  else
    match setLoop fuel htmlSize c with
    | None => None
    | Some (Abort c') => Some c'
    | Some (Proceed c') => Some (store key html now c')
    end.

(** [getStats()]; [memoryUsagePercent] is a floating-point ratio and is
    left out. *)
Record Stats : Type := mkStats {
  size : Z;
  stats_maxSize : Z;
  stats_ttl : Z;
  memorySize : Z;
  stats_maxMemorySize : Z
}.

Definition getStats (c : t) : Stats :=
  {| size := map_size (cache c);
     stats_maxSize := maxSize c;
     stats_ttl := ttl c;
     memorySize := currentMemorySize c;
     stats_maxMemorySize := maxMemorySize c |}.

(** A call of one public method; each carries the clock reading it sees. *)
Inductive Op : Type :=
| OpSet (key html : string) (now : Z)
| OpGet (key : string) (now : Z)
| OpHas (key : string) (now : Z)
| OpDelete (key : string)
| OpClear
| OpCleanExpired (now : Z).

Definition apply (fuel : nat) (o : Op) (c : t) : option t :=
  match o with
  | OpSet key html now => set fuel key html now c
  | OpGet key now => Some (snd (get key now c))
  | OpHas key now => Some (snd (has key now c))
  | OpDelete key => Some (delete key c)
  | OpClear => Some (clear c)
  | OpCleanExpired now => Some (snd (cleanExpired now c))
  end.

Fixpoint run (fuel : nat) (ops : list Op) (c : t) : option t :=
  match ops with
  | [] => Some c
  | o :: ops' =>
      match apply fuel o c with
      | Some c' => run fuel ops' c'
      | None => None
      end
  end.

(** Sum of the estimated sizes of the live entries. *)
Fixpoint entriesSize (m : EntryMap) : Z :=
  match m with
  | [] => 0
  | (_, e) :: m' => estimateSize (html e) + entriesSize m'
  end.

End RenderCache.

(** ** Timers of one JavaScript execution context

    [setTimeout] and [clearTimeout] over a table of pending callbacks.  A
    callback is named by a value of type [A]; handles start at 1, so a handle
    is always truthy. *)

Module Timers.

Record Timer (A : Type) : Type := mkTimer {
  tid : nat;
  due : Z;
  action : A
}.
Arguments mkTimer {A} _ _ _.
Arguments tid {A} _.
Arguments due {A} _.
Arguments action {A} _.

Record Table (A : Type) : Type := mkTable {
  nextId : nat;
  pending : list (Timer A)
}.
Arguments mkTable {A} _ _.
Arguments nextId {A} _.
Arguments pending {A} _.

Definition empty {A : Type} : Table A := mkTable 1%nat [].

(** [setTimeout(action, delay)] called at time [now]: the handle and the
    table afterwards. *)
Definition setTimeout {A : Type} (a : A) (now delay : Z) (tb : Table A)
  : nat * Table A :=
  (nextId tb,
   mkTable (S (nextId tb)) (pending tb ++ [mkTimer (nextId tb) (now + delay) a])).

(** [clearTimeout(handle)] *)
Definition clearTimeout {A : Type} (h : nat) (tb : Table A) : Table A :=
  mkTable (nextId tb)
          (filter (fun x => negb (Nat.eqb (tid x) h)) (pending tb)).

(** [if (handle) clearTimeout(handle)] *)
Definition clearIfSet {A : Type} (h : option nat) (tb : Table A) : Table A :=
  match h with
  | Some i => clearTimeout i tb
  | None => tb
  end.

(** The pending timer that fires first: least [due], the earlier call of
    [setTimeout] among equals. *)
Fixpoint earliest {A : Type} (l : list (Timer A)) : option (Timer A) :=
  match l with
  | [] => None
  | x :: l' =>
      match earliest l' with
      | Some y => if due y <? due x then Some y else Some x
      | None => Some x
      end
  end.

(** The next timer to run when the clock shows [now], if one is due. *)
Definition nextDue {A : Type} (now : Z) (tb : Table A) : option (Timer A) :=
  match earliest (pending tb) with
  | Some x => if due x <=? now then Some x else None
  | None => None
  end.


End Timers.

(** ** Untyped message values and the message protocol ([messages.ts]) *)

Module Messages.

(** A value as it arrives through [postMessage] (a structured clone). *)
#[warnings="-register-all"]
Inductive JsValue : Type :=
| JsUndefined
| JsNull
| JsBool (b : bool)
| JsNumber (q : Q)
| JsString (s : string)
| JsObject (fields : list (string * JsValue)).

(** [typeof v] *)
Definition typeof (v : JsValue) : string :=
  match v with
  | JsUndefined => "undefined"
  | JsNull => "object"
  | JsBool _ => "boolean"
  | JsNumber _ => "number"
  | JsString _ => "string"
  | JsObject _ => "object"
  end.

(** [!v] *)
Definition falsy (v : JsValue) : bool :=
  match v with
  | JsUndefined => true
  | JsNull => true
  | JsBool b => negb b
  | JsNumber q => Qeq_bool q 0
  | JsString s => String.eqb s ""
  | JsObject _ => false
  end.

Fixpoint lookup (name : string) (fields : list (string * JsValue)) : JsValue :=
  match fields with
  | [] => JsUndefined
  | (k, v) :: fields' => if String.eqb k name then v else lookup name fields'
  end.

(** [v.name] on a value that passed the object test. *)
Definition prop (name : string) (v : JsValue) : JsValue :=
  match v with
  | JsObject fields => lookup name fields
  | _ => JsUndefined
  end.

Definition isString (v : JsValue) : bool := String.eqb (typeof v) "string".
Definition isNumber (v : JsValue) : bool := String.eqb (typeof v) "number".
Definition isUndefined (v : JsValue) : bool :=
  match v with JsUndefined => true | _ => false end.

(** [v === label] for a string literal [label], which is how a [switch]
    picks its [case]. *)
Definition isTag (v : JsValue) (label : string) : bool :=
  match v with
  | JsString s => String.eqb s label
  | _ => false
  end.

(** [MessageValidator.isExtensionToWebviewMessage] *)
Definition isExtensionToWebviewMessage (message : JsValue) : bool :=
  if falsy message || negb (String.eqb (typeof message) "object") then false
  else
    let type := prop "type" message in
    if isTag type "update" then isString (prop "html" message)
    else if isTag type "error" then isString (prop "message" message)
    else if isTag type "scrollFromEditor" then
      isNumber (prop "percent" message) && isNumber (prop "line" message)
    else if isTag type "config" then
      isString (prop "markdownStyle" message)
      && isString (prop "codeTheme" message)
    else false.

(** [MessageValidator.isWebviewToExtensionMessage] *)
Definition isWebviewToExtensionMessage (message : JsValue) : bool :=
  if falsy message || negb (String.eqb (typeof message) "object") then false
  else
    let type := prop "type" message in
    if isTag type "ready" then true
    else if isTag type "scroll" then
      isNumber (prop "percent" message)
      && (isUndefined (prop "line" message)
          || isNumber (prop "line" message))
    else if isTag type "openExternal" then isString (prop "url" message)
    else if isTag type "error" then isString (prop "message" message)
    else if isTag type "changeMarkdownStyle" then
      isString (prop "style" message)
    else if isTag type "changeCodeTheme" then
      isString (prop "theme" message)
    else false.

(** [type ExtensionToWebviewMessage] *)
Inductive ExtensionToWebviewMessage : Type :=
| UpdateMessage (html : string)
| ErrorMessage (message : string)
| ScrollFromEditorMessage (percent : Q) (line : Z)
| ConfigMessage (markdownStyle codeTheme : string).

(** [MessageSender.create...Message]: the object literal each one builds. *)
Definition createUpdateMessage (html : string) : JsValue :=
  JsObject [("type", JsString "update"); ("html", JsString html)].

Definition createErrorMessage (message : string) : JsValue :=
  JsObject [("type", JsString "error"); ("message", JsString message)].

Definition createScrollFromEditorMessage (percent line : Q) : JsValue :=
  JsObject [("type", JsString "scrollFromEditor");
            ("percent", JsNumber percent); ("line", JsNumber line)].

Definition createConfigMessage (markdownStyle codeTheme : string) : JsValue :=
  JsObject [("type", JsString "config");
            ("markdownStyle", JsString markdownStyle);
            ("codeTheme", JsString codeTheme)].

Definition createReadyMessage : JsValue :=
  JsObject [("type", JsString "ready")].

Definition createScrollMessage (percent : Q) (line : option Q) : JsValue :=
  JsObject [("type", JsString "scroll"); ("percent", JsNumber percent);
            ("line", match line with Some l => JsNumber l | None => JsUndefined end)].

Definition createOpenExternalMessage (url : string) : JsValue :=
  JsObject [("type", JsString "openExternal"); ("url", JsString url)].

Definition toJs (m : ExtensionToWebviewMessage) : JsValue :=
  match m with
  | UpdateMessage html => createUpdateMessage html
  | ErrorMessage message => createErrorMessage message
  | ScrollFromEditorMessage percent line =>
      createScrollFromEditorMessage percent (inject_Z line)
  | ConfigMessage markdownStyle codeTheme =>
      createConfigMessage markdownStyle codeTheme
  end.

(** *** The required-field shapes *)

Definition hasString (name : string) (m : JsValue) : Prop :=
  exists s, prop name m = JsString s.

Definition hasNumber (name : string) (m : JsValue) : Prop :=
  exists q, prop name m = JsNumber q.

Definition isObject (m : JsValue) : Prop :=
  exists fields, m = JsObject fields.

Definition ofKind (kind : string) (m : JsValue) : Prop :=
  prop "type" m = JsString kind.

Definition integral (q : Q) : Prop := (inject_Z (Qfloor q) == q)%Q.

(** The shapes that the code enforces: the primitive type of each required
    field and nothing more. *)
Definition typeShapeToSurface (m : JsValue) : Prop :=
  isObject m /\
  ((ofKind "update" m /\ hasString "html" m)
   \/ (ofKind "error" m /\ hasString "message" m)
   \/ (ofKind "scrollFromEditor" m
       /\ hasNumber "percent" m /\ hasNumber "line" m)
   \/ (ofKind "config" m
       /\ hasString "markdownStyle" m /\ hasString "codeTheme" m)).

Definition typeShapeToOrchestrator (m : JsValue) : Prop :=
  isObject m /\
  (ofKind "ready" m
   \/ (ofKind "scroll" m /\ hasNumber "percent" m
       /\ (prop "line" m = JsUndefined \/ hasNumber "line" m))
   \/ (ofKind "openExternal" m /\ hasString "url" m)
   \/ (ofKind "error" m /\ hasString "message" m)
   \/ (ofKind "changeMarkdownStyle" m /\ hasString "style" m)
   \/ (ofKind "changeCodeTheme" m /\ hasString "theme" m)).

(** The shape of the specification's protocol table for the orchestrator to
    surface direction; it differs from [typeShapeToSurface] in the scroll
    row: [percent: number[0,1], line: integer]. *)
Definition tableShapeToSurface (m : JsValue) : Prop :=
  isObject m /\
  ((ofKind "update" m /\ hasString "html" m)
   \/ (ofKind "error" m /\ hasString "message" m)
   \/ (ofKind "scrollFromEditor" m
       /\ (exists p, prop "percent" m = JsNumber p /\ (0 <= p)%Q /\ (p <= 1)%Q)
       /\ (exists l, prop "line" m = JsNumber l /\ integral l))
   \/ (ofKind "config" m
       /\ hasString "markdownStyle" m /\ hasString "codeTheme" m)).

(** The table's shape for the surface to orchestrator direction:
    [scroll | percent: number, line?: integer]. *)
Definition tableShapeToOrchestrator (m : JsValue) : Prop :=
  isObject m /\
  (ofKind "ready" m
   \/ (ofKind "scroll" m /\ hasNumber "percent" m
       /\ (prop "line" m = JsUndefined
           \/ exists l, prop "line" m = JsNumber l /\ integral l))
   \/ (ofKind "openExternal" m /\ hasString "url" m)
   \/ (ofKind "error" m /\ hasString "message" m)
   \/ (ofKind "changeMarkdownStyle" m /\ hasString "style" m)
   \/ (ofKind "changeCodeTheme" m /\ hasString "theme" m)).

End Messages.

(** ** JavaScript numbers where the code rounds

    A [number] is a binary64 value: a finite one, given here by the
    rational it denotes, [NaN], or an infinity.  The sign of zero is not
    kept: nothing below tells the two zeros apart. *)

Module Float64.

Inductive Number : Type :=
| Finite (q : Q)
| NaN
| Infinity (negative : bool).

(** An integer of the host (a line count, a line index) as a number. *)
Definition ofZ (z : Z) : Number := Finite (inject_Z z).

Definition pow2 (k : Z) : Q := Qpower 2 k.

(** The floor of the binary logarithm of a positive rational. *)
Definition ilog2 (q : Q) : Z :=
  if Qle_bool 1 q then Z.log2 (Qfloor q)
  else - Z.log2_up (Qceiling (/ q)).

(** The nearest integer, the even one of two that are equally near. *)
Definition roundHalfEven (q : Q) : Z :=
  let f := Qfloor q in
  match Qcompare (q - inject_Z f) (1 # 2) with
  | Lt => f
  | Gt => f + 1
  | Eq => if Z.even f then f else f + 1
  end.

(** The exponent of the last place of the binary64 values around a
    positive [q]: 53 significant bits, and no finer than [2^-1074]. *)
Definition exponent (q : Q) : Z := Z.max (ilog2 q - 52) (-1074).

(** The multiple of [2^exponent] nearest to a positive [q]. *)
Definition nearest (q : Q) : Q :=
  (inject_Z (roundHalfEven (q * pow2 (- exponent q))) * pow2 (exponent q))%Q.

(** Rounding of an exact result to binary64, to nearest, ties to even;
    from [2^1024] on the result is an infinity. *)
Definition round (q : Q) : Number :=
  match Qcompare q 0 with
  | Eq => Finite 0
  | Gt =>
      if Qle_bool (pow2 1024) (nearest q) then Infinity false
      else Finite (nearest q)
  | Lt =>
      if Qle_bool (pow2 1024) (nearest (- q)) then Infinity true
      else Finite (- nearest (- q))
  end.

Definition negative (q : Q) : bool := negb (Qle_bool 0 q).

(** [x * y] *)
Definition mul (x y : Number) : Number :=
  match x, y with
  | NaN, _ => NaN
  | _, NaN => NaN
  | Finite a, Finite b => round (a * b)
  | Infinity s, Finite b =>
      if Qeq_bool b 0 then NaN else Infinity (xorb s (negative b))
  | Finite a, Infinity s =>
      if Qeq_bool a 0 then NaN else Infinity (xorb (negative a) s)
  | Infinity s, Infinity s' => Infinity (xorb s s')
  end.

(** [Math.floor(x)] *)
Definition floor (x : Number) : Number :=
  match x with
  | Finite q => Finite (inject_Z (Qfloor q))
  | NaN => NaN
  | Infinity s => Infinity s
  end.

(** [x < y]; false when either is [NaN]. *)
Definition lessThan (x y : Number) : bool :=
  match x, y with
  | NaN, _ => false
  | _, NaN => false
  | Finite a, Finite b => negb (Qle_bool b a)
  | Finite _, Infinity s => negb s
  | Infinity s, Finite _ => s
  | Infinity s, Infinity s' => s && negb s'
  end.

(** [Math.min(x, y)] and [Math.max(x, y)]: [NaN] when either is. *)
Definition min (x y : Number) : Number :=
  match x, y with
  | NaN, _ => NaN
  | _, NaN => NaN
  | _, _ => if lessThan y x then y else x
  end.

Definition max (x y : Number) : Number :=
  match x, y with
  | NaN, _ => NaN
  | _, NaN => NaN
  | _, _ => if lessThan x y then y else x
  end.

End Float64.

(** ** The scroll synchronisation manager ([scroll-sync.ts]) *)

Module ScrollSync.

(** What the manager reads of a [vscode.TextEditor]: the identity of its
    document, [document.lineCount], and the start line of each visible
    range. *)
Record Editor : Type := mkEditor {
  document : string;
  lineCount : Z;
  visibleRanges : list Z
}.

(** What a handler reads of the host when it runs:
    [vscode.window.activeTextEditor] and the [enableScrollSync] setting. *)
Record Env : Type := mkEnv {
  activeTextEditor : option Editor;
  enableScrollSync : bool
}.

(** The two [setTimeout] callbacks of the class. *)
Inductive Action : Type :=
| SyncWebviewScroll (editor : string)
| ResetScrollingFromWebview.

Record t : Type := mkManager {
  doc : string;
  isScrollingFromEditor : bool;
  isScrollingFromWebview : bool;
  scrollTimeout : option nat;
  timers : Timers.Table Action
}.

(** What a handler does to the outside: [panel.webview.postMessage] and
    [editor.revealRange(..., AtTop)]. *)
Inductive Output : Type :=
| Post (m : Messages.ExtensionToWebviewMessage)
| RevealRange (line : Float64.Number).

(** [new ScrollSyncManager(panel, document)] *)
Definition new (document : string) : t :=
  {| doc := document;
     isScrollingFromEditor := false;
     isScrollingFromWebview := false;
     scrollTimeout := None;
     timers := Timers.empty |}.

(** [!editor || editor.document !== this.document] *)
Definition tracked (env : Env) (s : t) : option Editor :=
  match activeTextEditor env with
  | Some editor =>
      if String.eqb (document editor) (doc s) then Some editor else None
  | None => None
  end.

(** The listener installed by [setupEditorScrollListener]. *)
Definition onDidChangeTextEditorVisibleRanges (env : Env) (now : Z) (s : t)
  : t :=
  match tracked env s with
  | None => s
  | Some editor =>
      if isScrollingFromWebview s then s
      else if negb (enableScrollSync env) then s
      else
        let tb := Timers.clearIfSet (scrollTimeout s) (timers s) in
        let '(h, tb') :=
          Timers.setTimeout (SyncWebviewScroll (document editor)) now 100 tb in
        {| doc := doc s;
           isScrollingFromEditor := true;
           isScrollingFromWebview := isScrollingFromWebview s;
           scrollTimeout := Some h;
           timers := tb' |}
  end.

(** [syncWebviewScroll(editor)]: the message it posts, if any. *)
Definition syncWebviewScroll (editor : Editor) : list Output :=
  match visibleRanges editor with
  | [] => []
  | firstVisibleLine :: _ =>
      let totalLines := lineCount editor in
      let scrollPercent :=
        if 1 <? totalLines
        then (inject_Z firstVisibleLine / inject_Z (totalLines - 1))%Q
        else 0%Q in
      [Post (Messages.ScrollFromEditorMessage scrollPercent firstVisibleLine)]
  end.

(** The target line of [handleWebviewScroll]:
    [Math.floor(percent * (totalLines - 1))] when no line is supplied, then
    [Math.max(0, Math.min(targetLine, lineCount - 1))]. *)
Definition targetLine (percent : Float64.Number)
    (line : option Float64.Number) (lineCount : Z) : Float64.Number :=
  let target :=
    match line with
    | Some l => l
    | None =>
        Float64.floor (Float64.mul percent (Float64.ofZ (lineCount - 1)))
    end in
  Float64.max (Float64.Finite 0)
    (Float64.min target (Float64.ofZ (lineCount - 1))).

(** [handleWebviewScroll(percent, line?)] *)
Definition handleWebviewScroll (env : Env) (now : Z)
    (percent : Float64.Number) (line : option Float64.Number) (s : t)
  : t * list Output :=
  match tracked env s with
  | None => (s, [])
  | Some editor =>
      if negb (enableScrollSync env) then (s, [])
      else if isScrollingFromEditor s then (s, [])
      else
        let '(_, tb') :=
          Timers.setTimeout ResetScrollingFromWebview now 150 (timers s) in
        ({| doc := doc s;
            isScrollingFromEditor := isScrollingFromEditor s;
            isScrollingFromWebview := true;
            scrollTimeout := scrollTimeout s;
            timers := tb' |},
         [RevealRange (targetLine percent line (lineCount editor))])
  end.

(** A timer callback runs; [editor] is the state, at that moment, of the
    editor object the callback captured. *)
Definition fire (editor : Editor) (x : Timers.Timer Action) (s : t)
  : t * list Output :=
  let tb := Timers.clearTimeout (Timers.tid x) (timers s) in
  match Timers.action x with
  | SyncWebviewScroll _ =>
      ({| doc := doc s;
          isScrollingFromEditor := false;
          isScrollingFromWebview := isScrollingFromWebview s;
          scrollTimeout := scrollTimeout s;
          timers := tb |},
       syncWebviewScroll editor)
  | ResetScrollingFromWebview =>
      ({| doc := doc s;
          isScrollingFromEditor := isScrollingFromEditor s;
          isScrollingFromWebview := false;
          scrollTimeout := scrollTimeout s;
          timers := tb |},
       [])
  end.

(** [dispose()]: the pending debounce timer is cleared. *)
Definition dispose (s : t) : t :=
  {| doc := doc s;
     isScrollingFromEditor := isScrollingFromEditor s;
     isScrollingFromWebview := isScrollingFromWebview s;
     scrollTimeout := scrollTimeout s;
     timers := Timers.clearIfSet (scrollTimeout s) (timers s) |}.

(** Every timer that is due at [now] runs, the earliest first.  No callback
    arms a timer, so as many turns as there are pending timers suffice. *)
Fixpoint advance (fuel : nat) (editor : Editor) (now : Z)
    (st : t * list Output) : t * list Output :=
  match fuel with
  | O => st
  | S fuel' =>
      match Timers.nextDue now (timers (fst st)) with
      | None => st
      | Some x =>
          let '(s', out) := fire editor x (fst st) in
          advance fuel' editor now (s', snd st ++ out)
      end
  end.

Definition runTimers (editor : Editor) (now : Z) (st : t * list Output)
  : t * list Output :=
  advance (List.length (Timers.pending (timers (fst st)))) editor now st.

(** What reaches the manager: a change of the visible ranges of some
    editor, and a [scroll] message handed over by the provider. *)
Inductive Event : Type :=
| VisibleRangesChanged
| WebviewScroll (percent : Float64.Number) (line : option Float64.Number).

(** One step of a run: the clock, the host as the handler finds it, the
    state at that moment of the editor that pending callbacks captured, and
    the event. *)
Record Step : Type := mkStep {
  at_time : Z;
  host : Env;
  captured : Editor;
  event : Event
}.

Definition handle (st : Step) (s : t) : t * list Output :=
  match event st with
  | VisibleRangesChanged =>
      (onDidChangeTextEditorVisibleRanges (host st) (at_time st) s, [])
  | WebviewScroll percent line =>
      handleWebviewScroll (host st) (at_time st) percent line s
  end.

(** The manager over a timed sequence of events: before an event is
    handled, the timers due by then have run. *)
Fixpoint run (steps : list Step) (st : t * list Output) : t * list Output :=
  match steps with
  | [] => st
  | x :: steps' =>
      let '(s1, out1) := runTimers (captured x) (at_time x) st in
      let '(s2, out2) := handle x s1 in
      run steps' (s2, out1 ++ out2)
  end.

End ScrollSync.

(** ** The scroll handling of the surface script ([webview-content.ts]) *)

Module Surface.

(** The two [setTimeout] callbacks of the scroll code. *)
Inductive Action : Type :=
| PostScroll
| ResetScrollingFromEditor.

(** [container]'s scroll geometry, the two script variables
    [scrollTimeout] and [isScrollingFromEditor], the timers of the page and
    what was handed to [vscode.postMessage]. *)
Record t : Type := mkSurface {
  scrollTop : Q;
  scrollHeight : Q;
  clientHeight : Q;
  scrollTimeout : option nat;
  isScrollingFromEditor : bool;
  timers : Timers.Table Action;
  posted : list Messages.JsValue
}.

Definition init (scrollHeight clientHeight : Q) : t :=
  {| scrollTop := 0; scrollHeight := scrollHeight;
     clientHeight := clientHeight; scrollTimeout := None;
     isScrollingFromEditor := false; timers := Timers.empty;
     posted := [] |}.

(** Assigning [container.scrollTop]: the element keeps the value clamped to
    what it can scroll. *)
Definition clampScroll (s : t) (v : Q) : Q :=
  Qmax 0 (Qmin v (Qmax 0 (scrollHeight s - clientHeight s))).

(** The [scroll] listener of [container]. *)
Definition onScroll (now : Z) (s : t) : t :=
  if isScrollingFromEditor s then s
  else
    let tb := Timers.clearIfSet (scrollTimeout s) (timers s) in
    let '(h, tb') := Timers.setTimeout PostScroll now 100 tb in
    {| scrollTop := scrollTop s; scrollHeight := scrollHeight s;
       clientHeight := clientHeight s; scrollTimeout := Some h;
       isScrollingFromEditor := isScrollingFromEditor s;
       timers := tb'; posted := posted s |}.

(** The message built in the debounce callback; it has no [line] field. *)
Definition scrollReport (s : t) : Messages.JsValue :=
  let maxScroll := (scrollHeight s - clientHeight s)%Q in
  let scrollPercent :=
    if Qle_bool maxScroll 0 then 0%Q else (scrollTop s / maxScroll)%Q in
  Messages.JsObject [("type", Messages.JsString "scroll");
                     ("percent", Messages.JsNumber scrollPercent)].

(** [handleScrollFromEditor(percent, line)] *)
Definition handleScrollFromEditor (now : Z) (percent line : Q) (s : t) : t :=
  let maxScroll := (scrollHeight s - clientHeight s)%Q in
  let targetScroll := (percent * maxScroll)%Q in
  let '(_, tb') :=
    Timers.setTimeout ResetScrollingFromEditor now 150 (timers s) in
  {| scrollTop := clampScroll s targetScroll;
     scrollHeight := scrollHeight s; clientHeight := clientHeight s;
     scrollTimeout := scrollTimeout s;
     isScrollingFromEditor := true;
     timers := tb'; posted := posted s |}.

(** A timer callback runs. *)
Definition fire (x : Timers.Timer Action) (s : t) : t :=
  let tb := Timers.clearTimeout (Timers.tid x) (timers s) in
  match Timers.action x with
  | PostScroll =>
      {| scrollTop := scrollTop s; scrollHeight := scrollHeight s;
         clientHeight := clientHeight s; scrollTimeout := scrollTimeout s;
         isScrollingFromEditor := isScrollingFromEditor s;
         timers := tb; posted := posted s ++ [scrollReport s] |}
  | ResetScrollingFromEditor =>
      {| scrollTop := scrollTop s; scrollHeight := scrollHeight s;
         clientHeight := clientHeight s; scrollTimeout := scrollTimeout s;
         isScrollingFromEditor := false;
         timers := tb; posted := posted s |}
  end.

Fixpoint advance (fuel : nat) (now : Z) (s : t) : t :=
  match fuel with
  | O => s
  | S fuel' =>
      match Timers.nextDue now (timers s) with
      | None => s
      | Some x => advance fuel' now (fire x s)
      end
  end.

(** Every timer due at [now] runs, the earliest first. *)
Definition runTimers (now : Z) (s : t) : t :=
  advance (List.length (Timers.pending (timers s))) now s.

(** What reaches the script: a [scrollFromEditor] message, a scroll event
    after the user moved the container to [top], and the scroll event that
    follows the script's own assignment to [scrollTop]. *)
Inductive Event : Type :=
| ScrollFromEditor (percent line : Q)
| UserScroll (top : Q)
| EchoScroll.

Definition handle (now : Z) (e : Event) (s : t) : t :=
  match e with
  | ScrollFromEditor percent line => handleScrollFromEditor now percent line s
  | UserScroll top =>
      onScroll now
        {| scrollTop := clampScroll s top; scrollHeight := scrollHeight s;
           clientHeight := clientHeight s; scrollTimeout := scrollTimeout s;
           isScrollingFromEditor := isScrollingFromEditor s;
           timers := timers s; posted := posted s |}
  | EchoScroll => onScroll now s
  end.

(** The script over a timed sequence of events: before an event at time
    [now] is handled, the timers due by then have run. *)
Fixpoint run (events : list (Z * Event)) (s : t) : t :=
  match events with
  | [] => s
  | (now, e) :: events' => run events' (handle now e (runTimers now s))
  end.

End Surface.

(** ** The incremental patch engine of the surface script
    ([updatePreviewContent] and [morphDom] in [webview-content.ts]) *)

Module Patch.

(** A DOM node as the script sees it: [nodeType] 1, 3 or 8. *)
#[warnings="-register-all"]
Inductive Node : Type :=
| Element (tagName : string) (attributes : list (string * string))
    (childNodes : list Node)
| Text (nodeValue : string)
| Comment (nodeValue : string).

Definition nodeType (n : Node) : Z :=
  match n with
  | Element _ _ _ => 1
  | Text _ => 3
  | Comment _ => 8
  end.

Definition Attrs : Type := list (string * string).

Fixpoint getAttribute (name : string) (a : Attrs) : option string :=
  match a with
  | [] => None
  | (k, v) :: a' => if String.eqb k name then Some v else getAttribute name a'
  end.

Definition hasAttribute (name : string) (a : Attrs) : bool :=
  match getAttribute name a with Some _ => true | None => false end.

Fixpoint removeAttribute (name : string) (a : Attrs) : Attrs :=
  match a with
  | [] => []
  | (k, v) :: a' =>
      if String.eqb k name then a' else (k, v) :: removeAttribute name a'
  end.

Fixpoint setAttribute (name value : string) (a : Attrs) : Attrs :=
  match a with
  | [] => [(name, value)]
  | (k, v) :: a' =>
      if String.eqb k name then (k, value) :: a'
      else (k, v) :: setAttribute name value a'
  end.

(** The first attribute loop of [morphDom]: from the last attribute of
    [fromNode] to the first, remove the ones [toNode] does not have. *)
Definition removeStale (fromAttrs toAttrs : Attrs) : Attrs :=
  fold_left
    (fun cur attr =>
       if hasAttribute (fst attr) toAttrs then cur
       else removeAttribute (fst attr) cur)
    (rev fromAttrs) fromAttrs.

(** The second attribute loop: set what is missing or different. *)
Definition copyAttrs (fromAttrs toAttrs : Attrs) : Attrs :=
  fold_left
    (fun cur attr =>
       match getAttribute (fst attr) cur with
       | Some v =>
           if String.eqb v (snd attr) then cur
           else setAttribute (fst attr) (snd attr) cur
       | None => setAttribute (fst attr) (snd attr) cur
       end)
    toAttrs fromAttrs.

Definition morphAttrs (fromAttrs toAttrs : Attrs) : Attrs :=
  copyAttrs (removeStale fromAttrs toAttrs) toAttrs.

(** [Math.abs(a - b) > 10] on two lengths. *)
Definition farApart (a b : nat) : bool :=
  10 <? Z.abs (Z.of_nat a - Z.of_nat b).

Section Dom.

(** The two browser primitives behind the [innerHTML] property: parsing a
    string as the children of an element with the given tag, and
    serialising a list of children. *)
Variable parseHTML : string -> string -> list Node.
Variable serializeHTML : list Node -> string.

(** [morphDom(fromNode, toNode)]: the node that stands where [fromNode]
    stood once the call returns.  The three child loops keep the first
    [minLength] children pairwise morphed, append clones of the further
    children of [toNode] and drop the further children of [fromNode]. *)
Fixpoint morphDom (fromNode toNode : Node) : Node :=
  match fromNode, toNode with
  | Element tag fromAttrs fromChildren, Element _ toAttrs toChildren =>
      let attrs := morphAttrs fromAttrs toAttrs in
      if farApart (List.length fromChildren) (List.length toChildren)
      then Element tag attrs (parseHTML tag (serializeHTML toChildren))
      else
        Element tag attrs
          ((fix children (fs ts : list Node) {struct fs} : list Node :=
              match fs, ts with
              | f :: fs', t :: ts' => morphDom f t :: children fs' ts'
              | [], _ => ts
              | _ :: _, [] => []
              end) fromChildren toChildren)
  | Text fromValue, Text toValue =>
      if String.eqb fromValue toValue then fromNode else Text toValue
  | Comment _, Comment _ => fromNode
  | _, _ => toNode
  end.

(** [changeRatio > 0.5] for [changeRatio = lengthDiff / Math.max(oldLength,
    newLength)]; both lengths zero gives [NaN] in the script and [0] here,
    and neither is above one half. *)
Definition bigChange (oldLength newLength : nat) : bool :=
  let lengthDiff := Z.abs (Z.of_nat newLength - Z.of_nat oldLength) in
  let changeRatio :=
    (inject_Z lengthDiff
       / inject_Z (Z.max (Z.of_nat oldLength) (Z.of_nat newLength)))%Q in
  negb (Qle_bool changeRatio (1 # 2)).

(** [updatePreviewContent(html)] on the [preview] element. *)
Definition updatePreviewContent (html : string) (preview : Node) : Node :=
  match preview with
  | Element tag attrs children =>
      let temp := Element "div" [] (parseHTML "div" html) in
      match children with
      | [] => Element tag attrs (parseHTML tag html)
      | _ :: _ =>
          let oldLength := String.length (serializeHTML children) in
          let newLength := String.length html in
          if bigChange oldLength newLength
          then Element tag attrs (parseHTML tag html)
          else morphDom preview temp
      end
  | _ => preview
  end.

End Dom.

(** *** The two primitives on plain fragments

    Fragments built from elements without attributes and from text without
    markup characters: what the browser's serialiser writes for them, and
    what its parser reads back. *)

Fixpoint writeAttrs (a : Attrs) : string :=
  match a with
  | [] => ""
  | (k, v) :: a' =>
      (" " ++ k ++ "=" ++ String (ascii_of_nat 34) v
         ++ String (ascii_of_nat 34) (writeAttrs a'))%string
  end.

Fixpoint outerHTML (n : Node) : string :=
  match n with
  | Element tag attrs children =>
      ("<" ++ tag ++ writeAttrs attrs ++ ">"
         ++ String.concat "" (List.map outerHTML children)
         ++ "</" ++ tag ++ ">")%string
  | Text v => v
  | Comment v => ("<!--" ++ v ++ "-->")%string
  end.

Definition innerHTML (children : list Node) : string :=
  String.concat "" (List.map outerHTML children).

(** The text before the first [c], and the rest from that [c] on. *)
Fixpoint splitAt (c : ascii) (s : string) : string * string :=
  match s with
  | EmptyString => (EmptyString, EmptyString)
  | String a s' =>
      if Ascii.eqb a c then (EmptyString, s)
      else let '(p, r) := splitAt c s' in (String a p, r)
  end.

Definition dropFirst (s : string) : string :=
  match s with
  | EmptyString => EmptyString
  | String _ s' => s'
  end.

Fixpoint readNodes (fuel : nat) (s : string) : list Node * string :=
  match fuel with
  | O => ([], s)
  | S fuel' =>
      match s with
      | EmptyString => ([], s)
      | String "<" (String "/" _) => ([], s)
      | String "<" rest =>
          let '(tag, r1) := splitAt ">" rest in
          let '(children, r2) := readNodes fuel' (dropFirst r1) in
          let '(_, r3) := splitAt ">" r2 in
          let '(siblings, r4) := readNodes fuel' (dropFirst r3) in
          (Element tag [] children :: siblings, r4)
      | _ =>
          let '(v, r1) := splitAt "<" s in
          let '(siblings, r2) := readNodes fuel' r1 in
          (Text v :: siblings, r2)
      end
  end.

Definition readFragment (context html : string) : list Node :=
  fst (readNodes (S (String.length html)) html).

End Patch.

(** ** The preview provider ([MarkdownPreviewProvider]): the debounced
    update coordinator and the dispatch of surface messages *)

Module Provider.

(** What the provider reads of a [vscode.TextDocument]. *)
Record TextDocument : Type := mkDocument {
  uri : string;
  fileName : string;
  getText : string
}.

(** The [bmmd] settings read through [getConfiguration]. *)
Record Config : Type := mkConfig {
  markdownStyle : string;
  codeTheme : string;
  customCss : string;
  enableFootnoteLinks : bool;
  openLinksInNewWindow : bool;
  enableScrollSync : bool
}.

(** The host as a handler finds it. *)
Record Env : Type := mkEnv {
  config : Config;
  activeTextEditor : option ScrollSync.Editor
}.

Definition scrollEnv (env : Env) : ScrollSync.Env :=
  ScrollSync.mkEnv (activeTextEditor env) (enableScrollSync (config env)).

(** [MarkdownEngineOptions] with [platform: 'html']. *)
Record RenderOptions : Type := mkRenderOptions {
  markdown : string;
  ro_markdownStyle : string;
  ro_codeTheme : string;
  ro_customCss : string;
  ro_enableFootnoteLinks : bool;
  ro_openLinksInNewWindow : bool;
  platform : string
}.

Definition renderOptions (cfg : Config) (doc : TextDocument) : RenderOptions :=
  {| markdown := getText doc;
     ro_markdownStyle := markdownStyle cfg;
     ro_codeTheme := codeTheme cfg;
     ro_customCss := customCss cfg;
     ro_enableFootnoteLinks := enableFootnoteLinks cfg;
     ro_openLinksInNewWindow := openLinksInNewWindow cfg;
     platform := "html" |}.

(** What the provider does to the host. *)
Inductive Effect : Type :=
| PostMessage (m : Messages.ExtensionToWebviewMessage)
| SetTitle (fileName : string)
| ShowErrorMessage (detail : string)
| ConsoleWarnInvalid (message : Messages.JsValue)
| ConsoleWarnSlow (renderTime : Z)
| ConsoleError (detail : string)
| OpenExternal (url : string)
| ConfigUpdate (key value : string)
| Scroll (o : ScrollSync.Output).

(** The one [setTimeout] callback of the provider. *)
Inductive Action : Type :=
| DoUpdatePreview.

(** The private fields, the timers they refer to and the effects so far.
    [panel] tells whether [this.panel] is set. *)
Record t : Type := mkProvider {
  panel : bool;
  currentDocument : option TextDocument;
  updateTimeout : option nat;
  cache : RenderCache.t;
  scrollSyncManager : option ScrollSync.t;
  timers : Timers.Table Action;
  effects : list Effect
}.

Definition emit (es : list Effect) (p : t) : t :=
  {| panel := panel p; currentDocument := currentDocument p;
     updateTimeout := updateTimeout p; cache := cache p;
     scrollSyncManager := scrollSyncManager p; timers := timers p;
     effects := effects p ++ es |}.

Definition with_cache (c : RenderCache.t) (p : t) : t :=
  {| panel := panel p; currentDocument := currentDocument p;
     updateTimeout := updateTimeout p; cache := c;
     scrollSyncManager := scrollSyncManager p; timers := timers p;
     effects := effects p |}.

(** [new MarkdownPreviewProvider(context)]; the cleanup interval is a
    separate host event ([cleanupTick]). *)
Definition new : t :=
  {| panel := false; currentDocument := None; updateTimeout := None;
     cache := RenderCache.new
                (RenderCache.mkOptions (Some 100) (Some (5 * 60 * 1000))
                   (Some (50 * 1024 * 1024)));
     scrollSyncManager := None; timers := Timers.empty; effects := [] |}.

Section Engine.

(** [RenderCache.generateKey]: the SHA-256 digest, in hexadecimal, of the
    JSON text of the markdown and the options. *)
Variable generateKey : RenderOptions -> string.

(** [MarkdownEngine.render]: the HTML it resolves to, or the message of the
    error it rejects with. *)
Variable render : RenderOptions -> string + string.

(** [doUpdatePreview()] from its start to its end with nothing else
    happening in between: started when the clock shows [now]; the render,
    if one is needed, takes [elapsed].  [None] when the [set] of the cache
    does not return.  [beginUpdate] and [finishUpdate] below are its two
    halves, before and after the [await] of the render. *)
Definition doUpdatePreview (env : Env) (now elapsed : Z) (p : t) : option t :=
  if negb (panel p) then Some p
  else
    match currentDocument p with
    | None => Some p
    | Some doc =>
        let options := renderOptions (config env) doc in
        let cacheKey := generateKey options in
        let '(found, c1) := RenderCache.get cacheKey now (cache p) in
        let hit :=
          match found with
          | Some html => if String.eqb html "" then None else Some html
          | None => None
          end in
        match hit with
        | Some html =>
            Some (emit [PostMessage (Messages.UpdateMessage html)]
                    (with_cache c1 p))
        | None =>
            match render options with
            | inl html =>
                match
                  RenderCache.set
                    (S (List.length (RenderCache.cache c1)))
                    cacheKey html (now + elapsed) c1
                with
                | None => None
                | Some c2 =>
                    Some (emit
                            (PostMessage (Messages.UpdateMessage html)
                               :: (if 200 <? elapsed
                                   then [ConsoleWarnSlow elapsed] else []))
                            (with_cache c2 p))
                end
            | inr errorMessage =>
                Some (emit [ConsoleError errorMessage;
                            PostMessage (Messages.ErrorMessage errorMessage);
                            ShowErrorMessage errorMessage]
                        (with_cache c1 p))
            end
        end
    end.

(** A render in flight: what [doUpdatePreview()] holds in its local
    variables while it awaits [MarkdownEngine.render]. *)
Record Job : Type := mkJob {
  cacheKey : string;
  options : RenderOptions;
  startTime : Z
}.

(** The message of the [TypeError] that reading [this.panel.webview]
    throws once [this.panel] is [undefined]. *)
Definition panelGone : string :=
  "Cannot read properties of undefined (reading 'webview')".

(** [doUpdatePreview()] up to its first [await], called when the clock
    shows [now]: a page found in the cache is posted at once; otherwise the
    render is started and the function waits for it.  The promise of
    [postMessage] is taken to resolve without delay, so that the clock read
    after it shows the time of the post: for a page from the cache that is
    [now], and the slowness warning is not due. *)
Definition beginUpdate (env : Env) (now : Z) (p : t) : t * option Job :=
  if negb (panel p) then (p, None)
  else
    match currentDocument p with
    | None => (p, None)
    | Some doc =>
        let options := renderOptions (config env) doc in
        let cacheKey := generateKey options in
        let '(found, c1) := RenderCache.get cacheKey now (cache p) in
        let hit :=
          match found with
          | Some html => if String.eqb html "" then None else Some html
          | None => None
          end in
        match hit with
        | Some html =>
            (emit [PostMessage (Messages.UpdateMessage html)]
               (with_cache c1 p), None)
        | None =>
            (with_cache c1 p,
             Some {| cacheKey := cacheKey; options := options;
                     startTime := now |})
        end
    end.

(** The rest of [doUpdatePreview()], run when the render has settled with
    [result] and the clock shows [now], on the provider as it is then.
    The page is stored in [this.cache] and posted to [this.panel], which is
    read again here; when [dispose] has run in between, that read throws,
    the [catch] block logs the error and throws as it tries to post it, and
    the promise is rejected.  The promise of [postMessage] is taken to
    resolve without delay: the render time is measured at [now], and the
    error notification follows the post of the error at once.  [None] when
    the [set] of the cache does not return. *)
Definition finishUpdate (job : Job) (result : string + string) (now : Z)
    (p : t) : option t :=
  match result with
  | inl html =>
      match
        RenderCache.set (S (List.length (RenderCache.cache (cache p))))
          (cacheKey job) html now (cache p)
      with
      | None => None
      | Some c2 =>
          if panel p then
            Some (emit
                    (PostMessage (Messages.UpdateMessage html)
                       :: (if 200 <? now - startTime job
                           then [ConsoleWarnSlow (now - startTime job)]
                           else []))
                    (with_cache c2 p))
          else Some (emit [ConsoleError panelGone] (with_cache c2 p))
      end
  | inr errorMessage =>
      if panel p then
        Some (emit [ConsoleError errorMessage;
                    PostMessage (Messages.ErrorMessage errorMessage);
                    ShowErrorMessage errorMessage] p)
      else Some (emit [ConsoleError errorMessage] p)
  end.

(** [updatePreview(document?)] *)
Definition updatePreview (document : option TextDocument) (now : Z) (p : t)
  : t :=
  let other :=
    match document, currentDocument p with
    | Some d, Some cur => negb (String.eqb (uri d) (uri cur))
    | _, _ => false
    end in
  if other then p
  else if negb (panel p) then p
  else
    match currentDocument p with
    | None => p
    | Some _ =>
        let tb := Timers.clearIfSet (updateTimeout p) (timers p) in
        let '(h, tb') := Timers.setTimeout DoUpdatePreview now 100 tb in
        {| panel := panel p; currentDocument := currentDocument p;
           updateTimeout := Some h; cache := cache p;
           scrollSyncManager := scrollSyncManager p; timers := tb';
           effects := effects p |}
    end.

(** [switchDocument(document)].  The old scroll manager is disposed and a
    fresh one takes its place; [updateTimeout] is not touched. *)
Definition switchDocument (env : Env) (document : TextDocument)
    (now elapsed : Z) (p : t) : option t :=
  if negb (panel p) then Some p
  else
    doUpdatePreview env now elapsed
      {| panel := panel p;
         currentDocument := Some document;
         updateTimeout := updateTimeout p;
         cache := cache p;
         scrollSyncManager := Some (ScrollSync.new (uri document));
         timers := timers p;
         effects := effects p ++ [SetTitle (fileName document)] |}.

(** [sendCurrentConfig()] *)
Definition sendCurrentConfig (env : Env) (p : t) : t :=
  if negb (panel p) then p
  else
    emit [PostMessage
            (Messages.ConfigMessage (markdownStyle (config env))
               (codeTheme (config env)))] p.

Definition asString (v : Messages.JsValue) : string :=
  match v with Messages.JsString s => s | _ => "" end.

Definition asNumber (v : Messages.JsValue) : option Q :=
  match v with Messages.JsNumber q => Some q | _ => None end.

(** The [case 'scroll'] arm. *)
Definition dispatchScroll (env : Env) (now : Z) (message : Messages.JsValue)
    (p : t) : t :=
  match scrollSyncManager p, asNumber (Messages.prop "percent" message) with
  | Some mgr, Some percent =>
      let '(mgr', out) :=
        ScrollSync.handleWebviewScroll (scrollEnv env) now
          (Float64.Finite percent)
          (option_map Float64.Finite
             (asNumber (Messages.prop "line" message))) mgr in
      {| panel := panel p; currentDocument := currentDocument p;
         updateTimeout := updateTimeout p; cache := cache p;
         scrollSyncManager := Some mgr'; timers := timers p;
         effects := effects p ++ List.map Scroll out |}
  | _, _ => p
  end.

(** [handleWebviewMessage(message)] *)
Definition handleWebviewMessage (env : Env) (now elapsed : Z)
    (message : Messages.JsValue) (p : t) : option t :=
  if negb (Messages.isWebviewToExtensionMessage message)
  then Some (emit [ConsoleWarnInvalid message] p)
  else
    let type := Messages.prop "type" message in
    if Messages.isTag type "ready" then
      doUpdatePreview env now elapsed (sendCurrentConfig env p)
    else if Messages.isTag type "scroll" then
      Some (dispatchScroll env now message p)
    else if Messages.isTag type "openExternal" then
      Some (emit [OpenExternal (asString (Messages.prop "url" message))] p)
    else if Messages.isTag type "error" then
      Some (emit
              [ShowErrorMessage (asString (Messages.prop "message" message))]
              p)
    else if Messages.isTag type "changeMarkdownStyle" then
      Some (emit
              [ConfigUpdate "markdownStyle"
                 (asString (Messages.prop "style" message))] p)
    else if Messages.isTag type "changeCodeTheme" then
      Some (emit
              [ConfigUpdate "codeTheme"
                 (asString (Messages.prop "theme" message))] p)
    else Some p.

(** The debounce timer fires. *)
Definition fire (env : Env) (elapsed : Z) (x : Timers.Timer Action) (p : t)
  : option t :=
  match Timers.action x with
  | DoUpdatePreview =>
      doUpdatePreview env (Timers.due x) elapsed
        {| panel := panel p; currentDocument := currentDocument p;
           updateTimeout := updateTimeout p; cache := cache p;
           scrollSyncManager := scrollSyncManager p;
           timers := Timers.clearTimeout (Timers.tid x) (timers p);
           effects := effects p |}
  end.

(** The periodic [cleanExpired] of the constructor's [setInterval]. *)
Definition cleanupTick (now : Z) (p : t) : t :=
  with_cache (snd (RenderCache.cleanExpired now (cache p))) p.

End Engine.

End Provider.

(** ** Vocabulary for the statements about the cache *)

Module CacheSpec.

Import RenderCache.

(** The entry [e] sits between [pre] and [post] and is the one a scan for
    the least [lastAccess] settles on: strictly older than everything
    before it, at least as old as everything after it. *)
Definition leastRecentAt (pre : EntryMap) (e : CacheEntry) (post : EntryMap)
  : Prop :=
  (forall x, In x pre -> lastAccess e < lastAccess (snd x)) /\
  (forall x, In x post -> lastAccess e <= lastAccess (snd x)).

Definition noEmptyKey (m : EntryMap) : Prop :=
  forall k, In k (keys m) -> k <> "".

(** The part of the tracked total that no live entry accounts for. *)
Definition leaked (c : t) : Z :=
  currentMemorySize c - entriesSize (cache c).

(** The memory accounting is sound: the ceiling is not negative, the
    tracked total is within it, every live entry is counted in the total,
    and no key occurs twice. *)
Definition accounted (c : t) : Prop :=
  0 <= maxMemorySize c
  /\ currentMemorySize c <= maxMemorySize c
  /\ entriesSize (cache c) <= currentMemorySize c
  /\ NoDup (keys (cache c)).

(** One call [set(key, html)] made when the clock shows [now]. *)
Record Insertion : Type := mkInsertion {
  ins_key : string;
  ins_html : string;
  ins_now : Z
}.

Definition setOp (i : Insertion) : Op :=
  OpSet (ins_key i) (ins_html i) (ins_now i).

(** The entry that the call stores. *)
Definition entryOf (i : Insertion) : string * CacheEntry :=
  (ins_key i,
   {| html := ins_html i; timestamp := ins_now i;
      accessCount := 1; lastAccess := ins_now i |}).

Fixpoint totalSize (l : list Insertion) : Z :=
  match l with
  | [] => 0
  | i :: l' => estimateSize (ins_html i) + totalSize l'
  end.

(** Whether a call is one of the paths said to subtract from the memory
    total: [delete], [clear], [cleanExpired], or a [set] whose loop finds no
    room and so evicts. *)
Definition listedSubtractor (o : Op) (c : t) : Prop :=
  match o with
  | OpDelete _ | OpClear | OpCleanExpired _ => True
  | OpSet _ html _ => noRoom (estimateSize html) c = true
  | OpGet _ _ | OpHas _ _ => False
  end.

(** The same with the remaining path: a [set] on a key that is present,
    which takes the old entry's size off before adding the new one. *)
Definition subtractor (o : Op) (c : t) : Prop :=
  match o with
  | OpDelete _ | OpClear | OpCleanExpired _ => True
  | OpSet key html _ =>
      noRoom (estimateSize html) c = true \/ map_has key (cache c) = true
  | OpGet _ _ | OpHas _ _ => False
  end.

End CacheSpec.

(** ** Concrete caches and calls used to exercise the statements *)

Module Scenario.

Import RenderCache CacheSpec.

Fixpoint repeatChar (n : nat) (a : ascii) : string :=
  match n with
  | O => EmptyString
  | S n' => String a (repeatChar n' a)
  end.

(** [new RenderCache({ maxMemorySize: 1000 })] *)
Definition smallMemory : RenderCacheOptions :=
  mkOptions None None (Some 1000).

(** ['<h1>' + 'x'.repeat(1000) + '</h1>'] *)
Definition largeHtml : string :=
  ("<h1>" ++ repeatChar 1000 "x" ++ "</h1>")%string.

(** [new RenderCache({ maxSize: 9, maxMemorySize: 1000 })] *)
Definition nineEntries : RenderCacheOptions :=
  mkOptions (Some 9) None (Some 1000).

(** Ten calls of [set] with distinct keys and ten characters of HTML each,
    one millisecond apart. *)
Definition tenInsertions : list Insertion :=
  List.map
    (fun i => mkInsertion (String (ascii_of_nat (48 + i)) "k")
                "<p>abc</p>" (Z.of_nat i))
    (seq 0 10).

(** [new RenderCache({ maxSize: 2 })] and three calls of [set], the first
    two within the same millisecond. *)
Definition twoEntries : RenderCacheOptions :=
  mkOptions (Some 2) None None.

Definition firstTwo : list Insertion :=
  [mkInsertion "key1" "<h1>Test 1</h1>" 10;
   mkInsertion "key2" "<h1>Test 2</h1>" 10].

Definition third : Insertion :=
  mkInsertion "key3" "<h1>Test 3</h1>" 20.

(** [new RenderCache({ maxSize: 1 })] after [set('', 'a')] at time 0. *)
Definition oneEntry : RenderCacheOptions :=
  mkOptions (Some 1) None None.

Definition emptyKeyCache : t :=
  {| cache := [("", mkEntry "a" 0 1 0)];
     maxSize := 1; ttl := 300000; maxMemorySize := 52428800;
     currentMemorySize := 102 |}.

(** A mixed sequence of calls on a cache with a small ceiling. *)
Definition mixedOps : list Op :=
  List.map setOp tenInsertions
  ++ [OpGet "2k" 400000; OpHas "3k" 400000; OpSet "9k" "" 400001;
      OpDelete "8k"; OpClear; OpSet "a" "<p>a</p>" 400002;
      OpSet "b" "<p>b</p>" 700000; OpCleanExpired 800000].

(** The default cache after [set('k', 'aaaa')] at time 0. *)
Definition afterOneSet : t :=
  {| cache := [("k", mkEntry "aaaa" 0 1 0)];
     maxSize := 100; ttl := 300000; maxMemorySize := 52428800;
     currentMemorySize := 108 |}.

(** The same entry, past its time to live when the clock shows 300001. *)
Definition staleClock : Z := 300001.

End Scenario.

(** ** Vocabulary and concrete runs for the scroll statements *)

Module ScrollSpec.

(** [x] brought into the range from 0 to [hi]. *)
Definition clampTo (hi x : Q) : Q :=
  if Qle_bool x 0 then 0%Q
  else if Qle_bool hi x then hi
  else x.

(** The line a surface scroll asks for, before clamping, as the
    specification words it: the supplied line when there is one, else the
    floor of the exact product of the fraction and the last line index. *)
Definition requestedLine (percent : Q) (line : option Q) (totalLines : Z)
  : Q :=
  match line with
  | Some l => l
  | None => inject_Z (Qfloor (percent * inject_Z (totalLines - 1)))
  end.

(** Two numbers are the same value. *)
Definition sameNumber (x y : Float64.Number) : Prop :=
  match x, y with
  | Float64.Finite a, Float64.Finite b => (a == b)%Q
  | Float64.NaN, Float64.NaN => True
  | Float64.Infinity s, Float64.Infinity s' => s = s'
  | _, _ => False
  end.

(** The line asked for as the code computes it: the supplied line when
    there is one, else the floor of the product of the fraction and the
    last line index, the product being rounded to binary64. *)
Definition requestedNumber (percent : Float64.Number)
    (line : option Float64.Number) (totalLines : Z) : Float64.Number :=
  match line with
  | Some l => l
  | None =>
      Float64.floor (Float64.mul percent (Float64.ofZ (totalLines - 1)))
  end.

(** A number brought into the range from 0 to [hi]; [NaN] is in no
    range. *)
Definition clampNumber (hi : Q) (x : Float64.Number) : Float64.Number :=
  match x with
  | Float64.Finite q => Float64.Finite (clampTo hi q)
  | Float64.NaN => Float64.NaN
  | Float64.Infinity s => Float64.Finite (if s then 0%Q else hi)
  end.

(** The binary64 value nearest to one third, which is what the division
    [500 / 1500] gives. *)
Definition third : Q := 6004799503160661 # 18014398509481984.

(** An editor showing a document of 4 lines, with scroll synchronisation
    switched on. *)
Definition editor4 : ScrollSync.Editor := ScrollSync.mkEditor "doc" 4 [0].

Definition env4 : ScrollSync.Env := ScrollSync.mkEnv (Some editor4) true.

(** No callback that lifts the surface's suppression is pending. *)
Definition noResetPending (s : Surface.t) : Prop :=
  forall x, In x (Timers.pending (Surface.timers s)) ->
            Timers.action x <> Surface.ResetScrollingFromEditor.

(** An editor showing a document of 101 lines from line 50 on, with scroll
    synchronisation switched on. *)
Definition editor101 : ScrollSync.Editor :=
  ScrollSync.mkEditor "doc" 101 [50].

Definition env101 : ScrollSync.Env :=
  ScrollSync.mkEnv (Some editor101) true.

(** A surface whose container is 2000 pixels of content in a 500 pixel
    window. *)
Definition surface0 : Surface.t := Surface.init 2000 500.

(** The same editor scrolled to line [n]. *)
Definition editorAt (n : Z) : ScrollSync.Editor :=
  ScrollSync.mkEditor "doc" 101 [n].

Definition envAt (n : Z) : ScrollSync.Env :=
  ScrollSync.mkEnv (Some (editorAt n)) true.

(** The user scrolls the source view to line 10 at -100 ms and on to line
    20 at 1 ms. *)
Definition sourceScrolls : list ScrollSync.Step :=
  [ScrollSync.mkStep (-100) (envAt 10) (editorAt 10)
     ScrollSync.VisibleRangesChanged;
   ScrollSync.mkStep 1 (envAt 20) (editorAt 10)
     ScrollSync.VisibleRangesChanged].

(** The two [scrollFromEditor] messages that follow, applied on the
    surface at 0 and at 101 ms, and the scroll event that the second
    assignment to [scrollTop] causes, delivered 59 ms after it. *)
Definition echoTrace : list (Z * Surface.Event) :=
  [(0, Surface.ScrollFromEditor (10 # 100) 10);
   (101, Surface.ScrollFromEditor (20 # 100) 20);
   (160, Surface.EchoScroll)].

(** One message and its echo 59 ms later. *)
Definition singleTrace : list (Z * Surface.Event) :=
  [(101, Surface.ScrollFromEditor (20 # 100) 20);
   (160, Surface.EchoScroll)].

End ScrollSpec.

(** ** Concrete messages, a stand-in engine and provider states *)

Module ProviderSpec.

(** A [scrollFromEditor] message whose fraction is 7 and whose line is one
    and a half. *)
Definition wildScroll : Messages.JsValue :=
  Messages.createScrollFromEditorMessage 7 (3 # 2).

(** A [scroll] message whose fraction is a string. *)
Definition badScroll : Messages.JsValue :=
  Messages.JsObject [("type", Messages.JsString "scroll");
                     ("percent", Messages.JsString "0.5")].

(** A stand-in for the digest and for the engine: keys are never empty and
    every render succeeds. *)
Definition demoKey (o : Provider.RenderOptions) : string :=
  ("sha:" ++ Provider.markdown o ++ "|" ++ Provider.ro_markdownStyle o)%string.

Definition demoRender (o : Provider.RenderOptions) : string + string :=
  inl ("<p>" ++ Provider.markdown o ++ "</p>")%string.

Definition docA : Provider.TextDocument :=
  Provider.mkDocument "file:///a.md" "a.md" "# A".

Definition docB : Provider.TextDocument :=
  Provider.mkDocument "file:///b.md" "b.md" "# B".

Definition demoEnv : Provider.Env :=
  Provider.mkEnv
    (Provider.mkConfig "ayu-light" "kimbie-light" "" true true true)
    (Some (ScrollSync.mkEditor "file:///b.md" 1 [0])).

(** The provider showing [docA] in an open panel. *)
Definition showingA : Provider.t :=
  {| Provider.panel := true;
     Provider.currentDocument := Some docA;
     Provider.updateTimeout := None;
     Provider.cache := Provider.cache Provider.new;
     Provider.scrollSyncManager := Some (ScrollSync.new "file:///a.md");
     Provider.timers := Timers.empty;
     Provider.effects := [] |}.


End ProviderSpec.

(** ** Concrete trees for the patch engine *)

Module PatchSpec.

(** [<div id="preview"><blockquote></blockquote></div>] *)
Definition quoted : Patch.Node :=
  Patch.Element "div" [("id", "preview")]
    [Patch.Element "blockquote" [] []].

Definition paragraph : string := "<p>xxxxxx</p>".

(** [<div id="preview"></div>], the container before the first update. *)
Definition emptyPreview : Patch.Node :=
  Patch.Element "div" [("id", "preview")] [].

(** No element of the tree carries two attributes of one name. *)
Fixpoint wellFormed (n : Patch.Node) : Prop :=
  match n with
  | Patch.Element _ attrs children =>
      NoDup (List.map fst attrs)
      /\ (fix all (l : list Patch.Node) : Prop :=
            match l with
            | [] => True
            | x :: l' => wellFormed x /\ all l'
            end) children
  | _ => True
  end.

Fixpoint allWellFormed (l : list Patch.Node) : Prop :=
  match l with
  | [] => True
  | x :: l' => wellFormed x /\ allWellFormed l'
  end.

(** [node.childNodes] *)
Definition childNodes (n : Patch.Node) : list Patch.Node :=
  match n with
  | Patch.Element _ _ children => children
  | _ => []
  end.

(** [node.attributes] *)
Definition attributes (n : Patch.Node) : Patch.Attrs :=
  match n with
  | Patch.Element _ attrs _ => attrs
  | _ => []
  end.

(** [updatePreviewContent] with the two primitives on plain fragments. *)
Definition update : string -> Patch.Node -> Patch.Node :=
  Patch.updatePreviewContent Patch.readFragment Patch.innerHTML.

End PatchSpec.

(** ** Further vocabulary for the cache *)

Module CacheMore.

Import RenderCache.

(** The entry count is within [maxSize] and [maxSize] is not negative. *)
Definition withinCount (c : t) : Prop :=
  map_size (cache c) <= maxSize c /\ 0 <= maxSize c.

(** The entries of [m] that are past their time to live at [now], and the
    others. *)
Definition stale (c : t) (now : Z) (m : EntryMap) : EntryMap :=
  filter (fun ke => expired c now (snd ke)) m.

Definition fresh (c : t) (now : Z) (m : EntryMap) : EntryMap :=
  filter (fun ke => negb (expired c now (snd ke))) m.

(** The entry that [set(key, html)] stores when the clock shows [now]. *)
Definition stored (html : string) (now : Z) : CacheEntry :=
  {| RenderCache.html := html; timestamp := now; accessCount := 1;
     lastAccess := now |}.

(** How a call may change the part of the total that no live entry
    accounts for. *)
Definition leakChange (o : Op) (before after : Z) : Prop :=
  match o with
  | OpClear => after = 0
  | OpGet _ _ | OpHas _ _ => before <= after
  | OpSet _ _ _ | OpDelete _ | OpCleanExpired _ => after = before
  end.

(** Five pages of fifty characters stored at time 0 in a cache with a
    ceiling of 1000 bytes, each read once after its time to live. *)
Definition fiftyChars : string := Scenario.repeatChar 50 "x".

Definition leakOps : list Op :=
  List.map (fun k => OpSet k fiftyChars 0) ["a"; "b"; "c"; "d"; "e"]
  ++ List.map (fun k => OpGet k 300001) ["a"; "b"; "c"; "d"; "e"].

(** The repository's eviction test: two keys stored ten milliseconds
    apart. *)
Definition twoKeys : t :=
  {| cache := [("key1", stored "<h1>Test 1</h1>" 0);
               ("key2", stored "<h1>Test 2</h1>" 10)];
     maxSize := 2; ttl := 300000; maxMemorySize := 52428800;
     currentMemorySize := 260 |}.

End CacheMore.

(** ** The remaining validators and senders of [messages.ts] *)

Module MessageKinds.

Import Messages.

(** [message?.type === label]: on [null], [undefined] and on any value
    without a [type] property the left side is [undefined]. *)
Definition kindIs (message : JsValue) (label : string) : bool :=
  isTag (prop "type" message) label.

(** [MessageValidator.isUpdateMessage] *)
Definition isUpdateMessage (message : JsValue) : bool :=
  kindIs message "update" && isString (prop "html" message).

(** [MessageValidator.isErrorMessage] *)
Definition isErrorMessage (message : JsValue) : bool :=
  kindIs message "error" && isString (prop "message" message).

(** [MessageValidator.isReadyMessage] *)
Definition isReadyMessage (message : JsValue) : bool :=
  kindIs message "ready".

(** [MessageValidator.isScrollMessage] *)
Definition isScrollMessage (message : JsValue) : bool :=
  kindIs message "scroll"
  && isNumber (prop "percent" message)
  && (isUndefined (prop "line" message) || isNumber (prop "line" message)).

(** [MessageValidator.isOpenExternalMessage] *)
Definition isOpenExternalMessage (message : JsValue) : bool :=
  kindIs message "openExternal" && isString (prop "url" message).

(** [MessageValidator.isErrorReportMessage] *)
Definition isErrorReportMessage (message : JsValue) : bool :=
  kindIs message "error" && isString (prop "message" message).

(** [MessageValidator.isScrollFromEditorMessage] *)
Definition isScrollFromEditorMessage (message : JsValue) : bool :=
  kindIs message "scrollFromEditor"
  && isNumber (prop "percent" message)
  && isNumber (prop "line" message).

(** [MessageSender.createErrorReportMessage] *)
Definition createErrorReportMessage (message : string) : JsValue :=
  JsObject [("type", JsString "error"); ("message", JsString message)].

(** [MessageSender.createChangeMarkdownStyleMessage] *)
Definition createChangeMarkdownStyleMessage (style : string) : JsValue :=
  JsObject [("type", JsString "changeMarkdownStyle");
            ("style", JsString style)].

(** [MessageSender.createChangeCodeThemeMessage] *)
Definition createChangeCodeThemeMessage (theme : string) : JsValue :=
  JsObject [("type", JsString "changeCodeTheme"); ("theme", JsString theme)].

(** The messages [MessageSender] can build for the orchestrator. *)
Inductive WebviewToExtensionMessage : Type :=
| ReadyMessage
| ScrollMessage (percent : Q) (line : option Q)
| OpenExternalMessage (url : string)
| ErrorReportMessage (message : string)
| ChangeMarkdownStyleMessage (style : string)
| ChangeCodeThemeMessage (theme : string).

Definition build (m : WebviewToExtensionMessage) : JsValue :=
  match m with
  | ReadyMessage => createReadyMessage
  | ScrollMessage percent line => createScrollMessage percent line
  | OpenExternalMessage url => createOpenExternalMessage url
  | ErrorReportMessage message => createErrorReportMessage message
  | ChangeMarkdownStyleMessage style => createChangeMarkdownStyleMessage style
  | ChangeCodeThemeMessage theme => createChangeCodeThemeMessage theme
  end.

End MessageKinds.

(** ** Further vocabulary for the scroll statements *)

Module ScrollMore.

(** No callback that lifts the manager's suppression is pending. *)
Definition noWebviewResetPending (s : ScrollSync.t) : Prop :=
  forall x, In x (Timers.pending (ScrollSync.timers s)) ->
            Timers.action x <> ScrollSync.ResetScrollingFromWebview.

Definition isSync (x : Timers.Timer ScrollSync.Action) : bool :=
  match Timers.action x with
  | ScrollSync.SyncWebviewScroll _ => true
  | ScrollSync.ResetScrollingFromWebview => false
  end.

(** Handles are distinct and below the next one to be given out, and a
    pending debounce callback is the one [scrollTimeout] names. *)
Definition tidy (s : ScrollSync.t) : Prop :=
  NoDup (List.map Timers.tid (Timers.pending (ScrollSync.timers s)))
  /\ (forall x, In x (Timers.pending (ScrollSync.timers s)) ->
                (Timers.tid x < Timers.nextId (ScrollSync.timers s))%nat)
  /\ (forall x, In x (Timers.pending (ScrollSync.timers s)) ->
                isSync x = true ->
                ScrollSync.scrollTimeout s = Some (Timers.tid x)).

(** Scroll events, each at most 99 ms after the one before; [t] is the time
    of the event before the first of the list. *)
Fixpoint paced (t : Z) (l : list (Z * Q)) : Prop :=
  match l with
  | [] => True
  | (t', _) :: l' => t <= t' < t + 100 /\ paced t' l'
  end.

(** The last event of a burst that starts with [e]. *)
Fixpoint lastOf (e : Z * Q) (l : list (Z * Q)) : Z * Q :=
  match l with
  | [] => e
  | x :: l' => lastOf x l'
  end.

Definition userScrolls (l : list (Z * Q)) : list (Z * Surface.Event) :=
  List.map (fun e => (fst e, Surface.UserScroll (snd e))) l.

(** The surface at rest: no timer pending, no suppression. *)
Definition atRest (s : Surface.t) : Prop :=
  Surface.isScrollingFromEditor s = false
  /\ Timers.pending (Surface.timers s) = [].

(** The report the surface sends for scroll position [top]. *)
Definition reportAt (s : Surface.t) (top : Q) : Messages.JsValue :=
  Surface.scrollReport
    {| Surface.scrollTop := Surface.clampScroll s top;
       Surface.scrollHeight := Surface.scrollHeight s;
       Surface.clientHeight := Surface.clientHeight s;
       Surface.scrollTimeout := Surface.scrollTimeout s;
       Surface.isScrollingFromEditor := Surface.isScrollingFromEditor s;
       Surface.timers := Surface.timers s;
       Surface.posted := Surface.posted s |}.

(** The click listener that [attachLinkHandlers] puts on an [a[href]] of
    the preview: what it posts, and whether it calls [preventDefault]. *)
Definition linkListener (href : string) : list Messages.JsValue * bool :=
  if negb (String.eqb href "")
     && (String.prefix "http://" href || String.prefix "https://" href)
  then ([Messages.JsObject [("type", Messages.JsString "openExternal");
                            ("url", Messages.JsString href)]], true)
  else ([], false).



(** A click on a link that carries [listeners] listeners: each of them
    runs. *)
Definition onLinkClick (listeners : nat) (href : string)
  : list Messages.JsValue * bool :=
  (List.concat (List.repeat (fst (linkListener href)) listeners),
   existsb (fun x => x) (List.repeat (snd (linkListener href)) listeners)).

(** The [change] listeners of the two selects. *)
Definition onMarkdownStyleChange (value : string) : Messages.JsValue :=
  Messages.JsObject [("type", Messages.JsString "changeMarkdownStyle");
                     ("style", Messages.JsString value)].

Definition onCodeThemeChange (value : string) : Messages.JsValue :=
  Messages.JsObject [("type", Messages.JsString "changeCodeTheme");
                     ("theme", Messages.JsString value)].

(** A [scroll] report whose fraction lies between 0 and 1. *)
Definition unitScroll (m : Messages.JsValue) : Prop :=
  exists p, m = Messages.JsObject [("type", Messages.JsString "scroll");
                                   ("percent", Messages.JsNumber p)]
            /\ (0 <= p)%Q /\ (p <= 1)%Q.

(** The geometry of the container is [h] by [c] and its scroll position is
    one the element can have. *)
Definition scrolledWithin (h c : Q) (s : Surface.t) : Prop :=
  Surface.scrollHeight s = h /\ Surface.clientHeight s = c
  /\ (0 <= Surface.scrollTop s)%Q
  /\ (Surface.scrollTop s <= Qmax 0 (h - c))%Q.

(** What holds of the surface at every moment of a run: its scroll
    position is one the container can have, and what it has posted are
    valid reports with a fraction between 0 and 1. *)
Definition sound (h c : Q) (s : Surface.t) : Prop :=
  scrolledWithin h c s
  /\ Forall (fun m => Messages.isWebviewToExtensionMessage m = true
                      /\ unitScroll m) (Surface.posted s).

(** The surface in the middle of a burst that began on [s0]: the user's
    last scroll, to [top], came at [t]; one debounce callback is pending,
    due at [t + 100]. *)
Definition armed (s0 s : Surface.t) (t : Z) (top : Q) : Prop :=
  exists h n,
    s = {| Surface.scrollTop := Surface.clampScroll s0 top;
           Surface.scrollHeight := Surface.scrollHeight s0;
           Surface.clientHeight := Surface.clientHeight s0;
           Surface.scrollTimeout := Some h;
           Surface.isScrollingFromEditor := false;
           Surface.timers :=
             Timers.mkTable n [Timers.mkTimer h (t + 100) Surface.PostScroll];
           Surface.posted := Surface.posted s0 |}.

(** A step in which the editor of [document] is active, scroll
    synchronisation is on and the editor's visible ranges change. *)
Definition sourceScroll (document : string) (x : ScrollSync.Step) : Prop :=
  ScrollSync.event x = ScrollSync.VisibleRangesChanged
  /\ ScrollSync.enableScrollSync (ScrollSync.host x) = true
  /\ exists editor,
       ScrollSync.activeTextEditor (ScrollSync.host x) = Some editor
       /\ ScrollSync.document editor = document.

(** Source scrolls, each at most 99 ms after the one before. *)
Fixpoint pacedSteps (document : string) (t : Z) (l : list ScrollSync.Step)
  : Prop :=
  match l with
  | [] => True
  | x :: l' =>
      sourceScroll document x
      /\ t <= ScrollSync.at_time x < t + 100
      /\ pacedSteps document (ScrollSync.at_time x) l'
  end.

Fixpoint lastTime (t : Z) (l : list ScrollSync.Step) : Z :=
  match l with
  | [] => t
  | x :: l' => lastTime (ScrollSync.at_time x) l'
  end.

(** The manager at rest: no timer pending, no suppression of source
    scrolls. *)
Definition managerAtRest (s : ScrollSync.t) : Prop :=
  ScrollSync.isScrollingFromWebview s = false
  /\ Timers.pending (ScrollSync.timers s) = [].

(** The manager in the middle of a burst of source scrolls that began on
    [s0], the last of them at [t]. *)
Definition managerArmed (s0 s : ScrollSync.t) (t : Z) : Prop :=
  exists h n e,
    s = {| ScrollSync.doc := ScrollSync.doc s0;
           ScrollSync.isScrollingFromEditor := true;
           ScrollSync.isScrollingFromWebview := false;
           ScrollSync.scrollTimeout := Some h;
           ScrollSync.timers :=
             Timers.mkTable n
               [Timers.mkTimer h (t + 100) (ScrollSync.SyncWebviewScroll e)] |}.

(** The user scrolls the source view to line 10 at -100 ms and on to line
    20 at -40 ms. *)
Definition quickScrolls : list ScrollSync.Step :=
  [ScrollSync.mkStep (-100) (ScrollSpec.envAt 10) (ScrollSpec.editorAt 10)
     ScrollSync.VisibleRangesChanged;
   ScrollSync.mkStep (-40) (ScrollSpec.envAt 20) (ScrollSpec.editorAt 10)
     ScrollSync.VisibleRangesChanged].

End ScrollMore.

(** ** Further vocabulary for the patch engine *)

Module PatchMore.

(** Two attribute lists give every name the same value. *)
Definition sameAttributes (a b : Patch.Attrs) : Prop :=
  forall name, Patch.getAttribute name a = Patch.getAttribute name b.

(** [r] is [t] up to what [morphDom] never looks at: the tag names of
    elements and the text of comments.  Attributes agree name by name,
    texts are equal and the children agree pairwise. *)
Fixpoint agrees (r t : Patch.Node) : Prop :=
  match r, t with
  | Patch.Element _ ra rcs, Patch.Element _ ta tcs =>
      sameAttributes ra ta
      /\ (fix all (rs ts : list Patch.Node) {struct rs} : Prop :=
            match rs, ts with
            | [], [] => True
            | r' :: rs', t' :: ts' => agrees r' t' /\ all rs' ts'
            | _, _ => False
            end) rcs tcs
  | Patch.Text v, Patch.Text v' => v = v'
  | Patch.Comment _, Patch.Comment _ => True
  | _, _ => False
  end.

Fixpoint allAgree (rs ts : list Patch.Node) : Prop :=
  match rs, ts with
  | [], [] => True
  | r :: rs', t :: ts' => agrees r t /\ allAgree rs' ts'
  | _, _ => False
  end.

(** No pair of elements that [morphDom] meets on its way down has child
    counts more than ten apart, so the wholesale replacement of an
    element's content is never taken. *)
Fixpoint near (f t : Patch.Node) : Prop :=
  match f, t with
  | Patch.Element _ _ fcs, Patch.Element _ _ tcs =>
      Patch.farApart (List.length fcs) (List.length tcs) = false
      /\ (fix all (fs ts : list Patch.Node) {struct fs} : Prop :=
            match fs, ts with
            | f' :: fs', t' :: ts' => near f' t' /\ all fs' ts'
            | _, _ => True
            end) fcs tcs
  | _, _ => True
  end.

(** [<section class="a" id="s"><p>old</p><!--x--></section>] and
    [<div id="t"><h1>new</h1><!--y--><p>more</p></div>] *)
Definition shown : Patch.Node :=
  Patch.Element "section" [("class", "a"); ("id", "s")]
    [Patch.Element "p" [] [Patch.Text "old"]; Patch.Comment "x"].

Definition wanted : Patch.Node :=
  Patch.Element "div" [("id", "t")]
    [Patch.Element "h1" [] [Patch.Text "new"]; Patch.Comment "y";
     Patch.Element "p" [] [Patch.Text "more"]].

End PatchMore.

(** ** The rendering engine's entry point ([MarkdownEngine] in
    [lib/markdown/engine.ts]) *)

Module MarkdownEngine.

(** [getSupportedPlatforms()] *)
Definition getSupportedPlatforms : list string :=
  ["html"; "wechat"; "zhihu"; "juejin"].

(** [isValidPlatform(platform)] *)
Definition isValidPlatform (platform : string) : bool :=
  existsb (String.eqb platform) getSupportedPlatforms.

Section Pipeline.

(** [String.prototype.trim]. *)
Variable trim : string -> string.

(** The [render] of [./render]: the HTML it resolves to, or the message of
    the error it rejects with. *)
Variable pipeline : Provider.RenderOptions -> string + string.

(** [isValidMarkdown(markdown)] *)
Definition isValidMarkdown (markdown : string) : bool :=
  0 <? Z.of_nat (String.length (trim markdown)).

(** [render(options)]: what is thrown inside the [try] is caught, wrapped
    and thrown again. *)
Definition render (options : Provider.RenderOptions) : string + string :=
  let attempt :=
    if negb (isValidMarkdown (Provider.markdown options))
    then inr "Markdown 内容为空或无效"
    else if negb (String.eqb (Provider.platform options) "")
            && negb (isValidPlatform (Provider.platform options))
    then inr ("不支持的平台: " ++ Provider.platform options)%string
    else pipeline options in
  match attempt with
  | inl html => inl html
  | inr errorMessage => inr ("Markdown 渲染失败: " ++ errorMessage)%string
  end.

End Pipeline.

End MarkdownEngine.

(** ** The rest of the preview provider: [showPreview], [dispose] and the
    provider over a run of events *)

Module ProviderMore.

(** [dispose()]: the debounce timer is cleared, the scroll manager is
    disposed and dropped, the cache is emptied, panel and document are
    forgotten. *)
Definition dispose (p : Provider.t) : Provider.t :=
  {| Provider.panel := false;
     Provider.currentDocument := None;
     Provider.updateTimeout := Provider.updateTimeout p;
     Provider.cache := RenderCache.clear (Provider.cache p);
     Provider.scrollSyncManager := None;
     Provider.timers :=
       Timers.clearIfSet (Provider.updateTimeout p) (Provider.timers p);
     Provider.effects := Provider.effects p |}.

(** [showPreview(document)].  With a panel it is revealed; without one a
    panel and a scroll manager are created.  Either way the document
    becomes current first and [updatePreview()] is called last. *)
Definition showPreview (document : Provider.TextDocument) (now : Z)
    (p : Provider.t) : Provider.t :=
  if Provider.panel p then
    Provider.updatePreview None now
      {| Provider.panel := Provider.panel p;
         Provider.currentDocument := Some document;
         Provider.updateTimeout := Provider.updateTimeout p;
         Provider.cache := Provider.cache p;
         Provider.scrollSyncManager := Provider.scrollSyncManager p;
         Provider.timers := Provider.timers p;
         Provider.effects := Provider.effects p |}
  else
    Provider.updatePreview None now
      {| Provider.panel := true;
         Provider.currentDocument := Some document;
         Provider.updateTimeout := Provider.updateTimeout p;
         Provider.cache := Provider.cache p;
         Provider.scrollSyncManager :=
           Some (ScrollSync.new (Provider.uri document));
         Provider.timers := Provider.timers p;
         Provider.effects := Provider.effects p |}.

Section Engine.

Variable generateKey : Provider.RenderOptions -> string.
Variable render : Provider.RenderOptions -> string + string.

(** Every debounce timer that is due at [now] runs; [None] when a render
    does not return. *)
Fixpoint advance (fuel : nat) (env : Provider.Env) (elapsed now : Z)
    (p : Provider.t) : option Provider.t :=
  match fuel with
  | O => Some p
  | S fuel' =>
      match Timers.nextDue now (Provider.timers p) with
      | None => Some p
      | Some x =>
          match Provider.fire generateKey render env elapsed x p with
          | None => None
          | Some p' => advance fuel' env elapsed now p'
          end
      end
  end.

Definition runTimers (env : Provider.Env) (elapsed now : Z) (p : Provider.t)
  : option Provider.t :=
  advance (List.length (Timers.pending (Provider.timers p))) env elapsed now p.

(** What reaches the provider: the calls the extension makes, a message
    from the surface, the cleanup interval, and the closing of the
    panel. *)
Inductive Event : Type :=
| UpdatePreview (document : option Provider.TextDocument)
| SwitchDocument (document : Provider.TextDocument)
| ShowPreview (document : Provider.TextDocument)
| WebviewMessage (message : Messages.JsValue)
| CleanupTick
| Dispose.

(** One step of a run: the clock, the host as the handler finds it, the
    time a render takes if one is made, and the event. *)
Record Step : Type := mkStep {
  at_time : Z;
  host : Provider.Env;
  elapsed : Z;
  event : Event
}.

Definition handle (st : Step) (p : Provider.t) : option Provider.t :=
  match event st with
  | UpdatePreview document =>
      Some (Provider.updatePreview document (at_time st) p)
  | SwitchDocument document =>
      Provider.switchDocument generateKey render (host st) document
        (at_time st) (elapsed st) p
  | ShowPreview document => Some (showPreview document (at_time st) p)
  | WebviewMessage message =>
      Provider.handleWebviewMessage generateKey render (host st)
        (at_time st) (elapsed st) message p
  | CleanupTick => Some (Provider.cleanupTick (at_time st) p)
  | Dispose => Some (dispose p)
  end.

(** The provider over a timed sequence of events none of which arrives
    while a render is awaited: every update runs to its end before the next
    event.  Before an event is handled, the timers due by then have run.
    [unfold] further down is the provider over sequences in which events
    and the settling of renders interleave. *)
Fixpoint run (steps : list Step) (p : Provider.t) : option Provider.t :=
  match steps with
  | [] => Some p
  | x :: steps' =>
      match runTimers (host x) (elapsed x) (at_time x) p with
      | None => None
      | Some p1 =>
          match handle x p1 with
          | None => None
          | Some p2 => run steps' p2
          end
      end
  end.

End Engine.

(** At most one debounce timer is pending, and [updateTimeout] names it. *)
Definition oneTimer (p : Provider.t) : Prop :=
  Timers.pending (Provider.timers p) = []
  \/ exists h d,
       Provider.updateTimeout p = Some h
       /\ Timers.pending (Provider.timers p)
          = [Timers.mkTimer h d Provider.DoUpdatePreview].

(** An [updatePreview] call that concerns the document [doc]. *)
Definition forCurrent (doc : Provider.TextDocument)
    (document : option Provider.TextDocument) : Prop :=
  match document with
  | None => True
  | Some d => Provider.uri d = Provider.uri doc
  end.

(** Calls of [updatePreview] for [doc], each at most 99 ms after the one
    before. *)
Fixpoint pacedUpdates (doc : Provider.TextDocument) (t : Z)
    (l : list (Z * option Provider.TextDocument)) : Prop :=
  match l with
  | [] => True
  | (t', d) :: l' =>
      forCurrent doc d /\ t <= t' < t + 100 /\ pacedUpdates doc t' l'
  end.

Fixpoint lastUpdate (t : Z) (l : list (Z * option Provider.TextDocument))
  : Z :=
  match l with
  | [] => t
  | (t', _) :: l' => lastUpdate t' l'
  end.

(** The provider after a burst of updates: as [p], but for the handle of
    the last timer and the emptied timer table. *)
Definition settled (p : Provider.t) (h n : nat) : Provider.t :=
  {| Provider.panel := Provider.panel p;
     Provider.currentDocument := Provider.currentDocument p;
     Provider.updateTimeout := Some h;
     Provider.cache := Provider.cache p;
     Provider.scrollSyncManager := Provider.scrollSyncManager p;
     Provider.timers := Timers.mkTable n [];
     Provider.effects := Provider.effects p |}.

(** A stand-in for [trim] that removes the spaces at both ends. *)
Fixpoint trimStart (s : string) : string :=
  match s with
  | String " " s' => trimStart s'
  | _ => s
  end.

Fixpoint reverse (s acc : string) : string :=
  match s with
  | EmptyString => acc
  | String a s' => reverse s' (String a acc)
  end.

Definition trimSpaces (s : string) : string :=
  reverse (trimStart (reverse (trimStart s) "")) "".

Definition blankDoc : Provider.TextDocument :=
  Provider.mkDocument "file:///blank.md" "blank.md" "   ".

Definition showingBlank : Provider.t :=
  {| Provider.panel := true;
     Provider.currentDocument := Some blankDoc;
     Provider.updateTimeout := None;
     Provider.cache := Provider.cache Provider.new;
     Provider.scrollSyncManager := Some (ScrollSync.new "file:///blank.md");
     Provider.timers := Timers.empty;
     Provider.effects := [] |}.

(** The provider in the middle of a burst of updates that began on [p]:
    one debounce callback is pending, due 100 ms after the last call, made
    at [t]. *)
Definition waiting (p : Provider.t) (h n : nat) (t : Z) : Provider.t :=
  {| Provider.panel := Provider.panel p;
     Provider.currentDocument := Provider.currentDocument p;
     Provider.updateTimeout := Some h;
     Provider.cache := Provider.cache p;
     Provider.scrollSyncManager := Provider.scrollSyncManager p;
     Provider.timers :=
       Timers.mkTable n [Timers.mkTimer h (t + 100) Provider.DoUpdatePreview];
     Provider.effects := Provider.effects p |}.

Definition updateSteps (env : Provider.Env) (elapsed : Z)
    (l : list (Z * option Provider.TextDocument)) : list Step :=
  List.map (fun e => mkStep (fst e) env elapsed (UpdatePreview (snd e))) l.

(** *** The provider with renders in flight *)

Section Interleaved.

Variable generateKey : Provider.RenderOptions -> string.

(** [switchDocument(document)] up to the first [await] of the update it
    starts. *)
Definition beginSwitch (env : Provider.Env) (document : Provider.TextDocument)
    (now : Z) (p : Provider.t) : Provider.t * option Provider.Job :=
  if negb (Provider.panel p) then (p, None)
  else
    Provider.beginUpdate generateKey env now
      {| Provider.panel := Provider.panel p;
         Provider.currentDocument := Some document;
         Provider.updateTimeout := Provider.updateTimeout p;
         Provider.cache := Provider.cache p;
         Provider.scrollSyncManager :=
           Some (ScrollSync.new (Provider.uri document));
         Provider.timers := Provider.timers p;
         Provider.effects :=
           Provider.effects p
           ++ [Provider.SetTitle (Provider.fileName document)] |}.

(** What the provider is waiting for at an [await] after which it goes
    on: the posting of the configuration in the [ready] arm of
    [handleWebviewMessage], after which [doUpdatePreview] is called, and a
    render. *)
Inductive Awaited : Type :=
| ConfigPosted
| Rendering (job : Provider.Job).

Definition rendering (r : Provider.t * option Provider.Job)
  : Provider.t * option Awaited :=
  (fst r, option_map Rendering (snd r)).

(** [handleWebviewMessage(message)] up to its first [await] after which
    more is done: a [ready] message posts the configuration and waits; the
    other kinds are dealt with at once. *)
Definition beginMessage (env : Provider.Env) (now : Z)
    (message : Messages.JsValue) (p : Provider.t)
  : Provider.t * option Awaited :=
  if negb (Messages.isWebviewToExtensionMessage message)
  then (Provider.emit [Provider.ConsoleWarnInvalid message] p, None)
  else
    let type := Messages.prop "type" message in
    if Messages.isTag type "ready" then
      (Provider.sendCurrentConfig env p, Some ConfigPosted)
    else if Messages.isTag type "scroll" then
      (Provider.dispatchScroll env now message p, None)
    else if Messages.isTag type "openExternal" then
      (Provider.emit
         [Provider.OpenExternal
            (Provider.asString (Messages.prop "url" message))] p, None)
    else if Messages.isTag type "error" then
      (Provider.emit
         [Provider.ShowErrorMessage
            (Provider.asString (Messages.prop "message" message))] p, None)
    else if Messages.isTag type "changeMarkdownStyle" then
      (Provider.emit
         [Provider.ConfigUpdate "markdownStyle"
            (Provider.asString (Messages.prop "style" message))] p, None)
    else if Messages.isTag type "changeCodeTheme" then
      (Provider.emit
         [Provider.ConfigUpdate "codeTheme"
            (Provider.asString (Messages.prop "theme" message))] p, None)
    else (p, None).

(** The debounce timer fires: the update it starts, up to its first
    [await]. *)
Definition beginFire (env : Provider.Env)
    (x : Timers.Timer Provider.Action) (p : Provider.t)
  : Provider.t * option Provider.Job :=
  match Timers.action x with
  | Provider.DoUpdatePreview =>
      Provider.beginUpdate generateKey env (Timers.due x)
        {| Provider.panel := Provider.panel p;
           Provider.currentDocument := Provider.currentDocument p;
           Provider.updateTimeout := Provider.updateTimeout p;
           Provider.cache := Provider.cache p;
           Provider.scrollSyncManager := Provider.scrollSyncManager p;
           Provider.timers :=
             Timers.clearTimeout (Timers.tid x) (Provider.timers p);
           Provider.effects := Provider.effects p |}
  end.

(** The provider and what it is waiting for. *)
Record World : Type := mkWorld {
  provider : Provider.t;
  inFlight : list Awaited
}.

Definition started (w : World) (r : Provider.t * option Awaited) : World :=
  {| provider := fst r;
     inFlight :=
       inFlight w ++ match snd r with Some a => [a] | None => [] end |}.

(** Every debounce timer that is due at [now] runs. *)
Fixpoint catchUp (fuel : nat) (env : Provider.Env) (now : Z) (w : World)
  : World :=
  match fuel with
  | O => w
  | S fuel' =>
      match Timers.nextDue now (Provider.timers (provider w)) with
      | None => w
      | Some x =>
          catchUp fuel' env now
            (started w (rendering (beginFire env x (provider w))))
      end
  end.

(** What happens at one moment: an event reaches the provider, or what is
    awaited at position [awaited] settles, a render with [result]. *)
Inductive Occurrence : Type :=
| Arrives (event : Event)
| Settles (awaited : nat) (result : string + string).

Record Moment : Type := mkMoment {
  clock : Z;
  around : Provider.Env;
  occurrence : Occurrence
}.

Fixpoint without {A : Type} (n : nat) (l : list A) : list A :=
  match l, n with
  | [], _ => []
  | _ :: l', O => l'
  | x :: l', S n' => x :: without n' l'
  end.

Definition occur (m : Moment) (w : World) : option World :=
  match occurrence m with
  | Arrives (UpdatePreview document) =>
      Some {| provider :=
                Provider.updatePreview document (clock m) (provider w);
              inFlight := inFlight w |}
  | Arrives (SwitchDocument document) =>
      Some (started w
              (rendering
                 (beginSwitch (around m) document (clock m) (provider w))))
  | Arrives (ShowPreview document) =>
      Some {| provider := showPreview document (clock m) (provider w);
              inFlight := inFlight w |}
  | Arrives (WebviewMessage message) =>
      Some (started w (beginMessage (around m) (clock m) message (provider w)))
  | Arrives CleanupTick =>
      Some {| provider := Provider.cleanupTick (clock m) (provider w);
              inFlight := inFlight w |}
  | Arrives Dispose =>
      Some {| provider := dispose (provider w); inFlight := inFlight w |}
  | Settles awaited result =>
      match nth_error (inFlight w) awaited with
      | None => Some w
      | Some ConfigPosted =>
          Some (started
                  {| provider := provider w;
                     inFlight := without awaited (inFlight w) |}
                  (rendering
                     (Provider.beginUpdate generateKey (around m) (clock m)
                        (provider w))))
      | Some (Rendering job) =>
          match Provider.finishUpdate job result (clock m) (provider w) with
          | None => None
          | Some p' =>
              Some {| provider := p';
                      inFlight := without awaited (inFlight w) |}
          end
      end
  end.

(** The provider over a timed sequence of moments: before each, the
    timers due by then have run.  [None] when a [set] of the cache does not
    return. *)
Fixpoint unfold (moments : list Moment) (w : World) : option World :=
  match moments with
  | [] => Some w
  | m :: moments' =>
      match
        occur m
          (catchUp
             (List.length (Timers.pending (Provider.timers (provider w))))
             (around m) (clock m) w)
      with
      | None => None
      | Some w' => unfold moments' w'
      end
  end.

Definition start : World := {| provider := Provider.new; inFlight := [] |}.

End Interleaved.

(** The preview is opened on [docA] at 0 and the document changes at 50;
    the timer fires at 150 and starts a render; the panel is closed at 160
    while it is awaited; the render settles at 200. *)
Definition closedWhileRendering : list Moment :=
  [mkMoment 0 ProviderSpec.demoEnv (Arrives (ShowPreview ProviderSpec.docA));
   mkMoment 50 ProviderSpec.demoEnv
     (Arrives (UpdatePreview (Some ProviderSpec.docA)));
   mkMoment 160 ProviderSpec.demoEnv (Arrives Dispose);
   mkMoment 200 ProviderSpec.demoEnv (Settles 0 (inl "<p># A</p>"))].

End ProviderMore.

(** ** The extension's listeners ([activate] in [extension.ts]) *)

Module Extension.

(** The one [setTimeout] callback of [activate]: [updatePreview] for the
    document of the change event. *)
Inductive Action : Type :=
| CallUpdatePreview (document : Provider.TextDocument).

(** [debounceTimeout], the timers it refers to, and [previewProvider]. *)
Record t : Type := mkExtension {
  debounceTimeout : option nat;
  timers : Timers.Table Action;
  previewProvider : Provider.t
}.

(** The listener of [onDidChangeTextDocument]. *)
Definition onDidChangeTextDocument (languageId : string)
    (document : Provider.TextDocument) (now : Z) (e : t) : t :=
  if String.eqb languageId "markdown" then
    let tb := Timers.clearIfSet (debounceTimeout e) (timers e) in
    let '(h, tb') := Timers.setTimeout (CallUpdatePreview document) now 100 tb in
    {| debounceTimeout := Some h; timers := tb';
       previewProvider := previewProvider e |}
  else e.

(** The listener of [onDidChangeConfiguration]. *)
Definition onDidChangeConfiguration (affectsBmmd : bool) (now : Z) (e : t)
  : t :=
  if affectsBmmd then
    {| debounceTimeout := debounceTimeout e; timers := timers e;
       previewProvider := Provider.updatePreview None now (previewProvider e) |}
  else e.

(** The debounce callback runs. *)
Definition fire (x : Timers.Timer Action) (e : t) : t :=
  match Timers.action x with
  | CallUpdatePreview document =>
      {| debounceTimeout := debounceTimeout e;
         timers := Timers.clearTimeout (Timers.tid x) (timers e);
         previewProvider :=
           Provider.updatePreview (Some document) (Timers.due x)
             (previewProvider e) |}
  end.

Fixpoint advance (fuel : nat) (now : Z) (e : t) : t :=
  match fuel with
  | O => e
  | S fuel' =>
      match Timers.nextDue now (timers e) with
      | None => e
      | Some x => advance fuel' now (fire x e)
      end
  end.

(** Every timer of the extension that is due at [now] runs. *)
Definition runTimers (now : Z) (e : t) : t :=
  advance (List.length (Timers.pending (timers e))) now e.

(** The extension with no change pending, beside a provider. *)
Definition idle (p : Provider.t) : t :=
  {| debounceTimeout := None; timers := Timers.empty; previewProvider := p |}.

End Extension.

(** * Properties *)

(** ** Facts about the entry map *)

Section EntryMapFacts.

Import RenderCache.

Lemma estimateSize_pos (s : string) : 100 <= estimateSize s.
Proof. unfold estimateSize. lia. Qed.

Lemma overShare_Z (htmlSize maxMem : Z) :
  overShare htmlSize maxMem = (maxMem <? 5 * htmlSize).
Proof.
  unfold overShare.
  destruct (Qle_bool (inject_Z htmlSize) (inject_Z maxMem * (2 # 10))) eqn:E.
  - apply Qle_bool_iff in E. unfold Qle in E. simpl in E.
    symmetry. apply Z.ltb_ge. lia.
  - symmetry. apply Z.ltb_lt.
    destruct (Z_lt_le_dec maxMem (5 * htmlSize)) as [H | H]; [exact H |].
    assert (Qle_bool (inject_Z htmlSize) (inject_Z maxMem * (2 # 10)) = true)
      as E'.
    { apply Qle_bool_iff. unfold Qle. simpl. lia. }
    congruence.
Qed.

Lemma map_get_set_same (k : string) (e : CacheEntry) (m : EntryMap) :
  map_get k (map_set k e m) = Some e.
Proof.
  induction m as [| [k' e'] m IH]; simpl.
  - now rewrite String.eqb_refl.
  - destruct (String.eqb k' k) eqn:E; simpl; rewrite E; auto.
Qed.

Lemma map_get_in_keys (k : string) (m : EntryMap) :
  In k (keys m) -> exists e, map_get k m = Some e.
Proof.
  induction m as [| [k' e'] m IH]; simpl; [tauto |].
  intros [-> | H].
  - rewrite String.eqb_refl. eauto.
  - destruct (String.eqb k' k); eauto.
Qed.

Lemma map_get_some_in_keys (k : string) (e : CacheEntry) (m : EntryMap) :
  map_get k m = Some e -> In k (keys m).
Proof.
  induction m as [| [k' e'] m IH]; simpl; [discriminate |].
  destruct (String.eqb k' k) eqn:E.
  - apply String.eqb_eq in E. auto.
  - auto.
Qed.

Lemma map_get_none_not_in (k : string) (m : EntryMap) :
  map_get k m = None -> ~ In k (keys m).
Proof.
  intros H Hin. apply map_get_in_keys in Hin as [e He]. congruence.
Qed.

Lemma keys_delete_incl (k x : string) (m : EntryMap) :
  In x (keys (map_delete k m)) -> In x (keys m).
Proof.
  induction m as [| [k' e'] m IH]; simpl; [tauto |].
  destruct (String.eqb k' k); simpl; tauto.
Qed.

Lemma keys_set_incl (k x : string) (e : CacheEntry) (m : EntryMap) :
  In x (keys (map_set k e m)) -> x = k \/ In x (keys m).
Proof.
  induction m as [| [k' e'] m IH]; simpl.
  - intros [-> | []]. now left.
  - destruct (String.eqb k' k); simpl; tauto.
Qed.

Lemma NoDup_keys_delete (k : string) (m : EntryMap) :
  NoDup (keys m) -> NoDup (keys (map_delete k m)).
Proof.
  induction m as [| [k' e'] m IH]; simpl; intros H; [constructor |].
  inversion H as [| ? ? Hnin Hnd]; subst.
  destruct (String.eqb k' k); simpl; [exact Hnd |].
  constructor; [| now apply IH].
  intros Hin. apply Hnin. eapply keys_delete_incl. exact Hin.
Qed.

Lemma NoDup_keys_set (k : string) (e : CacheEntry) (m : EntryMap) :
  NoDup (keys m) -> NoDup (keys (map_set k e m)).
Proof.
  induction m as [| [k' e'] m IH]; simpl; intros H.
  - constructor; [simpl; tauto | constructor].
  - inversion H as [| ? ? Hnin Hnd]; subst.
    destruct (String.eqb k' k) eqn:E; simpl.
    + constructor; assumption.
    + constructor; [| now apply IH].
      intros Hin. apply keys_set_incl in Hin as [-> | Hin]; [| tauto].
      rewrite String.eqb_refl in E. discriminate.
Qed.

Lemma entriesSize_delete (k : string) (m : EntryMap) :
  entriesSize (map_delete k m) =
  entriesSize m
  - match map_get k m with
    | Some e => estimateSize (html e)
    | None => 0
    end.
Proof.
  induction m as [| [k' e'] m IH]; simpl; [reflexivity |].
  destruct (String.eqb k' k); simpl; lia.
Qed.

Lemma entriesSize_set (k : string) (e : CacheEntry) (m : EntryMap) :
  entriesSize (map_set k e m) =
  entriesSize m
  - match map_get k m with
    | Some o => estimateSize (html o)
    | None => 0
    end
  + estimateSize (html e).
Proof.
  induction m as [| [k' e'] m IH]; simpl; [lia |].
  destruct (String.eqb k' k); simpl; lia.
Qed.

Lemma length_delete (k : string) (m : EntryMap) :
  In k (keys m) -> S (List.length (map_delete k m)) = List.length m.
Proof.
  induction m as [| [k' e'] m IH]; simpl; [tauto |].
  intros H. destruct (String.eqb k' k) eqn:E; simpl; [reflexivity |].
  destruct H as [-> | H].
  - rewrite String.eqb_refl in E. discriminate.
  - now rewrite IH.
Qed.

Lemma map_delete_app_here (k : string) (e : CacheEntry) (pre post : EntryMap) :
  ~ In k (keys pre) ->
  map_delete k (pre ++ (k, e) :: post) = pre ++ post.
Proof.
  induction pre as [| [k' e'] pre IH]; simpl; intros H.
  - now rewrite String.eqb_refl.
  - destruct (String.eqb k' k) eqn:E.
    + apply String.eqb_eq in E. tauto.
    + f_equal. apply IH. tauto.
Qed.

Lemma map_get_app_here (k : string) (e : CacheEntry) (pre post : EntryMap) :
  ~ In k (keys pre) ->
  map_get k (pre ++ (k, e) :: post) = Some e.
Proof.
  induction pre as [| [k' e'] pre IH]; simpl; intros H.
  - now rewrite String.eqb_refl.
  - destruct (String.eqb k' k) eqn:E.
    + apply String.eqb_eq in E. tauto.
    + apply IH. tauto.
Qed.

Lemma map_set_fresh (k : string) (e : CacheEntry) (m : EntryMap) :
  ~ In k (keys m) -> map_set k e m = m ++ [(k, e)].
Proof.
  induction m as [| [k' e'] m IH]; simpl; intros H; [reflexivity |].
  destruct (String.eqb k' k) eqn:E.
  - apply String.eqb_eq in E. tauto.
  - f_equal. apply IH. tauto.
Qed.

Lemma entriesSize_app (a b : EntryMap) :
  entriesSize (a ++ b) = entriesSize a + entriesSize b.
Proof.
  induction a as [| [k e] a IH]; simpl; lia.
Qed.

Lemma keys_app (a b : EntryMap) : keys (a ++ b) = keys a ++ keys b.
Proof. unfold keys. apply map_app. Qed.

End EntryMapFacts.

(** ** The scan for the least recently used entry *)

Section EvictionFacts.

Import RenderCache CacheSpec.

Lemma lruFold_split (rest pre : EntryMap) (k : string) (e : CacheEntry)
    (post : EntryMap) :
  leastRecentAt pre e post ->
  exists pre' k' e' post',
    (pre ++ (k, e) :: post) ++ rest = pre' ++ (k', e') :: post'
    /\ fold_left lruStep rest (Some k, Some (lastAccess e))
       = (Some k', Some (lastAccess e'))
    /\ leastRecentAt pre' e' post'.
Proof.
  revert pre k e post.
  induction rest as [| [kx ex] rest IH]; intros pre k e post [Hpre Hpost].
  - exists pre, k, e, post. rewrite app_nil_r. repeat split; assumption.
  - simpl. destruct (lastAccess ex <? lastAccess e) eqn:E.
    + apply Z.ltb_lt in E.
      destruct (IH (pre ++ (k, e) :: post) kx ex []) as (p & k' & e' & q & H1 & H2 & H3).
      { split; [| intros x []].
        intros x Hx. apply in_app_or in Hx as [Hx | [<- | Hx]]; simpl.
        - specialize (Hpre x Hx). lia.
        - exact E.
        - specialize (Hpost x Hx). lia. }
      exists p, k', e', q. split; [| split; assumption].
      rewrite <- H1. rewrite <- (app_assoc _ [(kx, ex)] rest). reflexivity.
    + apply Z.ltb_ge in E.
      destruct (IH pre k e (post ++ [(kx, ex)])) as (p & k' & e' & q & H1 & H2 & H3).
      { split; [exact Hpre |].
        intros x Hx. apply in_app_or in Hx as [Hx | [<- | []]]; simpl; auto. }
      exists p, k', e', q. split; [| split; assumption].
      rewrite <- H1. rewrite <- !app_assoc. simpl.
      rewrite <- app_assoc. reflexivity.
Qed.

(** On a map that is not empty the scan ends on the first entry among
    those with the least [lastAccess]. *)
Lemma lruScan_split (m : EntryMap) :
  m <> [] ->
  exists pre k e post,
    m = pre ++ (k, e) :: post
    /\ lruScan m = (Some k, Some (lastAccess e))
    /\ leastRecentAt pre e post.
Proof.
  destruct m as [| [k e] m]; [congruence | intros _].
  unfold lruScan. simpl.
  destruct (lruFold_split m [] k e []) as (p & k' & e' & q & H1 & H2 & H3).
  { split; intros x []. }
  exists p, k', e', q. simpl in H1. auto.
Qed.

Lemma lruScan_key_present (m : EntryMap) (k : string) :
  fst (lruScan m) = Some k -> exists e, map_get k m = Some e.
Proof.
  destruct m as [| x m].
  - unfold lruScan. simpl. discriminate.
  - destruct (lruScan_split (x :: m)) as (p & k' & e' & q & H1 & H2 & _);
      [discriminate |].
    intros H. rewrite H2 in H. simpl in H. injection H as <-.
    apply map_get_in_keys. rewrite H1, keys_app. apply in_or_app. right.
    simpl. now left.
Qed.

(** [evictLeastRecentlyUsed] either removes one entry, whose size it takes
    off the total, or leaves the cache as it is. *)
Lemma evict_cases (c : t) :
  evictLeastRecentlyUsed c = c
  \/ exists k e,
       k <> "" /\ fst (lruScan (cache c)) = Some k
       /\ map_get k (cache c) = Some e
       /\ evictLeastRecentlyUsed c
          = with_cache
              (with_memory c (currentMemorySize c - estimateSize (html e)))
              (map_delete k (cache c)).
Proof.
  unfold evictLeastRecentlyUsed.
  destruct (fst (lruScan (cache c))) as [k |] eqn:Ek; simpl; [| now left].
  destruct (String.eqb k "") eqn:E; simpl; [now left |].
  destruct (lruScan_key_present _ _ Ek) as [e He]. rewrite He.
  right. exists k, e. repeat split; auto.
  intros ->. discriminate.
Qed.

(** With no empty key in a cache that is not empty, it removes one. *)
Lemma evict_progress (c : t) :
  cache c <> [] -> noEmptyKey (cache c) ->
  exists k e,
    In k (keys (cache c)) /\ map_get k (cache c) = Some e
    /\ evictLeastRecentlyUsed c
       = with_cache
           (with_memory c (currentMemorySize c - estimateSize (html e)))
           (map_delete k (cache c)).
Proof.
  intros Hne Hkeys.
  destruct (lruScan_split _ Hne) as (p & k & e & q & H1 & H2 & _).
  assert (In k (keys (cache c))) as Hin.
  { rewrite H1, keys_app. apply in_or_app. right. simpl. now left. }
  destruct (map_get_in_keys _ _ Hin) as [e' He'].
  exists k, e'. split; [exact Hin | split; [exact He' |]].
  unfold evictLeastRecentlyUsed. rewrite H2. simpl.
  destruct (String.eqb k "") eqn:E.
  - apply String.eqb_eq in E. exfalso. exact (Hkeys k Hin E).
  - simpl. now rewrite He'.
Qed.

(** The same on a cache whose keys are distinct: the entry removed is the
    one the scan settles on. *)
Lemma evict_least_recent (c : t) :
  cache c <> [] -> NoDup (keys (cache c)) ->
  exists pre k e post,
    cache c = pre ++ (k, e) :: post
    /\ leastRecentAt pre e post
    /\ (k <> "" ->
        evictLeastRecentlyUsed c
        = with_cache
            (with_memory c (currentMemorySize c - estimateSize (html e)))
            (pre ++ post))
    /\ (k = "" -> evictLeastRecentlyUsed c = c).
Proof.
  intros Hne Hnd.
  destruct (lruScan_split _ Hne) as (p & k & e & q & H1 & H2 & H3).
  exists p, k, e, q. split; [exact H1 | split; [exact H3 |]].
  assert (~ In k (keys p)) as Hnin.
  { rewrite H1, keys_app in Hnd. simpl in Hnd.
    apply NoDup_remove_2 in Hnd. intros Hin. apply Hnd.
    apply in_or_app. now left. }
  unfold evictLeastRecentlyUsed. rewrite H2. simpl. split.
  - intros Hk. destruct (String.eqb k "") eqn:E.
    + apply String.eqb_eq in E. contradiction.
    + assert (map_get k (cache c) = Some e) as Hg
        by (rewrite H1; apply map_get_app_here; exact Hnin).
      assert (map_delete k (cache c) = p ++ q) as Hd
        by (rewrite H1; apply map_delete_app_here; exact Hnin).
      simpl. rewrite Hg, Hd. reflexivity.
  - intros ->. reflexivity.
Qed.

End EvictionFacts.

(** ** The memory total under every operation *)

Section Accounting.

Import RenderCache CacheSpec.

Lemma eta (c : t) :
  c = mkCache (cache c) (maxSize c) (ttl c) (maxMemorySize c)
        (currentMemorySize c).
Proof. destruct c. reflexivity. Qed.

(** [cleanExpired] in closed form, on a cache whose keys are distinct: the
    entries past their time to live go, each taking its size with it. *)
Lemma cleanExpired_fold (now : Z) (l pre : EntryMap) (c : t) (n : Z) :
  cache c = pre ++ l -> NoDup (keys (pre ++ l)) ->
  fold_left (cleanStep now) l (c, n) =
  (mkCache
     (pre ++ filter (fun ke => negb (expired c now (snd ke))) l)
     (maxSize c) (ttl c) (maxMemorySize c)
     (currentMemorySize c
      - entriesSize (filter (fun ke => expired c now (snd ke)) l)),
   n + Z.of_nat
         (List.length (filter (fun ke => expired c now (snd ke)) l))).
Proof.
  revert pre c n.
  induction l as [| [k e] l IH]; intros pre c n Hc Hnd.
  - simpl. rewrite <- Hc, Z.sub_0_r, Z.add_0_r. f_equal. apply eta.
  - cbn [fold_left cleanStep filter snd].
    destruct (expired c now e) eqn:E.
    + assert (~ In k (keys pre)) as Hnin.
      { rewrite keys_app in Hnd. simpl in Hnd.
        apply NoDup_remove_2 in Hnd. intros Hin. apply Hnd.
        apply in_or_app. now left. }
      rewrite (IH pre).
      * cbn [negb filter entriesSize List.length maxSize ttl maxMemorySize
               currentMemorySize with_cache with_memory snd html].
        unfold expired. cbn [ttl with_cache with_memory].
        f_equal; [f_equal |]; lia.
      * cbn [cache with_cache]. rewrite Hc. now apply map_delete_app_here.
      * rewrite keys_app in *. simpl in Hnd.
        eapply NoDup_remove_1. exact Hnd.
    + rewrite (IH (pre ++ [(k, e)])).
      * cbn [negb filter]. rewrite <- app_assoc. reflexivity.
      * rewrite Hc, <- app_assoc. reflexivity.
      * rewrite <- app_assoc. exact Hnd.
Qed.

Lemma entriesSize_filter_split (f : string * CacheEntry -> bool)
    (l : EntryMap) :
  entriesSize l =
  entriesSize (filter f l) + entriesSize (filter (fun x => negb (f x)) l).
Proof.
  induction l as [| [k e] l IH]; simpl; [reflexivity |].
  destruct (f (k, e)); simpl; lia.
Qed.

Lemma entriesSize_nonneg (l : EntryMap) : 0 <= entriesSize l.
Proof.
  induction l as [| [k e] l IH]; simpl; [lia |].
  pose proof (estimateSize_pos (html e)). lia.
Qed.

Lemma NoDup_keys_filter (f : string * CacheEntry -> bool) (l : EntryMap) :
  NoDup (keys l) -> NoDup (keys (filter f l)).
Proof.
  induction l as [| [k e] l IH]; simpl; intros H; [constructor |].
  inversion H as [| ? ? Hnin Hnd]; subst.
  destruct (f (k, e)); simpl; [| now apply IH].
  constructor; [| now apply IH].
  intros Hin. apply Hnin. unfold keys in *.
  apply in_map_iff in Hin as (x & Hx & Hin).
  apply filter_In in Hin as [Hin _].
  apply in_map_iff. eauto.
Qed.

Lemma accounted_get (key : string) (now : Z) (c : t) :
  accounted c -> accounted (snd (get key now c)).
Proof.
  intros (H0 & H1 & H2 & H3). unfold get.
  destruct (map_get key (cache c)) as [e |] eqn:E; [| repeat split; auto].
  destruct (expired c now e); unfold accounted; simpl.
  - rewrite entriesSize_delete, E. pose proof (estimateSize_pos (html e)).
    repeat split; auto; try lia. now apply NoDup_keys_delete.
  - rewrite entriesSize_set, E. simpl.
    repeat split; auto; try lia. now apply NoDup_keys_set.
Qed.

Lemma accounted_has (key : string) (now : Z) (c : t) :
  accounted c -> accounted (snd (has key now c)).
Proof.
  intros (H0 & H1 & H2 & H3). unfold has.
  destruct (map_get key (cache c)) as [e |] eqn:E; [| repeat split; auto].
  destruct (expired c now e); unfold accounted; simpl.
  - rewrite entriesSize_delete, E. pose proof (estimateSize_pos (html e)).
    repeat split; auto; try lia. now apply NoDup_keys_delete.
  - repeat split; auto.
Qed.

Lemma accounted_delete (key : string) (c : t) :
  accounted c -> accounted (delete key c).
Proof.
  intros (H0 & H1 & H2 & H3). unfold delete.
  destruct (map_get key (cache c)) as [e |] eqn:E; [| repeat split; auto].
  unfold accounted; simpl.
  rewrite entriesSize_delete, E. pose proof (estimateSize_pos (html e)).
  repeat split; auto; try lia. now apply NoDup_keys_delete.
Qed.

Lemma accounted_clear (c : t) : accounted c -> accounted (clear c).
Proof.
  intros (H0 & H1 & H2 & H3). unfold accounted, clear; simpl.
  repeat split; auto; try lia. constructor.
Qed.

Lemma accounted_cleanExpired (now : Z) (c : t) :
  accounted c -> accounted (snd (cleanExpired now c)).
Proof.
  intros (H0 & H1 & H2 & H3). unfold cleanExpired.
  rewrite (cleanExpired_fold now (cache c) [] c 0) by (simpl; auto).
  unfold accounted; simpl.
  pose proof (entriesSize_filter_split
                (fun ke => expired c now (snd ke)) (cache c)) as Hs.
  cbv beta in Hs.
  pose proof (entriesSize_nonneg
                (filter (fun ke => expired c now (snd ke)) (cache c))).
  repeat split; auto; try lia. now apply NoDup_keys_filter.
Qed.

Lemma accounted_evict (c : t) :
  accounted c -> accounted (evictLeastRecentlyUsed c).
Proof.
  intros Hc. destruct (evict_cases c) as [-> | (k & e & _ & _ & Hg & ->)];
    [exact Hc |].
  destruct Hc as (H0 & H1 & H2 & H3). unfold accounted; simpl.
  rewrite entriesSize_delete, Hg. pose proof (estimateSize_pos (html e)).
  repeat split; auto; try lia. now apply NoDup_keys_delete.
Qed.

Lemma evict_maxMemorySize (c : t) :
  maxMemorySize (evictLeastRecentlyUsed c) = maxMemorySize c.
Proof.
  destruct (evict_cases c) as [-> | (k & e & _ & _ & _ & ->)]; reflexivity.
Qed.

(** However the loop of [set] is left, the accounting is sound then; when it
    is left for the insertion, the new entry fits under the ceiling. *)
Lemma setLoop_accounted (fuel : nat) (htmlSize : Z) (c : t) (r : LoopExit) :
  setLoop fuel htmlSize c = Some r -> accounted c ->
  match r with
  | Proceed c1 =>
      accounted c1 /\ maxMemorySize c1 = maxMemorySize c
      /\ noRoom htmlSize c1 = false
  | Abort c1 => accounted c1 /\ maxMemorySize c1 = maxMemorySize c
  end.
Proof.
  revert c. induction fuel as [| fuel IH]; intros c; simpl; [discriminate |].
  destruct (noRoom htmlSize c) eqn:En.
  - destruct (map_size (cache c) =? 0).
    + intros [= <-] Hc. auto.
    + intros Hr Hc. specialize (IH _ Hr (accounted_evict _ Hc)).
      rewrite evict_maxMemorySize in IH. exact IH.
  - intros [= <-] Hc. auto.
Qed.

Lemma accounted_store (key html : string) (now : Z) (c : t) :
  accounted c -> noRoom (estimateSize html) c = false ->
  accounted (store key html now c).
Proof.
  intros (H0 & H1 & H2 & H3) Hn.
  unfold noRoom in Hn. apply orb_false_iff in Hn as [_ Hn].
  apply Z.ltb_ge in Hn.
  unfold accounted, store; simpl. rewrite entriesSize_set. simpl.
  destruct (map_get key (cache c)) as [o |].
  - pose proof (estimateSize_pos (RenderCache.html o)).
    repeat split; auto; try lia. now apply NoDup_keys_set.
  - repeat split; auto; try lia. now apply NoDup_keys_set.
Qed.

Lemma accounted_set (fuel : nat) (key html : string) (now : Z) (c c' : t) :
  set fuel key html now c = Some c' -> accounted c ->
  accounted c' /\ maxMemorySize c' = maxMemorySize c.
Proof.
  unfold set. destruct (overShare _ _); [intros [= <-]; auto |].
  destruct (setLoop fuel (estimateSize html) c) as [[c1 | c1] |] eqn:E;
    [| | discriminate]; intros [= <-] Hc;
    pose proof (setLoop_accounted _ _ _ _ E Hc) as H; simpl in H.
  - destruct H as (Ha & Hm & Hn). split.
    + now apply accounted_store.
    + rewrite <- Hm. reflexivity.
  - exact H.
Qed.

Lemma accounted_apply (fuel : nat) (o : Op) (c c' : t) :
  apply fuel o c = Some c' -> accounted c ->
  accounted c' /\ maxMemorySize c' = maxMemorySize c.
Proof.
  destruct o; simpl.
  - apply accounted_set.
  - intros [= <-] Hc. split; [now apply accounted_get |].
    unfold get. destruct (map_get _ _); [destruct (expired _ _ _) |];
      reflexivity.
  - intros [= <-] Hc. split; [now apply accounted_has |].
    unfold has. destruct (map_get _ _); [destruct (expired _ _ _) |];
      reflexivity.
  - intros [= <-] Hc. split; [now apply accounted_delete |].
    unfold delete. destruct (map_get _ _); reflexivity.
  - intros [= <-] Hc. split; [now apply accounted_clear | reflexivity].
  - intros [= <-] Hc. split; [now apply accounted_cleanExpired |].
    unfold cleanExpired.
    destruct Hc as (_ & _ & _ & Hnd).
    rewrite (cleanExpired_fold now (cache c) [] c 0) by (simpl; auto).
    reflexivity.
Qed.

Lemma accounted_run (fuel : nat) (ops : list Op) (c c' : t) :
  run fuel ops c = Some c' -> accounted c ->
  accounted c' /\ maxMemorySize c' = maxMemorySize c.
Proof.
  revert c. induction ops as [| o ops IH]; intros c; simpl.
  - intros [= <-] Hc. auto.
  - destruct (apply fuel o c) as [c1 |] eqn:E; [| discriminate].
    intros Hr Hc. destruct (accounted_apply _ _ _ _ E Hc) as [Hc1 Hm1].
    destruct (IH _ Hr Hc1) as [Hc' Hm']. split; [exact Hc' | congruence].
Qed.

Lemma accounted_new (options : RenderCacheOptions) :
  0 <= maxMemorySize (new options) -> accounted (new options).
Proof.
  intros H. unfold accounted. simpl in *. repeat split; auto; try lia.
  constructor.
Qed.

End Accounting.

(** ** The loop of [set] *)

Section SetLoop.

Import RenderCache CacheSpec.

(** The loop returns once it has more turns than the cache has entries,
    provided no key is the empty string. *)
Lemma setLoop_total (fuel : nat) (htmlSize : Z) (c : t) :
  noEmptyKey (cache c) -> (List.length (cache c) < fuel)%nat ->
  exists r, setLoop fuel htmlSize c = Some r.
Proof.
  revert c. induction fuel as [| fuel IH]; intros c Hk Hf; [lia |].
  simpl. destruct (noRoom htmlSize c); [| eauto].
  destruct (map_size (cache c) =? 0) eqn:E0; [eauto |].
  assert (cache c <> []) as Hne.
  { intros Hnil. rewrite Hnil in E0. discriminate. }
  destruct (evict_progress c Hne Hk) as (k & e & Hin & Hg & ->).
  apply IH; simpl.
  - intros x Hx. apply Hk. eapply keys_delete_incl. exact Hx.
  - pose proof (length_delete k (cache c) Hin). lia.
Qed.

(** What the loop leaves alone: the options and the leaked part of the
    total.  It gives up only on an empty cache that still has no room. *)
Lemma setLoop_frame (fuel : nat) (htmlSize : Z) (c : t) (r : LoopExit) :
  setLoop fuel htmlSize c = Some r ->
  match r with
  | Proceed c1 =>
      leaked c1 = leaked c /\ ttl c1 = ttl c /\ maxSize c1 = maxSize c
      /\ maxMemorySize c1 = maxMemorySize c
  | Abort c1 =>
      leaked c1 = leaked c /\ ttl c1 = ttl c /\ maxSize c1 = maxSize c
      /\ maxMemorySize c1 = maxMemorySize c
      /\ cache c1 = [] /\ noRoom htmlSize c1 = true
  end.
Proof.
  revert c. induction fuel as [| fuel IH]; intros c; simpl; [discriminate |].
  destruct (noRoom htmlSize c) eqn:En.
  - destruct (map_size (cache c) =? 0) eqn:E0.
    + intros [= <-]. repeat split; auto.
      destruct (cache c); [reflexivity | discriminate].
    + intros Hr. specialize (IH _ Hr).
      destruct (evict_cases c) as [He | (k & e & _ & _ & Hg & He)];
        rewrite He in IH; [exact IH |].
      assert (leaked
                (with_cache
                   (with_memory c
                      (currentMemorySize c - estimateSize (html e)))
                   (map_delete k (cache c))) = leaked c) as Hl.
      { unfold leaked. simpl. rewrite entriesSize_delete, Hg. lia. }
      rewrite Hl in IH. exact IH.
  - intros [= <-]. auto.
Qed.

Lemma setLoop_proceed_room (fuel : nat) (htmlSize : Z) (c c1 : t) :
  setLoop fuel htmlSize c = Some (Proceed c1) -> noRoom htmlSize c1 = false.
Proof.
  revert c. induction fuel as [| fuel IH]; intros c; simpl; [discriminate |].
  destruct (noRoom htmlSize c) eqn:En.
  - destruct (map_size (cache c) =? 0); [discriminate | apply IH].
  - intros [= <-]. exact En.
Qed.

Lemma get_after_store (key html : string) (now now' : Z) (c : t) :
  now' - now <= ttl c ->
  fst (get key now' (store key html now c)) = Some html.
Proof.
  intros Ht. unfold get, store. cbn [cache with_cache with_memory].
  rewrite map_get_set_same. unfold expired. cbn [ttl with_cache with_memory
    timestamp].
  destruct (ttl c <? now' - now) eqn:E; [apply Z.ltb_lt in E; lia |].
  reflexivity.
Qed.

Lemma totalSize_nonneg (l : list Insertion) : 0 <= totalSize l.
Proof.
  induction l as [| i l IH]; simpl; [lia |].
  pose proof (estimateSize_pos (ins_html i)). lia.
Qed.

Lemma totalSize_app (a b : list Insertion) :
  totalSize (a ++ b) = totalSize a + totalSize b.
Proof. induction a as [| i a IH]; simpl; lia. Qed.

Lemma keys_entryOf (l : list Insertion) :
  keys (List.map entryOf l) = List.map ins_key l.
Proof.
  unfold keys. rewrite map_map. apply map_ext. reflexivity.
Qed.

Lemma entriesSize_entryOf (l : list Insertion) :
  entriesSize (List.map entryOf l) = totalSize l.
Proof. induction l as [| i l IH]; simpl; lia. Qed.

(** A run of [set] calls with fresh keys into a cache with room for all of
    them appends the entries in call order. *)
Lemma run_fill (fuel : nat) (items : list Insertion) (c : t) :
  (1 <= fuel)%nat ->
  (forall x, In x items -> 5 * estimateSize (ins_html x) <= maxMemorySize c) ->
  map_size (cache c) + Z.of_nat (List.length items) <= maxSize c ->
  currentMemorySize c + totalSize items <= maxMemorySize c ->
  NoDup (keys (cache c) ++ List.map ins_key items) ->
  run fuel (List.map setOp items) c =
  Some (mkCache (cache c ++ List.map entryOf items) (maxSize c) (ttl c)
          (maxMemorySize c) (currentMemorySize c + totalSize items)).
Proof.
  intros Hf. revert c.
  induction items as [| i items IH]; intros c Hshare Hsize Hmem Hnd.
  - simpl. rewrite app_nil_r, Z.add_0_r. f_equal. apply eta.
  - cbn [List.map run apply setOp].
    unfold set. rewrite overShare_Z.
    destruct (maxMemorySize c <? 5 * estimateSize (ins_html i)) eqn:Eo.
    { apply Z.ltb_lt in Eo. specialize (Hshare i (or_introl eq_refl)). lia. }
    destruct fuel as [| fuel]; [lia |].
    pose proof (totalSize_nonneg items) as Hnn.
    pose proof (estimateSize_pos (ins_html i)) as Hpos.
    cbn [totalSize List.length] in *.
    assert (noRoom (estimateSize (ins_html i)) c = false) as En.
    { unfold noRoom. apply orb_false_iff. split.
      - apply Z.leb_gt. lia.
      - apply Z.ltb_ge. lia. }
    cbn [setLoop]. rewrite En.
    assert (~ In (ins_key i) (keys (cache c))) as Hfresh.
    { intros Hin. simpl in Hnd. apply NoDup_remove_2 in Hnd. apply Hnd.
      apply in_or_app. now left. }
    assert (map_get (ins_key i) (cache c) = None) as Hg.
    { destruct (map_get (ins_key i) (cache c)) eqn:E; [| reflexivity].
      apply map_get_some_in_keys in E. contradiction. }
    rewrite IH.
    + unfold store. rewrite Hg. cbn [cache maxSize ttl maxMemorySize
        currentMemorySize with_cache with_memory].
      rewrite map_set_fresh by exact Hfresh.
      rewrite <- app_assoc. f_equal. f_equal. simpl. lia.
    + intros x Hx. unfold store. simpl. apply Hshare. now right.
    + unfold store. cbn [cache maxSize with_cache with_memory].
      rewrite map_set_fresh by exact Hfresh.
      unfold map_size in *. rewrite length_app. simpl. lia.
    + unfold store. rewrite Hg. simpl. lia.
    + unfold store. cbn [cache with_cache with_memory].
      rewrite map_set_fresh by exact Hfresh.
      rewrite keys_app. simpl. rewrite <- app_assoc. simpl.
      simpl in Hnd. exact Hnd.
Qed.

End SetLoop.

(** * The render cache: the claims *)

Section CacheClaims.

Import RenderCache CacheSpec Scenario.

(** C1.  From a freshly constructed cache whose memory ceiling is not
    negative, after any sequence of [set], [get], [has], [delete], [clear]
    and [cleanExpired] calls the [memorySize] reported by [getStats] is at
    most [maxMemorySize]; the estimated sizes of the live entries sum to at
    most [memorySize]. *)
Theorem C1_memory_ceiling (options : RenderCacheOptions) (fuel : nat)
    (ops : list Op) (c : t) :
  0 <= maxMemorySize (new options) ->
  run fuel ops (new options) = Some c ->
  memorySize (getStats c) <= stats_maxMemorySize (getStats c)
  /\ entriesSize (cache c) <= memorySize (getStats c)
  /\ stats_maxMemorySize (getStats c) = maxMemorySize (new options).
Proof.
  intros H0 Hrun.
  destruct (accounted_run _ _ _ _ Hrun (accounted_new _ H0))
    as [(_ & H1 & H2 & _) Hm].
  simpl. auto.
Qed.

Lemma C1_memory_ceiling_witness :
  exists c,
    run 3 mixedOps (new smallMemory) = Some c
    /\ memorySize (getStats c) = 116
    /\ memorySize (getStats c) <= stats_maxMemorySize (getStats c).
Proof.
  eexists. split; [vm_compute; reflexivity |].
  split; [reflexivity |].
  apply (C1_memory_ceiling smallMemory 3 mixedOps).
  - simpl. lia.
  - vm_compute. reflexivity.
Defined.

(** C2 as stated fails: on a cache with a ceiling of 1000 bytes, [set] of a
    1009-character page stores nothing, and the [get] that follows at the
    same instant returns nothing. *)
Lemma C2_oversized_not_returned :
  exists c,
    set 1 "large-key" largeHtml 0 (new smallMemory) = Some c
    /\ 0 - 0 <= ttl c
    /\ fst (get "large-key" 0 c) = None.
Proof.
  eexists. split; [vm_compute; reflexivity |].
  split; [vm_compute; discriminate | vm_compute; reflexivity].
Qed.

(** C2, amended.  What [set(k, h)] does in each case.  When the page is
    within the per-entry limit (a fifth of the ceiling) and room can be
    made for it ([maxSize] at least 1, no empty-string key among the
    entries, and the part of the total that no entry accounts for plus the
    page's size within the ceiling), [set] returns and a [get(k)] before
    the time to live has elapsed returns exactly [h].  When the page is
    over the per-entry limit, [set] returns at once and leaves the cache
    exactly as it was.  When the page is within the limit but no room can
    be made ([maxSize] below 1, or the unaccounted part of the total plus
    the page's size over the ceiling), [set] returns after evicting every
    entry and stores nothing, so [get(k)] and [has(k)] find nothing. *)
Theorem C2_set_then_get :
  (forall (fuel : nat) (key html : string) (now now' : Z) (c : t),
      5 * estimateSize html <= maxMemorySize c ->
      1 <= maxSize c ->
      noEmptyKey (cache c) ->
      leaked c + estimateSize html <= maxMemorySize c ->
      (List.length (cache c) < fuel)%nat ->
      now' - now <= ttl c ->
      exists c',
        set fuel key html now c = Some c'
        /\ fst (get key now' c') = Some html)
  /\ (forall (fuel : nat) (key html : string) (now : Z) (c : t),
        maxMemorySize c < 5 * estimateSize html ->
        overShare (estimateSize html) (maxMemorySize c) = true
        /\ set fuel key html now c = Some c)
  /\ (forall (fuel : nat) (key html : string) (now now' : Z) (c : t),
        5 * estimateSize html <= maxMemorySize c ->
        maxSize c < 1 \/ maxMemorySize c < leaked c + estimateSize html ->
        noEmptyKey (cache c) ->
        (List.length (cache c) < fuel)%nat ->
        exists c',
          set fuel key html now c = Some c'
          /\ cache c' = []
          /\ fst (get key now' c') = None
          /\ fst (has key now' c') = false).
Proof.
  split; [| split].
  - intros fuel key html now now' c Hshare Hmax Hkeys Hleak Hfuel Httl.
    unfold set. rewrite overShare_Z.
    destruct (maxMemorySize c <? 5 * estimateSize html) eqn:Eo;
      [apply Z.ltb_lt in Eo; lia |].
    destruct (setLoop_total fuel (estimateSize html) c Hkeys Hfuel) as [r Hr].
    rewrite Hr. pose proof (setLoop_frame _ _ _ _ Hr) as Hfr.
    destruct r as [c1 | c1].
    + destruct Hfr as (_ & Ht & _ & _).
      eexists. split; [reflexivity |].
      apply get_after_store. rewrite Ht. exact Httl.
    + exfalso. destruct Hfr as (Hl & _ & Hs & Hm & Hnil & Hn).
      unfold noRoom, map_size in Hn. rewrite Hnil in Hn. simpl in Hn.
      unfold leaked in Hl. rewrite Hnil in Hl. simpl in Hl.
      apply orb_true_iff in Hn as [Hn | Hn].
      * apply Z.leb_le in Hn. lia.
      * apply Z.ltb_lt in Hn. unfold leaked in Hleak. lia.
  - intros fuel key html now c Hover.
    assert (overShare (estimateSize html) (maxMemorySize c) = true) as Ho.
    { rewrite overShare_Z. apply Z.ltb_lt. exact Hover. }
    split; [exact Ho |]. unfold set. now rewrite Ho.
  - intros fuel key html now now' c Hshare Hroom Hkeys Hfuel.
    unfold set. rewrite overShare_Z.
    destruct (maxMemorySize c <? 5 * estimateSize html) eqn:Eo;
      [apply Z.ltb_lt in Eo; lia |].
    destruct (setLoop_total fuel (estimateSize html) c Hkeys Hfuel) as [r Hr].
    rewrite Hr. pose proof (setLoop_frame _ _ _ _ Hr) as Hfr.
    destruct r as [c1 | c1].
    + exfalso. destruct Hfr as (Hl & _ & Hs & Hm).
      pose proof (setLoop_proceed_room _ _ _ _ Hr) as Hn.
      unfold noRoom in Hn. apply orb_false_iff in Hn as [Hn1 Hn2].
      apply Z.leb_gt in Hn1. apply Z.ltb_ge in Hn2.
      pose proof (entriesSize_nonneg (cache c1)) as He.
      unfold map_size in Hn1. unfold leaked in Hl, Hroom. lia.
    + destruct Hfr as (_ & _ & _ & _ & Hnil & _).
      eexists. split; [reflexivity |]. split; [exact Hnil |].
      unfold get, has. rewrite Hnil. split; reflexivity.
Qed.

Lemma C2_set_then_get_witness :
  exists c',
    set 3 "test-key" "<h1>Hello World</h1>" 5 afterOneSet = Some c'
    /\ fst (get "test-key" 300005 c') = Some "<h1>Hello World</h1>".
Proof.
  apply (proj1 C2_set_then_get 3%nat "test-key" "<h1>Hello World</h1>" 5 300005
           afterOneSet).
  - vm_compute. discriminate.
  - vm_compute. discriminate.
  - intros k [<- | []]. discriminate.
  - vm_compute. discriminate.
  - simpl. lia.
  - vm_compute. discriminate.
Defined.

End CacheClaims.

Section EvictionClaims.

Import RenderCache CacheSpec Scenario.

Lemma run_app (fuel : nat) (a b : list Op) (c : t) :
  run fuel (a ++ b) c =
  match run fuel a c with
  | Some c1 => run fuel b c1
  | None => None
  end.
Proof.
  revert c. induction a as [| o a IH]; intros c; simpl; [reflexivity |].
  destruct (apply fuel o c); [apply IH | reflexivity].
Qed.

(** The call that finds the cache full by count: the least recently used
    entry goes and the new one is appended. *)
Lemma set_on_full (fuel : nat) (items : list Insertion) (last : Insertion)
    (n ttl0 maxMem : Z) :
  items <> [] ->
  n = Z.of_nat (List.length items) ->
  NoDup (List.map ins_key (items ++ [last])) ->
  (forall x, In x items -> ins_key x <> "") ->
  5 * estimateSize (ins_html last) <= maxMem ->
  totalSize (items ++ [last]) <= maxMem ->
  (2 <= fuel)%nat ->
  exists pre victim post,
    items = pre ++ victim :: post
    /\ (forall x, In x pre -> ins_now victim < ins_now x)
    /\ (forall x, In x post -> ins_now victim <= ins_now x)
    /\ set fuel (ins_key last) (ins_html last) (ins_now last)
         (mkCache (List.map entryOf items) n ttl0 maxMem (totalSize items))
       = Some (mkCache (List.map entryOf (pre ++ post ++ [last])) n ttl0
                 maxMem
                 (totalSize items - estimateSize (ins_html victim)
                  + estimateSize (ins_html last))).
Proof.
  intros Hne Hn Hnd Hkeys Hshare Htotal Hfuel.
  set (c1 := mkCache (List.map entryOf items) n ttl0 maxMem (totalSize items)).
  rewrite map_app in Hnd. simpl in Hnd.
  assert (NoDup (keys (cache c1))) as Hnd1.
  { simpl. rewrite keys_entryOf. eapply NoDup_app_remove_r. exact Hnd. }
  assert (cache c1 <> []) as Hne1.
  { simpl. destruct items; [congruence | discriminate]. }
  destruct (evict_least_recent c1 Hne1 Hnd1)
    as (pre & k & e & post & Hsplit & [Hpre Hpost] & Hev & _).
  simpl in Hsplit.
  apply map_eq_app in Hsplit as (ipre & irest & Hitems & Hmpre & Hmrest).
  apply map_eq_cons in Hmrest as (victim & ipost & Hrest & Hvic & Hmpost).
  subst irest. exists ipre, victim, ipost.
  assert (k = ins_key victim /\ lastAccess e = ins_now victim
          /\ html e = ins_html victim) as (Hk & Hla & Hhtml).
  { unfold entryOf in Hvic. injection Hvic as <- <-. auto. }
  split; [exact Hitems |]. split; [| split].
  - intros x Hx. rewrite <- Hla.
    apply (Hpre (entryOf x)). rewrite <- Hmpre. now apply in_map.
  - intros x Hx. rewrite <- Hla.
    apply (Hpost (entryOf x)). rewrite <- Hmpost. now apply in_map.
  - assert (k <> "") as Hknz.
    { rewrite Hk. apply Hkeys. rewrite Hitems. apply in_or_app. right.
      now left. }
    specialize (Hev Hknz).
    unfold set. rewrite overShare_Z.
    destruct (maxMemorySize c1 <? 5 * estimateSize (ins_html last)) eqn:Eo.
    { apply Z.ltb_lt in Eo. change (maxMemorySize c1) with maxMem in Eo.
      lia. }
    destruct fuel as [| [| fuel]]; try lia.
    assert (noRoom (estimateSize (ins_html last)) c1 = true) as En1.
    { unfold noRoom, map_size. simpl. rewrite length_map.
      apply orb_true_iff. left. apply Z.leb_le. lia. }
    assert ((map_size (cache c1) =? 0) = false) as E0.
    { unfold map_size. simpl. rewrite length_map. apply Z.eqb_neq.
      destruct items; [congruence | simpl; lia]. }
    cbn [setLoop]. rewrite En1, E0, Hev.
    assert (List.length items
            = S (List.length ipre + List.length ipost))%nat as Hlen.
    { rewrite Hitems, length_app. simpl. lia. }
    assert (totalSize items
            = totalSize ipre + estimateSize (ins_html victim)
              + totalSize ipost) as Hsum.
    { rewrite Hitems, totalSize_app. simpl. lia. }
    rewrite totalSize_app in Htotal. simpl in Htotal.
    pose proof (estimateSize_pos (ins_html victim)) as Hvpos.
    match goal with
    | |- context [noRoom ?h ?c2] =>
        assert (noRoom h c2 = false) as En2
    end.
    { unfold noRoom, map_size. cbn [cache maxSize maxMemorySize
        currentMemorySize with_cache with_memory c1].
      rewrite <- Hmpre, <- Hmpost, length_app, !length_map, Hhtml.
      apply orb_false_iff. split.
      - apply Z.leb_gt. lia.
      - apply Z.ltb_ge. lia. }
    rewrite En2. f_equal. unfold store.
    cbn [cache maxSize ttl maxMemorySize currentMemorySize with_cache
           with_memory c1].
    assert (~ In (ins_key last) (keys (pre ++ post))) as Hfresh.
    { rewrite <- Hmpre, <- Hmpost, <- map_app, keys_entryOf.
      intros Hin. apply NoDup_remove_2 in Hnd. apply Hnd.
      rewrite app_nil_r, Hitems, map_app. simpl.
      rewrite map_app in Hin. apply in_app_or in Hin.
      apply in_or_app. destruct Hin; [now left | right; now right]. }
    assert (map_get (ins_key last) (pre ++ post) = None) as Hg.
    { destruct (map_get (ins_key last) (pre ++ post)) eqn:E;
        [| reflexivity].
      apply map_get_some_in_keys in E. contradiction. }
    rewrite Hg, map_set_fresh by exact Hfresh.
    rewrite <- Hmpre, <- Hmpost, Hhtml.
    rewrite !map_app. simpl. rewrite app_assoc. reflexivity.
Qed.

(** C3 as stated fails: with [maxSize] 9 and a ceiling of 1000 bytes, ten
    distinct keys whose entries are each within the per-entry limit leave
    eight entries, because the memory ceiling is reached before the count
    is. *)
Lemma C3_memory_ceiling_binds_first :
  NoDup (List.map ins_key tenInsertions)
  /\ forallb
       (fun x =>
          5 * estimateSize (ins_html x) <=? maxMemorySize (new nineEntries))
       tenInsertions = true
  /\ Z.of_nat (List.length tenInsertions) = maxSize (new nineEntries) + 1
  /\ exists c,
       run 3 (List.map setOp tenInsertions) (new nineEntries) = Some c
       /\ size (getStats c) = 8
       /\ stats_maxSize (getStats c) = 9.
Proof.
  split.
  - vm_compute. repeat constructor; simpl; intuition discriminate.
  - split; [vm_compute; reflexivity |].
    split; [vm_compute; reflexivity |].
    eexists. split; [vm_compute; reflexivity |].
    split; reflexivity.
Qed.

(** C3, amended.  Into a freshly constructed cache with [maxSize] at least
    1, insert [maxSize + 1] distinct keys, none the empty string, each
    entry within the per-entry limit and all of them together within the
    memory ceiling.  Exactly [maxSize] entries are left; the one evicted is
    the entry with the least [lastAccess], and among entries with that same
    timestamp the one inserted first, which is the first in the iteration
    order of the map. *)
Theorem C3_entry_count_ceiling (options : RenderCacheOptions) (fuel : nat)
    (items : list Insertion) (last : Insertion) :
  items <> [] ->
  maxSize (new options) = Z.of_nat (List.length items) ->
  NoDup (List.map ins_key (items ++ [last])) ->
  (forall x, In x (items ++ [last]) -> ins_key x <> "") ->
  (forall x, In x (items ++ [last]) ->
     5 * estimateSize (ins_html x) <= maxMemorySize (new options)) ->
  totalSize (items ++ [last]) <= maxMemorySize (new options) ->
  (2 <= fuel)%nat ->
  exists c pre victim post,
    run fuel (List.map setOp (items ++ [last])) (new options) = Some c
    /\ items = pre ++ victim :: post
    /\ (forall x, In x pre -> ins_now victim < ins_now x)
    /\ (forall x, In x post -> ins_now victim <= ins_now x)
    /\ cache c = List.map entryOf (pre ++ post ++ [last])
    /\ size (getStats c) = stats_maxSize (getStats c).
Proof.
  intros Hne Hn Hnd Hkeys Hshare Htotal Hfuel.
  rewrite map_app, run_app.
  pose proof (totalSize_nonneg [last]) as Hlast.
  rewrite run_fill.
  - cbn [List.map run apply setOp].
    destruct (set_on_full fuel items last (maxSize (new options))
                (ttl (new options)) (maxMemorySize (new options)))
      as (pre & victim & post & Hitems & Hpre & Hpost & Hset); auto.
    { intros x Hx. apply Hkeys. apply in_or_app. now left. }
    { apply Hshare. apply in_or_app. right. now left. }
    cbn [cache new app currentMemorySize Z.add].
    rewrite Hset.
    eexists _, pre, victim, post.
    split; [reflexivity |]. split; [exact Hitems |].
    split; [exact Hpre |]. split; [exact Hpost |].
    split; [reflexivity |].
    cbn [size getStats cache stats_maxSize RenderCache.maxSize].
    unfold map_size. rewrite length_map, Hn. f_equal.
    rewrite Hitems. repeat (rewrite length_app; simpl). lia.
  - lia.
  - intros x Hx. apply Hshare. apply in_or_app. now left.
  - rewrite Hn. unfold map_size. cbn [cache new List.length]. lia.
  - cbn [currentMemorySize new]. rewrite totalSize_app in Htotal. lia.
  - cbn [cache new keys List.map app]. rewrite map_app in Hnd.
    eapply NoDup_app_remove_r. exact Hnd.
Qed.

End EvictionClaims.

Section MoreCacheClaims.

Import RenderCache CacheSpec Scenario.

Lemma C3_entry_count_ceiling_witness :
  exists c pre victim post,
    run 2 (List.map setOp (firstTwo ++ [third])) (new twoEntries) = Some c
    /\ firstTwo = pre ++ victim :: post
    /\ (forall x, In x pre -> ins_now victim < ins_now x)
    /\ (forall x, In x post -> ins_now victim <= ins_now x)
    /\ cache c = List.map entryOf (pre ++ post ++ [third])
    /\ size (getStats c) = stats_maxSize (getStats c).
Proof.
  apply (C3_entry_count_ceiling twoEntries 2 firstTwo third).
  - discriminate.
  - reflexivity.
  - vm_compute. repeat constructor; simpl; intuition discriminate.
  - simpl. intros x [<- | [<- | [<- | []]]]; discriminate.
  - simpl. intros x [<- | [<- | [<- | []]]]; vm_compute; discriminate.
  - vm_compute. discriminate.
  - lia.
Defined.

(** A state in which the loop of [set] finds no room, the cache is not
    empty and the eviction changes nothing is never left. *)
Lemma setLoop_stuck (htmlSize : Z) (c : t) :
  noRoom htmlSize c = true ->
  (map_size (cache c) =? 0) = false ->
  evictLeastRecentlyUsed c = c ->
  forall fuel, setLoop fuel htmlSize c = None.
Proof.
  intros Hn H0 He fuel. induction fuel as [| fuel IH]; simpl;
    [reflexivity |].
  rewrite Hn, H0, He. exact IH.
Qed.

(** C9.  The code does not do what the claim asks: after
    [new RenderCache({ maxSize: 1 })] and [set('', 'a')], the call
    [set('k', 'b')] finds the cache full, the least recently used key is
    the empty string, [evictLeastRecentlyUsed] takes it for no key and
    removes nothing, and the loop is not left within any number of
    turns. *)
Theorem C9_set_does_not_return :
  set 1 "" "a" 0 (new oneEntry) = Some emptyKeyCache
  /\ evictLeastRecentlyUsed emptyKeyCache = emptyKeyCache
  /\ forall fuel, set fuel "k" "b" 1 emptyKeyCache = None.
Proof.
  split; [vm_compute; reflexivity |].
  split; [vm_compute; reflexivity |].
  intros fuel. unfold set.
  replace (overShare (estimateSize "b") (maxMemorySize emptyKeyCache))
    with false by (vm_compute; reflexivity).
  rewrite setLoop_stuck; vm_compute; reflexivity.
Qed.

(** Away from that defect [set] returns: with no empty-string key among
    the entries, as many turns as entries plus one are enough. *)
Lemma set_returns (fuel : nat) (key html : string) (now : Z) (c : t) :
  noEmptyKey (cache c) -> (List.length (cache c) < fuel)%nat ->
  exists c', set fuel key html now c = Some c'.
Proof.
  intros Hk Hf. unfold set. destruct (overShare _ _); [eauto |].
  destruct (setLoop_total fuel (estimateSize html) c Hk Hf) as [[c1 | c1] ->];
    eauto.
Qed.

(** C10, first half: [get] and [has] never change the memory total, also
    when they remove an entry that is past its time to live. *)
Lemma get_has_keep_memory (key : string) (now : Z) (c : t) :
  currentMemorySize (snd (get key now c)) = currentMemorySize c
  /\ currentMemorySize (snd (has key now c)) = currentMemorySize c.
Proof.
  unfold get, has.
  destruct (map_get key (cache c)) as [e |]; [| split; reflexivity].
  destruct (expired c now e); split; reflexivity.
Qed.

Lemma lazy_removal (key : string) (now : Z) (c : t) (e : CacheEntry) :
  map_get key (cache c) = Some e -> expired c now e = true ->
  get key now c = (None, with_cache c (map_delete key (cache c)))
  /\ has key now c = (false, with_cache c (map_delete key (cache c))).
Proof.
  intros Hg He. unfold get, has. rewrite Hg, He. split; reflexivity.
Qed.

(** C10 as stated fails: on a cache reached from a fresh one, a [set] on a
    key that is present, with room to spare and so without any eviction,
    lowers the memory total. *)
Lemma C10_overwrite_subtracts :
  ~ (forall (options : RenderCacheOptions) (fuel : nat) (ops : list Op)
            (o : Op) (c c' : t),
        run fuel ops (new options) = Some c ->
        apply fuel o c = Some c' ->
        currentMemorySize c' < currentMemorySize c ->
        listedSubtractor o c).
Proof.
  intros H.
  specialize (H defaults 1%nat [OpSet "k" "aaaa" 0] (OpSet "k" "" 1)
                afterOneSet
                (mkCache [("k", mkEntry "" 1 1 1)] 100 300000 52428800 100)).
  assert (noRoom (estimateSize "") afterOneSet = true) as Hn.
  { apply H; vm_compute; reflexivity. }
  vm_compute in Hn. discriminate.
Qed.

(** C10, amended.  When [get] or [has] removes an entry that is past its
    time to live, the memory total stays as it was, and no call of [get] or
    [has] ever changes it.  The calls that lower the total are [delete],
    [clear], [cleanExpired] and [set]; a [set] lowers it only by evicting
    for lack of room or by replacing the entry of a key that is present. *)
Theorem C10_memory_total_frame :
  (forall (key : string) (now : Z) (c : t),
      currentMemorySize (snd (get key now c)) = currentMemorySize c
      /\ currentMemorySize (snd (has key now c)) = currentMemorySize c)
  /\ (forall (key : string) (now : Z) (c : t) (e : CacheEntry),
        map_get key (cache c) = Some e -> expired c now e = true ->
        cache (snd (get key now c)) = map_delete key (cache c)
        /\ cache (snd (has key now c)) = map_delete key (cache c)
        /\ entriesSize (map_delete key (cache c))
           = entriesSize (cache c) - estimateSize (html e))
  /\ (forall (fuel : nat) (o : Op) (c c' : t),
        apply fuel o c = Some c' ->
        currentMemorySize c' < currentMemorySize c ->
        subtractor o c).
Proof.
  split; [exact get_has_keep_memory |]. split.
  - intros key now c e Hg He.
    destruct (lazy_removal key now c e Hg He) as [-> ->].
    rewrite entriesSize_delete, Hg. auto.
  - intros fuel o c c' Ha Hlt.
    destruct o as [key page now | key now | key now | key | | now];
      simpl in *; auto.
    + unfold set in Ha. destruct (overShare _ _); [injection Ha as <-; lia |].
      destruct (noRoom (estimateSize page) c) eqn:En; [now left | right].
      destruct fuel as [| fuel]; [discriminate |].
      simpl in Ha. rewrite En in Ha. injection Ha as <-.
      unfold store, map_has in *. simpl in Hlt.
      destruct (map_get key (cache c)); [reflexivity |].
      pose proof (estimateSize_pos page). lia.
    + injection Ha as <-.
      destruct (get_has_keep_memory key now c) as [Hg _]. lia.
    + injection Ha as <-.
      destruct (get_has_keep_memory key now c) as [_ Hh]. lia.
Qed.

Lemma C10_memory_total_frame_witness :
  (cache (snd (get "k" staleClock afterOneSet)) = []
   /\ currentMemorySize (snd (get "k" staleClock afterOneSet)) = 108)
  /\ subtractor (OpSet "k" "" 1) afterOneSet.
Proof.
  destruct C10_memory_total_frame as (Hkeep & Hlazy & Hsub). split.
  - destruct (Hlazy "k" staleClock afterOneSet (mkEntry "aaaa" 0 1 0))
      as (Hc & _ & _); [reflexivity | reflexivity |].
    split; [exact Hc |].
    destruct (Hkeep "k" staleClock afterOneSet) as [Hg _]. exact Hg.
  - apply (Hsub 1%nat (OpSet "k" "" 1) afterOneSet
             (mkCache [("k", mkEntry "" 1 1 1)] 100 300000 52428800 100)).
    + vm_compute. reflexivity.
    + vm_compute. reflexivity.
Defined.

End MoreCacheClaims.

(** * Rounding to binary64 *)

Section Float64Facts.

Import Float64.

Lemma roundHalfEven_le (y : Q) (k : Z) :
  (y <= inject_Z k)%Q -> roundHalfEven y <= k.
Proof.
  intros Hy. unfold roundHalfEven.
  pose proof (Qfloor_resp_le _ _ Hy) as Hf. rewrite Qfloor_Z in Hf.
  destruct (Z.eq_dec (Qfloor y) k) as [He | Hne].
  - assert (y - inject_Z (Qfloor y) == 0)%Q as H0.
    { rewrite He. apply Qle_antisym.
      - apply (Qplus_le_l _ _ (inject_Z k)). ring_simplify. exact Hy.
      - apply (Qplus_le_l _ _ (inject_Z k)). ring_simplify.
        rewrite <- He. apply Qfloor_le. }
    assert ((y - inject_Z (Qfloor y) ?= 1 # 2)%Q = Lt) as ->.
    { apply (proj1 (Qlt_alt _ _)). rewrite H0. reflexivity. }
    lia.
  - destruct (y - inject_Z (Qfloor y) ?= 1 # 2)%Q; [| lia | lia].
    destruct (Z.even (Qfloor y)); lia.
Qed.

Lemma roundHalfEven_nonneg (y : Q) : (0 <= y)%Q -> 0 <= roundHalfEven y.
Proof.
  intros Hy. unfold roundHalfEven.
  pose proof (Qfloor_resp_le _ _ Hy) as Hf. change (Qfloor 0) with 0 in Hf.
  destruct (y - inject_Z (Qfloor y) ?= 1 # 2)%Q; [| lia | lia].
  destruct (Z.even (Qfloor y)); lia.
Qed.

Lemma roundHalfEven_integer (y : Q) (k : Z) :
  (y == inject_Z k)%Q -> roundHalfEven y = k.
Proof.
  intros Hy. unfold roundHalfEven.
  assert (Qfloor y = k) as -> by (rewrite Hy; apply Qfloor_Z).
  assert ((y - inject_Z k ?= 1 # 2)%Q = Lt) as ->; [| reflexivity].
  apply (proj1 (Qlt_alt _ _)).
  assert (y - inject_Z k == 0)%Q as -> by (rewrite Hy; ring).
  reflexivity.
Qed.

Lemma pow2_pos (k : Z) : (0 < pow2 k)%Q.
Proof. unfold pow2. apply Qpower_0_lt. reflexivity. Qed.

Lemma pow2_inverse (k : Z) : (pow2 (- k) * pow2 k == 1)%Q.
Proof.
  unfold pow2. rewrite <- Qpower_plus by discriminate.
  replace (- k + k) with 0 by lia. reflexivity.
Qed.

Lemma pow2_Z (k : Z) : 0 <= k -> (pow2 k == inject_Z (2 ^ k))%Q.
Proof. intros Hk. unfold pow2. rewrite Zpower_Qpower by exact Hk. reflexivity. Qed.

Lemma ilog2_small (x : Q) (m : Z) :
  (0 < x)%Q -> (x <= inject_Z m)%Q -> m < 2 ^ 53 -> ilog2 x <= 52.
Proof.
  intros Hx Hm Hlt. unfold ilog2.
  destruct (Qle_bool 1 x) eqn:E.
  - apply Qle_bool_iff in E.
    pose proof (Qfloor_resp_le _ _ E) as H1. change (Qfloor 1) with 1 in H1.
    pose proof (Qfloor_resp_le _ _ Hm) as H2. rewrite Qfloor_Z in H2.
    assert (Z.log2 (Qfloor x) < 53); [| lia].
    apply Z.log2_lt_pow2; lia.
  - pose proof (Z.log2_up_nonneg (Qceiling (/ x))). lia.
Qed.

Lemma exponent_small (x : Q) (m : Z) :
  (0 < x)%Q -> (x <= inject_Z m)%Q -> m < 2 ^ 53 -> exponent x <= 0.
Proof.
  intros Hx Hm Hlt. unfold exponent.
  pose proof (ilog2_small x m Hx Hm Hlt). lia.
Qed.

(** Rounding does not carry a value past an integer below [2^53] that
    bounds it. *)
Lemma nearest_le (x : Q) (m : Z) :
  (0 < x)%Q -> (x <= inject_Z m)%Q -> m < 2 ^ 53 ->
  (0 <= nearest x)%Q /\ (nearest x <= inject_Z m)%Q.
Proof.
  intros Hx Hm Hlt.
  pose proof (exponent_small x m Hx Hm Hlt) as He.
  unfold nearest. set (e := exponent x) in *.
  assert (inject_Z m * pow2 (- e) == inject_Z (m * 2 ^ (- e)))%Q as HK.
  { rewrite inject_Z_mult, pow2_Z by lia. reflexivity. }
  assert (x * pow2 (- e) <= inject_Z (m * 2 ^ (- e)))%Q as Hle.
  { rewrite <- HK. apply Qmult_le_compat_r; [exact Hm |].
    apply Qlt_le_weak. apply pow2_pos. }
  split.
  - apply Qmult_le_0_compat; [| apply Qlt_le_weak; apply pow2_pos].
    change 0%Q with (inject_Z 0). rewrite <- Zle_Qle.
    apply roundHalfEven_nonneg. apply Qmult_le_0_compat.
    + apply Qlt_le_weak. exact Hx.
    + apply Qlt_le_weak. apply pow2_pos.
  - apply Qle_trans with (inject_Z (m * 2 ^ (- e)) * pow2 e)%Q.
    + apply Qmult_le_compat_r; [| apply Qlt_le_weak; apply pow2_pos].
      rewrite <- Zle_Qle. apply roundHalfEven_le. exact Hle.
    + rewrite <- HK, <- Qmult_assoc, pow2_inverse, Qmult_1_r.
      apply Qle_refl.
Qed.

(** An integer below [2^53] is a binary64 value. *)
Lemma nearest_integer (x : Q) (m : Z) :
  (x == inject_Z m)%Q -> 0 < m < 2 ^ 53 -> (nearest x == inject_Z m)%Q.
Proof.
  intros Hx [H0 Hlt].
  assert (0 < x)%Q as Hpos.
  { rewrite Hx. change 0%Q with (inject_Z 0). rewrite <- Zlt_Qlt. exact H0. }
  assert (x <= inject_Z m)%Q as Hm by (rewrite Hx; apply Qle_refl).
  pose proof (exponent_small x m Hpos Hm Hlt) as He.
  unfold nearest. set (e := exponent x) in *.
  assert (x * pow2 (- e) == inject_Z (m * 2 ^ (- e)))%Q as HK.
  { rewrite Hx, inject_Z_mult, pow2_Z by lia. reflexivity. }
  rewrite (roundHalfEven_integer _ _ HK).
  rewrite inject_Z_mult, <- pow2_Z by lia.
  rewrite <- Qmult_assoc, pow2_inverse, Qmult_1_r. reflexivity.
Qed.

Lemma pow2_1024_large (y : Q) (m : Z) :
  (y <= inject_Z m)%Q -> m < 2 ^ 53 -> Qle_bool (pow2 1024) y = false.
Proof.
  intros Hy Hm.
  destruct (Qle_bool (pow2 1024) y) eqn:E; [| reflexivity].
  exfalso. apply Qle_bool_iff in E.
  rewrite pow2_Z in E by lia.
  assert (inject_Z (2 ^ 1024) <= inject_Z m)%Q as H
    by (eapply Qle_trans; eassumption).
  rewrite <- Zle_Qle in H.
  assert (2 ^ 53 < 2 ^ 1024) by (apply Z.pow_lt_mono_r; lia). lia.
Qed.

(** The rounded value of a non-negative quantity bounded by an integer
    below [2^53] is finite and within the same bounds. *)
Lemma round_bounded (x : Q) (m : Z) :
  (0 <= x)%Q -> (x <= inject_Z m)%Q -> m < 2 ^ 53 ->
  exists y, round x = Finite y /\ (0 <= y)%Q /\ (y <= inject_Z m)%Q.
Proof.
  intros H0 Hm Hlt. unfold round.
  destruct (x ?= 0)%Q eqn:E.
  - exists 0%Q. split; [reflexivity |]. split; [apply Qle_refl |].
    apply Qeq_alt in E. rewrite <- E. exact Hm.
  - exfalso. apply Qlt_alt in E. apply (Qlt_not_le _ _ E H0).
  - apply Qgt_alt in E.
    destruct (nearest_le x m E Hm Hlt) as [Hlo Hhi].
    rewrite (pow2_1024_large _ _ Hhi Hlt).
    exists (nearest x). auto.
Qed.

Lemma round_integer (x : Q) (m : Z) :
  (x == inject_Z m)%Q -> 0 <= m < 2 ^ 53 ->
  exists y, round x = Finite y /\ (y == inject_Z m)%Q.
Proof.
  intros Hx [H0 Hlt]. unfold round.
  destruct (x ?= 0)%Q eqn:E.
  - exists 0%Q. split; [reflexivity |].
    apply Qeq_alt in E. rewrite <- Hx, E. reflexivity.
  - exfalso. apply Qlt_alt in E. rewrite Hx in E.
    change 0%Q with (inject_Z 0) in E. rewrite <- Zlt_Qlt in E. lia.
  - apply Qgt_alt in E.
    assert (0 < m) as Hpos.
    { rewrite Hx in E. change 0%Q with (inject_Z 0) in E.
      rewrite <- Zlt_Qlt in E. exact E. }
    pose proof (nearest_integer x m Hx (conj Hpos Hlt)) as Hn.
    rewrite (pow2_1024_large (nearest x) m);
      [| rewrite Hn; apply Qle_refl | exact Hlt].
    exists (nearest x). auto.
Qed.

End Float64Facts.

(** * Scroll synchronisation: the claims *)

Section ScrollClaims.

Import ScrollSpec.

Lemma clampTo_range (hi x : Q) :
  (0 <= hi)%Q -> (0 <= clampTo hi x)%Q /\ (clampTo hi x <= hi)%Q.
Proof.
  intros Hhi. unfold clampTo.
  destruct (Qle_bool x 0) eqn:E0.
  - split; [apply Qle_refl | exact Hhi].
  - destruct (Qle_bool hi x) eqn:E1.
    + split; [exact Hhi | apply Qle_refl].
    + split.
      * apply Qlt_le_weak. apply Qnot_le_lt. intros H.
        apply Qle_bool_iff in H. congruence.
      * apply Qlt_le_weak. apply Qnot_le_lt. intros H.
        apply Qle_bool_iff in H. congruence.
Qed.

(** [Math.max(0, Math.min(x, hi))] is the clamp of [x] to the range from 0
    to [hi]. *)
Lemma max_min_clamp (hi x : Q) :
  (0 <= hi)%Q -> (Qmax 0 (Qmin x hi) == clampTo hi x)%Q.
Proof.
  intros Hhi. unfold clampTo.
  destruct (Qle_bool x 0) eqn:E0.
  - apply Qle_bool_iff in E0. apply Q.max_l.
    apply Qle_trans with x; [apply Q.le_min_l | exact E0].
  - assert (0 < x)%Q as Hx.
    { apply Qnot_le_lt. intros H. apply Qle_bool_iff in H. congruence. }
    destruct (Qle_bool hi x) eqn:E1.
    + apply Qle_bool_iff in E1.
      rewrite (Q.min_r x hi) by exact E1. apply Q.max_r. exact Hhi.
    + assert (x < hi)%Q as Hlt.
      { apply Qnot_le_lt. intros H. apply Qle_bool_iff in H. congruence. }
      rewrite (Q.min_l x hi) by (apply Qlt_le_weak; exact Hlt).
      apply Q.max_r. apply Qlt_le_weak. exact Hx.
Qed.

End ScrollClaims.

Section SurfaceScrollClaims.

Import ScrollSpec.

Lemma sameNumber_finite (x : Float64.Number) (b : Q) :
  sameNumber x (Float64.Finite b) ->
  exists a, x = Float64.Finite a /\ (a == b)%Q.
Proof.
  destruct x as [a | | neg]; simpl; [| contradiction | contradiction].
  intros H. exists a. auto.
Qed.

(** [Math.max(0, Math.min(x, hi))] on numbers: the clamp of [x] to the
    range from 0 to [hi], and [NaN] for [NaN]. *)
Lemma clamp_number (hi : Q) (x : Float64.Number) :
  (0 <= hi)%Q ->
  sameNumber
    (Float64.max (Float64.Finite 0) (Float64.min x (Float64.Finite hi)))
    (clampNumber hi x).
Proof.
  intros Hhi. destruct x as [q | | [|]]; simpl.
  - pose proof (max_min_clamp hi q Hhi) as Hc.
    destruct (Qle_bool q hi) eqn:E1; simpl.
    + apply Qle_bool_iff in E1. rewrite (Q.min_l q hi E1) in Hc.
      destruct (Qle_bool q 0) eqn:E2; simpl.
      * apply Qle_bool_iff in E2. rewrite (Q.max_l 0 q E2) in Hc. exact Hc.
      * assert (0 <= q)%Q as H0.
        { apply Qlt_le_weak. apply Qnot_le_lt. intros H.
          apply Qle_bool_iff in H. congruence. }
        rewrite (Q.max_r 0 q H0) in Hc. exact Hc.
    + assert (hi <= q)%Q as H1.
      { apply Qlt_le_weak. apply Qnot_le_lt. intros H.
        apply Qle_bool_iff in H. congruence. }
      rewrite (Q.min_r q hi H1) in Hc.
      rewrite (Q.max_r 0 hi Hhi) in Hc.
      destruct (Qle_bool hi 0) eqn:E2; simpl.
      * apply Qle_bool_iff in E2. rewrite <- Hc.
        apply Qle_antisym; assumption.
      * exact Hc.
  - exact I.
  - apply Qeq_refl.
  - destruct (Qle_bool hi 0) eqn:E; simpl; [| apply Qeq_refl].
    apply Qle_bool_iff in E. apply Qle_antisym; assumption.
Qed.

(** C5 as stated fails.  The product is a binary64 product: for the
    fraction the surface sends from position 500 of 1500, the double
    nearest to one third, and a document of 4 lines, the code reveals line
    1, where the floor of the fraction times 3 is 0.  And a [NaN] fraction,
    which is a number for the validator, is revealed as it is, in no
    range. *)
Lemma C5_product_is_rounded :
  sameNumber (Float64.round (500 / 1500)) (Float64.Finite third)
  /\ snd (ScrollSync.handleWebviewScroll env4 0 (Float64.Finite third) None
            (ScrollSync.new "doc"))
     = [ScrollSync.RevealRange (Float64.Finite 1)]
  /\ (requestedLine third None 4 == 0)%Q
  /\ snd (ScrollSync.handleWebviewScroll env101 0 Float64.NaN None
            (ScrollSync.new "doc"))
     = [ScrollSync.RevealRange Float64.NaN].
Proof.
  split; [vm_compute; reflexivity |].
  split; [vm_compute; reflexivity |].
  split; vm_compute; reflexivity.
Qed.

(** C5, amended.  A surface-side scroll that is handled (the tracked
    editor is active, synchronisation is on, no source scroll is being
    debounced) moves the source view, top-aligned, to one line:
    [max(0, min(x, totalLines - 1))], where [x] is the supplied line when
    there is one, else the floor of the binary64 product of the fraction
    and [totalLines - 1].  When [x] is not [NaN] the line is [x] clamped to
    the range from 0 to [totalLines - 1]; a [NaN] is passed on as it is.
    Whenever the exact product is itself a binary64 value, the line is the
    floor of the exact product: fraction one half on a document of 101
    lines gives line 50. *)
Theorem C5_surface_scroll_target :
  (forall (env : ScrollSync.Env) (now : Z) (percent : Float64.Number)
          (line : option Float64.Number) (s : ScrollSync.t)
          (editor : ScrollSync.Editor),
      ScrollSync.tracked env s = Some editor ->
      ScrollSync.enableScrollSync env = true ->
      ScrollSync.isScrollingFromEditor s = false ->
      1 <= ScrollSync.lineCount editor ->
      exists target,
        snd (ScrollSync.handleWebviewScroll env now percent line s)
        = [ScrollSync.RevealRange target]
        /\ sameNumber target
             (clampNumber (inject_Z (ScrollSync.lineCount editor - 1))
                (requestedNumber percent line (ScrollSync.lineCount editor)))
        /\ (requestedNumber percent line (ScrollSync.lineCount editor)
            = Float64.NaN -> target = Float64.NaN)
        /\ (requestedNumber percent line (ScrollSync.lineCount editor)
            <> Float64.NaN ->
            exists t,
              target = Float64.Finite t /\ (0 <= t)%Q
              /\ (t <= inject_Z (ScrollSync.lineCount editor - 1))%Q))
  /\ (forall (p : Q) (totalLines : Z) (x : Q),
        Float64.round (p * inject_Z (totalLines - 1)) = Float64.Finite x ->
        (x == p * inject_Z (totalLines - 1))%Q ->
        sameNumber (requestedNumber (Float64.Finite p) None totalLines)
          (Float64.Finite (requestedLine p None totalLines)))
  /\ snd (ScrollSync.handleWebviewScroll env101 0 (Float64.Finite (1 # 2))
            None (ScrollSync.new "doc"))
     = [ScrollSync.RevealRange (Float64.Finite 50)].
Proof.
  split; [| split; [| vm_compute; reflexivity]].
  - intros env now percent line s editor Ht He Hf Hn.
    assert (0 <= inject_Z (ScrollSync.lineCount editor - 1))%Q as Hhi.
    { unfold Qle. simpl. lia. }
    exists (ScrollSync.targetLine percent line (ScrollSync.lineCount editor)).
    split.
    { unfold ScrollSync.handleWebviewScroll. rewrite Ht, He, Hf. reflexivity. }
    pose proof (clamp_number (inject_Z (ScrollSync.lineCount editor - 1))
                  (requestedNumber percent line (ScrollSync.lineCount editor))
                  Hhi) as Hc.
    change (Float64.max (Float64.Finite 0)
              (Float64.min
                 (requestedNumber percent line (ScrollSync.lineCount editor))
                 (Float64.Finite (inject_Z (ScrollSync.lineCount editor - 1)))))
      with (ScrollSync.targetLine percent line (ScrollSync.lineCount editor))
      in Hc.
    split; [exact Hc |]. split.
    + intros Hnan. rewrite Hnan in Hc. simpl in Hc.
      destruct (ScrollSync.targetLine percent line
                  (ScrollSync.lineCount editor)); simpl in Hc;
        [contradiction | reflexivity | contradiction].
    + intros Hnum.
      destruct (requestedNumber percent line (ScrollSync.lineCount editor))
        as [q | | neg]; [| congruence |]; simpl in Hc;
        apply sameNumber_finite in Hc as (t & -> & Ht').
      * exists t. split; [reflexivity |]. rewrite Ht'.
        apply clampTo_range. exact Hhi.
      * exists t. split; [reflexivity |]. rewrite Ht'.
        destruct neg; split; try apply Qle_refl; exact Hhi.
  - intros p totalLines x Hr Hx. unfold requestedNumber, requestedLine.
    unfold Float64.mul, Float64.ofZ. rewrite Hr. simpl.
    rewrite Hx. reflexivity.
Qed.

Lemma C5_surface_scroll_target_witness :
  exists target,
    snd (ScrollSync.handleWebviewScroll env101 260 (Float64.Finite (1 # 5))
           (Some (Float64.Finite 250)) (ScrollSync.new "doc"))
    = [ScrollSync.RevealRange target]
    /\ sameNumber target
         (clampNumber (inject_Z (ScrollSync.lineCount editor101 - 1))
            (requestedNumber (Float64.Finite (1 # 5))
               (Some (Float64.Finite 250)) (ScrollSync.lineCount editor101)))
    /\ (requestedNumber (Float64.Finite (1 # 5)) (Some (Float64.Finite 250))
          (ScrollSync.lineCount editor101)
        = Float64.NaN -> target = Float64.NaN)
    /\ (requestedNumber (Float64.Finite (1 # 5)) (Some (Float64.Finite 250))
          (ScrollSync.lineCount editor101)
        <> Float64.NaN ->
        exists t,
          target = Float64.Finite t /\ (0 <= t)%Q
          /\ (t <= inject_Z (ScrollSync.lineCount editor101 - 1))%Q).
Proof.
  apply (proj1 C5_surface_scroll_target env101 260 (Float64.Finite (1 # 5))
           (Some (Float64.Finite 250)) (ScrollSync.new "doc") editor101).
  - reflexivity.
  - reflexivity.
  - reflexivity.
  - simpl. lia.
Defined.

(** ** The echo of a source scroll on the surface *)

Lemma earliest_In {A : Type} (l : list (Timers.Timer A)) (x : Timers.Timer A) :
  Timers.earliest l = Some x -> In x l.
Proof.
  revert x. induction l as [| y l IH]; intros x; simpl; [discriminate |].
  destruct (Timers.earliest l) as [z |].
  - destruct (Timers.due z <? Timers.due y).
    + intros [= <-]. right. now apply IH.
    + intros [= <-]. now left.
  - intros [= <-]. now left.
Qed.

Lemma nextDue_In {A : Type} (now : Z) (tb : Timers.Table A)
    (x : Timers.Timer A) :
  Timers.nextDue now tb = Some x ->
  In x (Timers.pending tb) /\ Timers.due x <= now.
Proof.
  unfold Timers.nextDue.
  destruct (Timers.earliest (Timers.pending tb)) as [y |] eqn:E;
    [| discriminate].
  destruct (Timers.due y <=? now) eqn:Ed; [| discriminate].
  intros [= <-]. split; [now apply earliest_In | now apply Z.leb_le].
Qed.

(** While every pending callback that lifts the suppression is due later
    than [now], running the timers that are due leaves the flag set and
    posts nothing but what the debounce callbacks report. *)
Lemma advance_keeps_flag (fuel : nat) (now : Z) (s : Surface.t) :
  Surface.isScrollingFromEditor s = true ->
  (forall x, In x (Timers.pending (Surface.timers s)) ->
             Timers.action x = Surface.ResetScrollingFromEditor ->
             now < Timers.due x) ->
  Surface.isScrollingFromEditor (Surface.advance fuel now s) = true.
Proof.
  revert s. induction fuel as [| fuel IH]; intros s Hflag Hlate; simpl;
    [exact Hflag |].
  destruct (Timers.nextDue now (Surface.timers s)) as [x |] eqn:E;
    [| exact Hflag].
  destruct (nextDue_In _ _ _ E) as [Hin Hdue].
  apply IH.
  - unfold Surface.fire.
    destruct (Timers.action x) eqn:Ea; simpl; [exact Hflag |].
    specialize (Hlate x Hin Ea). lia.
  - intros y Hy Hay. apply Hlate; [| exact Hay].
    unfold Surface.fire in Hy.
    destruct (Timers.action x); simpl in Hy;
      apply filter_In in Hy as [Hy _]; exact Hy.
Qed.

(** A scroll event that finds the flag set changes nothing: no debounce
    timer is armed, so nothing is reported to the orchestrator. *)
Lemma onScroll_suppressed (now : Z) (s : Surface.t) :
  Surface.isScrollingFromEditor s = true -> Surface.onScroll now s = s.
Proof. intros H. unfold Surface.onScroll. now rewrite H. Qed.

(** When a [scrollFromEditor] message is applied at time [t] and no
    earlier callback that lifts the suppression is still pending, a scroll
    event arriving before [t + 150] is ignored. *)
Lemma isolated_echo_suppressed (t t' : Z) (percent line : Q) (s : Surface.t) :
  noResetPending s -> t <= t' < t + 150 ->
  let s' := Surface.runTimers t' (Surface.handleScrollFromEditor t percent line s) in
  Surface.handle t' Surface.EchoScroll s' = s'.
Proof.
  intros Hnone Ht s'. simpl. apply onScroll_suppressed.
  unfold s', Surface.runTimers. apply advance_keeps_flag.
  - reflexivity.
  - intros x Hx Hax. unfold Surface.handleScrollFromEditor in Hx.
    simpl in Hx. apply in_app_or in Hx as [Hx | [<- | []]].
    + exfalso. exact (Hnone x Hx Hax).
    + simpl. lia.
Qed.

(** C4.  The code does not do what the claim asks when two source scrolls
    follow each other closely.  The user scrolls the source view at -100
    and at 1 ms; the manager dispatches the two messages at 0 and at 101 ms
    and the surface applies them.  The callback armed by the first lifts
    the surface's flag at 150 ms; the scroll event caused by the second
    assignment arrives at 160 ms, 59 ms after the scroll it echoes, finds
    the flag lifted and is reported to the orchestrator at 260 ms, where
    [handleWebviewScroll] moves the source view a second time. *)
Theorem C4_echo_moves_source_again :
  snd (ScrollSync.runTimers (editorAt 20) 101
         (ScrollSync.run sourceScrolls (ScrollSync.new "doc", [])))
  = [ScrollSync.Post (Messages.ScrollFromEditorMessage (10 # 100) 10);
     ScrollSync.Post (Messages.ScrollFromEditorMessage (20 # 100) 20)]
  /\ Surface.isScrollingFromEditor
       (Surface.runTimers 160
          (Surface.run (firstn 2 echoTrace) surface0)) = false
  /\ exists percent,
       Surface.posted (Surface.runTimers 260 (Surface.run echoTrace surface0))
       = [Messages.JsObject [("type", Messages.JsString "scroll");
                             ("percent", Messages.JsNumber percent)]]
       /\ snd (ScrollSync.handleWebviewScroll (envAt 20) 260
                 (Float64.Finite percent) None
                 (fst (ScrollSync.runTimers (editorAt 20) 101
                         (ScrollSync.run sourceScrolls
                            (ScrollSync.new "doc", [])))))
          = [ScrollSync.RevealRange (Float64.Finite 20)].
Proof.
  split; [vm_compute; reflexivity |].
  split; [vm_compute; reflexivity |].
  eexists. split; [vm_compute; reflexivity | vm_compute; reflexivity].
Qed.

(** The same echo after the second message alone is ignored. *)
Lemma single_echo_reports_nothing :
  Surface.posted (Surface.runTimers 260 (Surface.run singleTrace surface0))
  = [].
Proof. vm_compute. reflexivity. Qed.

End SurfaceScrollClaims.

(** * The message protocol: the claims *)

Section MessageClaims.

Import Messages ProviderSpec.

Lemma isTag_true (v : JsValue) (label : string) :
  isTag v label = true <-> v = JsString label.
Proof.
  destruct v; simpl; split; try discriminate.
  - intros H. apply String.eqb_eq in H. now subst.
  - intros [= ->]. apply String.eqb_refl.
Qed.

Lemma isString_true (v : JsValue) :
  isString v = true <-> exists s, v = JsString s.
Proof.
  destruct v; simpl; split; try discriminate;
    try (intros [s' Hs]; discriminate); eauto.
Qed.

Lemma isNumber_true (v : JsValue) :
  isNumber v = true <-> exists q, v = JsNumber q.
Proof.
  destruct v; simpl; split; try discriminate;
    try (intros [q' Hq]; discriminate); eauto.
Qed.

Lemma isUndefined_true (v : JsValue) :
  isUndefined v = true <-> v = JsUndefined.
Proof. destruct v; simpl; split; try discriminate; auto. Qed.

(** The two tests at the head of each validator pass on objects only. *)
Lemma object_test (m : JsValue) :
  falsy m || negb (String.eqb (typeof m) "object") = false <-> isObject m.
Proof.
  unfold isObject. destruct m; simpl; split; try discriminate;
    try (intros [f Hf]; discriminate); eauto.
  - destruct b; discriminate.
  - destruct (Qeq_bool q 0); discriminate.
  - destruct (String.eqb s ""); discriminate.
Qed.

Ltac shape_fields :=
  repeat match goal with
         | H : _ && _ = true |- _ => apply andb_true_iff in H as [? ?]
         | H : _ || _ = true |- _ => apply orb_true_iff in H as [? | ?]
         | H : isString _ = true |- _ => apply isString_true in H
         | H : isNumber _ = true |- _ => apply isNumber_true in H
         | H : isUndefined _ = true |- _ => apply isUndefined_true in H
         end.

Ltac kind_known :=
  match goal with
  | Hk : ofKind _ _ |- _ => unfold ofKind in Hk; rewrite Hk; simpl
  end.

Ltac field_known :=
  repeat match goal with
         | H : hasString _ _ |- _ => destruct H as [? H]; rewrite H
         | H : hasNumber _ _ |- _ => destruct H as [? H]; rewrite H
         | H : prop _ _ = JsUndefined |- _ => rewrite H
         end.

(** The validator for messages to the surface accepts exactly the values
    with one of the four kinds and fields of the right primitive type. *)
Lemma toSurface_validator (m : JsValue) :
  isExtensionToWebviewMessage m = true <-> typeShapeToSurface m.
Proof.
  unfold isExtensionToWebviewMessage, typeShapeToSurface. split.
  - destruct (falsy m || negb (String.eqb (typeof m) "object")) eqn:Eo;
      [discriminate |].
    apply object_test in Eo. intros H. split; [exact Eo |].
    cbv zeta in H.
    destruct (isTag (prop "type" m) "update") eqn:E1;
      [apply isTag_true in E1; shape_fields; left; auto |].
    destruct (isTag (prop "type" m) "error") eqn:E2;
      [apply isTag_true in E2; shape_fields; right; left; auto |].
    destruct (isTag (prop "type" m) "scrollFromEditor") eqn:E3;
      [apply isTag_true in E3; shape_fields; right; right; left; auto |].
    destruct (isTag (prop "type" m) "config") eqn:E4;
      [apply isTag_true in E4; shape_fields; right; right; right; auto |].
    discriminate.
  - intros [Ho H]. apply object_test in Ho. rewrite Ho. cbv zeta.
    destruct H as [[Hk H] | [[Hk H] | [[Hk [H H']] | [Hk [H H']]]]];
      kind_known; field_known; reflexivity.
Qed.

(** The validator for messages to the orchestrator, likewise. *)
Lemma toOrchestrator_validator (m : JsValue) :
  isWebviewToExtensionMessage m = true <-> typeShapeToOrchestrator m.
Proof.
  unfold isWebviewToExtensionMessage, typeShapeToOrchestrator. split.
  - destruct (falsy m || negb (String.eqb (typeof m) "object")) eqn:Eo;
      [discriminate |].
    apply object_test in Eo. intros H. split; [exact Eo |].
    cbv zeta in H.
    destruct (isTag (prop "type" m) "ready") eqn:E1;
      [apply isTag_true in E1; left; auto |].
    destruct (isTag (prop "type" m) "scroll") eqn:E2;
      [apply isTag_true in E2; shape_fields; right; left; auto |].
    destruct (isTag (prop "type" m) "openExternal") eqn:E3;
      [apply isTag_true in E3; shape_fields; right; right; left; auto |].
    destruct (isTag (prop "type" m) "error") eqn:E4;
      [apply isTag_true in E4; shape_fields; do 3 right; left; auto |].
    destruct (isTag (prop "type" m) "changeMarkdownStyle") eqn:E5;
      [apply isTag_true in E5; shape_fields; do 4 right; left; auto |].
    destruct (isTag (prop "type" m) "changeCodeTheme") eqn:E6;
      [apply isTag_true in E6; shape_fields; do 5 right; auto |].
    discriminate.
  - intros [Ho H]. apply object_test in Ho. rewrite Ho. cbv zeta.
    destruct H as [Hk | [[Hk [H H']] | [[Hk H] | [[Hk H] | [[Hk H] | [Hk H]]]]]];
      kind_known; try reflexivity.
    + destruct H' as [H' | H']; field_known; reflexivity.
    + field_known; reflexivity.
    + field_known; reflexivity.
    + field_known; reflexivity.
    + field_known; reflexivity.
Qed.

(** Every message that [MessageSender] builds for the surface passes the
    validator. *)
Lemma sender_messages_valid (m : ExtensionToWebviewMessage) :
  isExtensionToWebviewMessage (toJs m) = true.
Proof. destruct m; reflexivity. Qed.

(** The validator for messages to the orchestrator does not ask for an
    integral [line] either. *)
Lemma scroll_line_not_checked :
  isWebviewToExtensionMessage (createScrollMessage (1 # 2) (Some (3 # 2)))
  = true
  /\ ~ tableShapeToOrchestrator
         (createScrollMessage (1 # 2) (Some (3 # 2))).
Proof.
  split; [reflexivity |].
  intros [_ H].
  destruct H as [Hk | [[_ [_ H]] | [[Hk _] | [[Hk _] | [[Hk _] | [Hk _]]]]]];
    try (vm_compute in Hk; discriminate).
  destruct H as [H | [l [Hl Hi]]]; [vm_compute in H; discriminate |].
  vm_compute in Hl. injection Hl as <-.
  unfold integral in Hi. vm_compute in Hi. discriminate.
Qed.

(** C7 as stated fails: the validator accepts a [scrollFromEditor] message
    whose fraction is 7 and whose line is one and a half, which the
    protocol table's [percent: number[0,1], line: integer] excludes. *)
Lemma C7_validator_checks_types_only :
  ~ (forall m : JsValue,
        isExtensionToWebviewMessage m = true <-> tableShapeToSurface m).
Proof.
  intros H. destruct (H wildScroll) as [H1 _].
  specialize (H1 eq_refl). destruct H1 as [_ H1].
  destruct H1 as [[Hk _] | [[Hk _] | [[_ [[p [Hp [_ Hle]]] _]] | [Hk _]]]];
    try (vm_compute in Hk; discriminate).
  vm_compute in Hp. injection Hp as <-.
  unfold Qle in Hle. simpl in Hle. lia.
Qed.

End MessageClaims.

(** * The preview provider: the claims *)

Section ProviderClaims.

Import ProviderSpec.

(** C7, amended.  Each validator accepts a message exactly when it is an
    object of one of its direction's kinds whose required fields have the
    right primitive type: a string where the table says string, any number
    where it says number or integer, with no check of range or of
    integrality, and [line] of a [scroll] message may be absent.  A message
    that [isWebviewToExtensionMessage] rejects is not dispatched to any
    handler by [handleWebviewMessage]: the provider logs a warning and its
    state is otherwise as before. *)
Theorem C7_validation_gates_dispatch :
  (forall m : Messages.JsValue,
      Messages.isExtensionToWebviewMessage m = true
      <-> Messages.typeShapeToSurface m)
  /\ (forall m : Messages.JsValue,
        Messages.isWebviewToExtensionMessage m = true
        <-> Messages.typeShapeToOrchestrator m)
  /\ (forall (generateKey : Provider.RenderOptions -> string)
             (render : Provider.RenderOptions -> string + string)
             (env : Provider.Env) (now elapsed : Z)
             (m : Messages.JsValue) (p : Provider.t),
        Messages.isWebviewToExtensionMessage m = false ->
        Provider.handleWebviewMessage generateKey render env now elapsed m p
        = Some (Provider.emit [Provider.ConsoleWarnInvalid m] p)).
Proof.
  split; [exact toSurface_validator |].
  split; [exact toOrchestrator_validator |].
  intros generateKey render env now elapsed m p H.
  unfold Provider.handleWebviewMessage. rewrite H. reflexivity.
Qed.

Lemma C7_validation_gates_dispatch_witness :
  Provider.handleWebviewMessage demoKey demoRender demoEnv 0 0 badScroll
    showingA
  = Some (Provider.emit [Provider.ConsoleWarnInvalid badScroll] showingA).
Proof.
  apply (proj2 (proj2 C7_validation_gates_dispatch)).
  reflexivity.
Defined.

(** A message that passes is handed on: a well-formed [scroll] message
    reaches [handleWebviewScroll]. *)
Lemma scroll_message_dispatched (generateKey : Provider.RenderOptions -> string)
    (render : Provider.RenderOptions -> string + string)
    (env : Provider.Env) (now elapsed : Z) (percent : Q) (p : Provider.t) :
  Provider.handleWebviewMessage generateKey render env now elapsed
    (Messages.createScrollMessage percent None) p
  = Some (Provider.dispatchScroll env now
            (Messages.createScrollMessage percent None) p).
Proof. reflexivity. Qed.

Lemma get_keys_incl (key x : string) (now : Z) (c : RenderCache.t) :
  In x (RenderCache.keys (RenderCache.cache (snd (RenderCache.get key now c)))) ->
  In x (RenderCache.keys (RenderCache.cache c)).
Proof.
  unfold RenderCache.get.
  destruct (RenderCache.map_get key (RenderCache.cache c)) as [e |] eqn:E;
    [| auto].
  destruct (RenderCache.expired c now e); simpl.
  - apply keys_delete_incl.
  - intros H. apply keys_set_incl in H as [-> | H]; [| exact H].
    eapply map_get_some_in_keys. exact E.
Qed.

(** [doUpdatePreview] with a panel and a document: it returns, arms no
    timer, and pushes one message for the current document, the cached or
    freshly rendered page or else the render error. *)
Lemma doUpdatePreview_pushes (generateKey : Provider.RenderOptions -> string)
    (render : Provider.RenderOptions -> string + string)
    (env : Provider.Env) (now elapsed : Z) (doc : Provider.TextDocument)
    (p : Provider.t) :
  Provider.panel p = true ->
  Provider.currentDocument p = Some doc ->
  CacheSpec.noEmptyKey (RenderCache.cache (Provider.cache p)) ->
  exists p' pushed,
    Provider.doUpdatePreview generateKey render env now elapsed p = Some p'
    /\ Provider.currentDocument p' = Some doc
    /\ Provider.timers p' = Provider.timers p
    /\ Provider.updateTimeout p' = Provider.updateTimeout p
    /\ Provider.scrollSyncManager p' = Provider.scrollSyncManager p
    /\ Provider.effects p' = Provider.effects p ++ pushed
    /\ ((exists html,
            In (Provider.PostMessage (Messages.UpdateMessage html)) pushed
            /\ (fst (RenderCache.get
                       (generateKey
                          (Provider.renderOptions (Provider.config env) doc))
                       now (Provider.cache p)) = Some html
                \/ render (Provider.renderOptions (Provider.config env) doc)
                   = inl html))
        \/ (exists message,
               In (Provider.PostMessage (Messages.ErrorMessage message))
                  pushed
               /\ render (Provider.renderOptions (Provider.config env) doc)
                  = inr message)).
Proof.
  intros Hpanel Hdoc Hkeys.
  unfold Provider.doUpdatePreview. rewrite Hpanel, Hdoc. simpl.
  set (options := Provider.renderOptions (Provider.config env) doc).
  destruct (RenderCache.get (generateKey options) now (Provider.cache p))
    as [found c1] eqn:Eg.
  assert (CacheSpec.noEmptyKey (RenderCache.cache c1)) as Hkeys1.
  { intros x Hx. apply Hkeys.
    apply (get_keys_incl (generateKey options) x now).
    rewrite Eg. exact Hx. }
  assert (forall html, found = Some html ->
            fst (found, c1) = Some html) as Hfound by (intros; assumption).
  destruct found as [html |].
  - destruct (String.eqb html "") eqn:Ee.
    + destruct (render options) as [page | message] eqn:Er.
      * destruct (set_returns (S (List.length (RenderCache.cache c1)))
                    (generateKey options) page (now + elapsed) c1 Hkeys1)
          as [c2 Hc2]; [lia |].
        rewrite Hc2. eexists _, _. split; [reflexivity |]. split; [exact Hdoc |].
        do 4 (split; [reflexivity |]).
        left. exists page. split; [now left | now right].
      * eexists _, _. split; [reflexivity |]. split; [exact Hdoc |].
        do 4 (split; [reflexivity |]).
        right. exists message. split; [right; now left | reflexivity].
    + eexists _, _. split; [reflexivity |]. split; [exact Hdoc |].
        do 4 (split; [reflexivity |]).
      left. exists html. split; [now left | now left].
  - destruct (render options) as [page | message] eqn:Er.
    + destruct (set_returns (S (List.length (RenderCache.cache c1)))
                  (generateKey options) page (now + elapsed) c1 Hkeys1)
        as [c2 Hc2]; [lia |].
      rewrite Hc2. eexists _, _. split; [reflexivity |]. split; [exact Hdoc |].
        do 4 (split; [reflexivity |]).
      left. exists page. split; [now left | now right].
    + eexists _, _. split; [reflexivity |]. split; [exact Hdoc |].
        do 4 (split; [reflexivity |]).
      right. exists message. split; [right; now left | reflexivity].
Qed.


(** The two halves make up the whole: an update that nothing interrupts
    is [beginUpdate] followed, when a render was started, by [finishUpdate]
    with what the engine answers. *)
Lemma doUpdatePreview_phases (generateKey : Provider.RenderOptions -> string)
    (render : Provider.RenderOptions -> string + string)
    (env : Provider.Env) (now elapsed : Z) (p : Provider.t) :
  Provider.doUpdatePreview generateKey render env now elapsed p
  = match Provider.beginUpdate generateKey env now p with
    | (p1, None) => Some p1
    | (p1, Some job) =>
        Provider.finishUpdate job (render (Provider.options job))
          (now + elapsed) p1
    end.
Proof.
  unfold Provider.doUpdatePreview, Provider.beginUpdate.
  destruct (Provider.panel p) eqn:Hpanel; simpl; [| reflexivity].
  destruct (Provider.currentDocument p) as [doc |]; [| reflexivity].
  destruct (RenderCache.get _ now (Provider.cache p)) as [found c1].
  assert (forall k o,
             match render o with
             | inl html =>
                 match
                   RenderCache.set (S (List.length (RenderCache.cache c1)))
                     k html (now + elapsed) c1
                 with
                 | None => None
                 | Some c2 =>
                     Some (Provider.emit
                             (Provider.PostMessage
                                (Messages.UpdateMessage html)
                                :: (if 200 <? elapsed
                                    then [Provider.ConsoleWarnSlow elapsed]
                                    else []))
                             (Provider.with_cache c2 p))
                 end
             | inr errorMessage =>
                 Some (Provider.emit
                         [Provider.ConsoleError errorMessage;
                          Provider.PostMessage
                            (Messages.ErrorMessage errorMessage);
                          Provider.ShowErrorMessage errorMessage]
                         (Provider.with_cache c1 p))
             end
             = Provider.finishUpdate
                 {| Provider.cacheKey := k; Provider.options := o;
                    Provider.startTime := now |}
                 (render o) (now + elapsed) (Provider.with_cache c1 p))
    as Hmiss.
  { intros k o. unfold Provider.finishUpdate.
    cbn [Provider.cacheKey Provider.options Provider.startTime
         Provider.with_cache Provider.cache Provider.panel].
    rewrite Hpanel. replace (now + elapsed - now) with elapsed by lia.
    destruct (render o) as [html | message]; [| reflexivity].
    destruct (RenderCache.set _ _ _ _ _) as [c2 |]; reflexivity. }
  destruct found as [html |]; [| apply Hmiss].
  destruct (String.eqb html ""); [apply Hmiss | reflexivity].
Qed.



End ProviderClaims.

(** * The incremental patch engine: the claims *)

Section PatchClaims.

Import PatchSpec.

(** The two primitives agree on the fragments used below. *)
Lemma fragment_round_trip :
  Patch.readFragment "div" paragraph
  = [Patch.Element "p" [] [Patch.Text "xxxxxx"]]
  /\ Patch.innerHTML [Patch.Element "p" [] [Patch.Text "xxxxxx"]] = paragraph
  /\ Patch.innerHTML (childNodes quoted) = "<blockquote></blockquote>"
  /\ Patch.innerHTML
       [Patch.Element "blockquote" [] [Patch.Text "xxxxxx"]]
     = "<blockquote>xxxxxx</blockquote>".
Proof. repeat split; vm_compute; reflexivity. Qed.

(** C8.  The code does not do what the claim asks.  The surface shows an
    empty block quote and the page [<p>xxxxxx</p>] is applied twice.  The
    first application sees a length change of 12 in 25, morphs in place and,
    both nodes being elements, keeps the [blockquote] tag while it copies
    the text in.  The second application measures the morphed tree, sees a
    change of 18 in 31 and replaces the content wholesale, so the children
    after the second application differ from those after the first. *)
Theorem C8_second_application_changes_tree :
  Patch.bigChange 25 13 = false
  /\ Patch.bigChange 31 13 = true
  /\ childNodes (update paragraph quoted)
     = [Patch.Element "blockquote" [] [Patch.Text "xxxxxx"]]
  /\ childNodes (update paragraph (update paragraph quoted))
     = [Patch.Element "p" [] [Patch.Text "xxxxxx"]]
  /\ childNodes (update paragraph (update paragraph quoted))
     <> childNodes (update paragraph quoted).
Proof.
  split; [vm_compute; reflexivity |].
  split; [vm_compute; reflexivity |].
  split; [vm_compute; reflexivity |].
  split; [vm_compute; reflexivity |].
  vm_compute. discriminate.
Qed.

(** On the container itself the second application is not the identity
    even for a first render: the first sets the content, the second morphs
    the container against an attribute-less [div] and takes its [id]
    away. *)
Lemma container_loses_id :
  attributes (update paragraph emptyPreview) = [("id", "preview")]
  /\ attributes (update paragraph (update paragraph emptyPreview)) = []
  /\ childNodes (update paragraph (update paragraph emptyPreview))
     = childNodes (update paragraph emptyPreview).
Proof. repeat split; vm_compute; reflexivity. Qed.

(** Morphing leaves alone a node whose tag name alone differs from the new
    one. *)
Lemma morphDom_keeps_tag (parseHTML : string -> string -> list Patch.Node)
    (serializeHTML : list Patch.Node -> string)
    (tag tag' : string) (text : string) :
  Patch.morphDom parseHTML serializeHTML
    (Patch.Element tag [] [Patch.Text text])
    (Patch.Element tag' [] [Patch.Text text])
  = Patch.Element tag [] [Patch.Text text].
Proof.
  simpl. unfold Patch.farApart. simpl. now rewrite String.eqb_refl.
Qed.

End PatchClaims.

(** ** Where the second application does change nothing *)

Section PatchFixpoint.

Import PatchSpec.

Lemma hasAttribute_In (a : Patch.Attrs) (k v : string) :
  In (k, v) a -> Patch.hasAttribute k a = true.
Proof.
  unfold Patch.hasAttribute.
  induction a as [| [k' v'] a IH]; simpl; [contradiction |].
  intros [Hx | Hx].
  - injection Hx as -> ->. now rewrite String.eqb_refl.
  - destruct (String.eqb k' k); [reflexivity | now apply IH].
Qed.

Lemma removeStale_same (a : Patch.Attrs) : Patch.removeStale a a = a.
Proof.
  unfold Patch.removeStale.
  assert (forall (l : Patch.Attrs) (cur : Patch.Attrs),
             (forall x, In x l -> Patch.hasAttribute (fst x) a = true) ->
             fold_left
               (fun (cur : Patch.Attrs) (attr : string * string) =>
                  if Patch.hasAttribute (fst attr) a then cur
                  else Patch.removeAttribute (fst attr) cur) l cur = cur)
    as Hfold.
  { induction l as [| x l IH]; intros cur Hl; simpl; [reflexivity |].
    rewrite (Hl x (or_introl eq_refl)). apply IH.
    intros y Hy. apply Hl. now right. }
  apply Hfold. intros [k v] Hx. apply in_rev in Hx. simpl.
  eapply hasAttribute_In. exact Hx.
Qed.

Lemma getAttribute_NoDup (a : Patch.Attrs) (k v : string) :
  NoDup (List.map fst a) -> In (k, v) a -> Patch.getAttribute k a = Some v.
Proof.
  induction a as [| [k' v'] a IH]; simpl; intros Hnd Hin; [contradiction |].
  inversion Hnd as [| ? ? Hnin Hnd']; subst.
  destruct Hin as [Hin | Hin].
  - injection Hin as -> ->. now rewrite String.eqb_refl.
  - destruct (String.eqb k' k) eqn:E; [| now apply IH].
    apply String.eqb_eq in E. subst k'. exfalso. apply Hnin.
    apply in_map_iff. exists (k, v). auto.
Qed.

Lemma copyAttrs_same (a : Patch.Attrs) :
  NoDup (List.map fst a) -> Patch.copyAttrs a a = a.
Proof.
  intros Hnd. unfold Patch.copyAttrs.
  assert (forall l : Patch.Attrs,
             (forall x, In x l -> In x a) ->
             fold_left
               (fun (cur : Patch.Attrs) (attr : string * string) =>
                  match Patch.getAttribute (fst attr) cur with
                  | Some v =>
                      if String.eqb v (snd attr) then cur
                      else Patch.setAttribute (fst attr) (snd attr) cur
                  | None => Patch.setAttribute (fst attr) (snd attr) cur
                  end) l a = a) as Hfold.
  { induction l as [| [k v] l IH]; intros Hl; simpl; [reflexivity |].
    rewrite (getAttribute_NoDup a k v Hnd (Hl _ (or_introl eq_refl))).
    rewrite String.eqb_refl. apply IH. intros y Hy. apply Hl. now right. }
  apply Hfold. auto.
Qed.

Lemma morphAttrs_same (a : Patch.Attrs) :
  NoDup (List.map fst a) -> Patch.morphAttrs a a = a.
Proof.
  intros Hnd. unfold Patch.morphAttrs.
  rewrite removeStale_same. now apply copyAttrs_same.
Qed.

Lemma farApart_same (n : nat) : Patch.farApart n n = false.
Proof. unfold Patch.farApart. rewrite Z.sub_diag. reflexivity. Qed.

Section WithDom.

Variable parseHTML : string -> string -> list Patch.Node.
Variable serializeHTML : list Patch.Node -> string.

(** Morphing a tree against an equal tree changes nothing. *)
Lemma morphDom_same :
  forall n, wellFormed n -> Patch.morphDom parseHTML serializeHTML n n = n.
Proof.
  fix IH 1. intros [tag attrs children | v | v] H.
  - destruct H as [Hnd Hall]. cbn [Patch.morphDom].
    rewrite morphAttrs_same by exact Hnd. rewrite farApart_same.
    f_equal. revert children Hall.
    fix IHc 1. intros [| c children] Hall; [reflexivity |].
    destruct Hall as [Hc Hall].
    rewrite (IH c Hc). f_equal. apply IHc. exact Hall.
  - cbn [Patch.morphDom]. now rewrite String.eqb_refl.
  - reflexivity.
Qed.

Lemma morph_children_same (children : list Patch.Node) :
  allWellFormed children ->
  (fix go (fs ts : list Patch.Node) {struct fs} : list Patch.Node :=
     match fs, ts with
     | f :: fs', t :: ts' =>
         Patch.morphDom parseHTML serializeHTML f t :: go fs' ts'
     | [], _ => ts
     | _ :: _, [] => []
     end) children children = children.
Proof.
  induction children as [| c children IH]; intros H; [reflexivity |].
  destruct H as [Hc H]. rewrite morphDom_same by exact Hc.
  f_equal. now apply IH.
Qed.

(** Once the container holds exactly what the page parses to, which is the
    case after a first render and after a wholesale replacement, applying
    the same page again leaves its children as they are. *)
Lemma second_application_after_replacement (html : string)
    (attrs : Patch.Attrs) :
  allWellFormed (parseHTML "div" html) ->
  childNodes
    (Patch.updatePreviewContent parseHTML serializeHTML html
       (Patch.Element "div" attrs (parseHTML "div" html)))
  = parseHTML "div" html.
Proof.
  intros Hwf. unfold Patch.updatePreviewContent.
  destruct (parseHTML "div" html) as [| c children] eqn:Ep.
  - reflexivity.
  - destruct (Patch.bigChange _ _); [reflexivity |].
    cbn [Patch.morphDom childNodes]. rewrite farApart_same.
    cbn [childNodes]. apply (morph_children_same (c :: children)).
    exact Hwf.
Qed.

End WithDom.

End PatchFixpoint.

(** * Further properties of the render cache *)

Section CacheCeilings.

Import RenderCache CacheSpec CacheMore.

Lemma length_map_set_le (k : string) (e : CacheEntry) (m : EntryMap) :
  (List.length (map_set k e m) <= S (List.length m))%nat.
Proof.
  induction m as [| [k' e'] m IH]; simpl; [lia |].
  destruct (String.eqb k' k); simpl; lia.
Qed.

Lemma length_map_set_present (k : string) (e o : CacheEntry) (m : EntryMap) :
  map_get k m = Some o -> List.length (map_set k e m) = List.length m.
Proof.
  induction m as [| [k' e'] m IH]; simpl; [discriminate |].
  destruct (String.eqb k' k); simpl; [reflexivity |].
  intros H. now rewrite IH.
Qed.

Lemma length_map_delete_le (k : string) (m : EntryMap) :
  (List.length (map_delete k m) <= List.length m)%nat.
Proof.
  induction m as [| [k' e'] m IH]; simpl; [lia |].
  destruct (String.eqb k' k); simpl; lia.
Qed.

Lemma cleanStep_fold_size (now : Z) (l : EntryMap) (c : t) (n : Z) :
  (List.length (cache (fst (fold_left (cleanStep now) l (c, n))))
   <= List.length (cache c))%nat
  /\ maxSize (fst (fold_left (cleanStep now) l (c, n))) = maxSize c.
Proof.
  revert c n. induction l as [| [k e] l IH]; intros c n; simpl; [auto |].
  destruct (expired c now e).
  - destruct (IH (with_cache
                    (with_memory c
                       (currentMemorySize c - estimateSize (html e)))
                    (map_delete k (cache c))) (n + 1)) as [H1 H2].
    simpl in *. pose proof (length_map_delete_le k (cache c)).
    split; [lia | exact H2].
  - apply IH.
Qed.

Lemma withinCount_apply (fuel : nat) (o : Op) (c c' : t) :
  apply fuel o c = Some c' -> withinCount c ->
  withinCount c' /\ maxSize c' = maxSize c.
Proof.
  unfold withinCount, map_size.
  destruct o as [key page now | key now | key now | key | | now]; simpl.
  - unfold set. destruct (overShare _ _); [intros [= <-]; auto |].
    destruct (setLoop fuel (estimateSize page) c) as [[c1 | c1] |] eqn:E;
      [| | discriminate]; intros [= <-] [H1 H2];
      pose proof (setLoop_frame _ _ _ _ E) as Hf; simpl in Hf.
    + destruct Hf as (_ & _ & Hs & _).
      apply setLoop_proceed_room in E. unfold noRoom, map_size in E.
      apply orb_false_iff in E as [E _]. apply Z.leb_gt in E.
      unfold store. simpl.
      pose proof (length_map_set_le key
                    {| html := page; timestamp := now; accessCount := 1;
                       lastAccess := now |} (cache c1)).
      repeat split; try lia.
    + destruct Hf as (_ & _ & Hs & _ & Hnil & _). rewrite Hnil. simpl.
      repeat split; lia.
  - intros [= <-] [H1 H2]. unfold get.
    destruct (map_get key (cache c)) as [e |] eqn:E; [| auto].
    destruct (expired c now e); simpl.
    + pose proof (length_map_delete_le key (cache c)). repeat split; lia.
    + erewrite length_map_set_present by exact E. auto.
  - intros [= <-] [H1 H2]. unfold has.
    destruct (map_get key (cache c)) as [e |] eqn:E; [| auto].
    destruct (expired c now e); simpl; [| auto].
    pose proof (length_map_delete_le key (cache c)). repeat split; lia.
  - intros [= <-] [H1 H2]. unfold delete.
    destruct (map_get key (cache c)) as [e |]; simpl; [| auto].
    pose proof (length_map_delete_le key (cache c)). repeat split; lia.
  - intros [= <-] [H1 H2]. simpl. repeat split; lia.
  - intros [= <-] [H1 H2]. unfold cleanExpired.
    destruct (cleanStep_fold_size now (cache c) c 0) as [Hl Hm].
    destruct (fold_left (cleanStep now) (cache c) (c, 0)) as [c1 n].
    simpl in *. repeat split; lia.
Qed.

(** X1.  From a fresh cache whose [maxSize] is not negative, no sequence of
    calls leaves more than [maxSize] entries. *)
Theorem entry_count_ceiling (options : RenderCacheOptions) (fuel : nat)
    (ops : list Op) (c : t) :
  0 <= maxSize (new options) ->
  run fuel ops (new options) = Some c ->
  size (getStats c) <= stats_maxSize (getStats c)
  /\ stats_maxSize (getStats c) = maxSize (new options).
Proof.
  intros H0 Hrun.
  assert (withinCount (new options)) as Hnew.
  { unfold withinCount, map_size. cbn [cache new List.length]. lia. }
  revert Hrun Hnew. generalize (new options) as c0.
  induction ops as [| o ops IH]; intros c0; simpl.
  - intros [= <-] [H1 H2]. auto.
  - destruct (apply fuel o c0) as [c1 |] eqn:E; [| discriminate].
    intros Hrun Hc0. destruct (withinCount_apply _ _ _ _ E Hc0) as [Hc1 Hm].
    destruct (IH c1 Hrun Hc1) as [Hs Hm']. split; [exact Hs |].
    transitivity (maxSize c1); [exact Hm' | exact Hm].
Qed.

Lemma entry_count_ceiling_witness :
  exists c,
    run 3 Scenario.mixedOps (new Scenario.nineEntries) = Some c
    /\ size (getStats c) <= stats_maxSize (getStats c)
    /\ stats_maxSize (getStats c) = maxSize (new Scenario.nineEntries).
Proof.
  eexists. split; [vm_compute; reflexivity |].
  apply (entry_count_ceiling Scenario.nineEntries 3 Scenario.mixedOps).
  - simpl. lia.
  - vm_compute. reflexivity.
Defined.

End CacheCeilings.

Section CacheLookups.

Import RenderCache CacheSpec.

Lemma map_get_set_other (k k' : string) (e : CacheEntry) (m : EntryMap) :
  k' <> k -> map_get k' (map_set k e m) = map_get k' m.
Proof.
  intros Hne. induction m as [| [k0 e0] m IH]; simpl.
  - destruct (String.eqb k k') eqn:E; [| reflexivity].
    apply String.eqb_eq in E. congruence.
  - destruct (String.eqb k0 k) eqn:E; simpl.
    + apply String.eqb_eq in E. subst k0.
      destruct (String.eqb k k') eqn:E'; [| reflexivity].
      apply String.eqb_eq in E'. congruence.
    + destruct (String.eqb k0 k'); [reflexivity | exact IH].
Qed.

Lemma map_get_delete_other (k k' : string) (m : EntryMap) :
  k' <> k -> map_get k' (map_delete k m) = map_get k' m.
Proof.
  intros Hne. induction m as [| [k0 e0] m IH]; simpl; [reflexivity |].
  destruct (String.eqb k0 k) eqn:E; simpl.
  - apply String.eqb_eq in E. subst k0.
    destruct (String.eqb k k') eqn:E'; [| reflexivity].
    apply String.eqb_eq in E'. congruence.
  - destruct (String.eqb k0 k'); [reflexivity | exact IH].
Qed.

Lemma map_get_delete_same (k : string) (m : EntryMap) :
  NoDup (keys m) -> map_get k (map_delete k m) = None.
Proof.
  induction m as [| [k0 e0] m IH]; simpl; intros Hnd; [reflexivity |].
  inversion Hnd as [| ? ? Hnin Hnd']; subst.
  destruct (String.eqb k0 k) eqn:E.
  - apply String.eqb_eq in E. subst k0.
    destruct (map_get k m) eqn:Eg; [| reflexivity].
    apply map_get_some_in_keys in Eg. contradiction.
  - simpl. rewrite E. now apply IH.
Qed.

Lemma map_get_In (k : string) (e : CacheEntry) (m : EntryMap) :
  map_get k m = Some e -> In (k, e) m.
Proof.
  induction m as [| [k0 e0] m IH]; simpl; [discriminate |].
  destruct (String.eqb k0 k) eqn:E.
  - apply String.eqb_eq in E. intros [= ->]. left. now subst.
  - intros H. right. now apply IH.
Qed.

Lemma In_map_get (k : string) (e : CacheEntry) (m : EntryMap) :
  NoDup (keys m) -> In (k, e) m -> map_get k m = Some e.
Proof.
  induction m as [| [k0 e0] m IH]; simpl; intros Hnd Hin; [contradiction |].
  inversion Hnd as [| ? ? Hnin Hnd']; subst.
  destruct Hin as [Hin | Hin].
  - injection Hin as -> ->. now rewrite String.eqb_refl.
  - destruct (String.eqb k0 k) eqn:E; [| now apply IH].
    apply String.eqb_eq in E. subst k0. exfalso. apply Hnin.
    unfold keys. apply in_map_iff. exists (k, e). auto.
Qed.

Lemma map_get_filter_out (f : string * CacheEntry -> bool) (k : string)
    (e : CacheEntry) (m : EntryMap) :
  NoDup (keys m) -> map_get k m = Some e -> f (k, e) = false ->
  map_get k (filter f m) = None.
Proof.
  intros Hnd Hg Hf.
  destruct (map_get k (filter f m)) as [e' |] eqn:E; [| reflexivity].
  apply map_get_In in E. apply filter_In in E as [Hin Hfe].
  apply (In_map_get _ _ _ Hnd) in Hin. congruence.
Qed.

Lemma evict_NoDup (c : t) :
  NoDup (keys (cache c)) -> NoDup (keys (cache (evictLeastRecentlyUsed c))).
Proof.
  intros H. destruct (evict_cases c) as [-> | (k & e & _ & _ & _ & ->)];
    [exact H |].
  simpl. now apply NoDup_keys_delete.
Qed.

Lemma setLoop_NoDup (fuel : nat) (htmlSize : Z) (c : t) (r : LoopExit) :
  setLoop fuel htmlSize c = Some r -> NoDup (keys (cache c)) ->
  match r with
  | Proceed c1 | Abort c1 => NoDup (keys (cache c1))
  end.
Proof.
  revert c. induction fuel as [| fuel IH]; intros c; simpl; [discriminate |].
  destruct (noRoom htmlSize c).
  - destruct (map_size (cache c) =? 0).
    + intros [= <-]. auto.
    + intros Hr Hnd. apply (IH _ Hr). now apply evict_NoDup.
  - intros [= <-]. auto.
Qed.

(** What the loop of [set] leaves behind was there before. *)
Lemma setLoop_survivors (fuel : nat) (htmlSize : Z) (c : t) (r : LoopExit) :
  setLoop fuel htmlSize c = Some r -> NoDup (keys (cache c)) ->
  forall k e,
    map_get k (cache match r with Proceed c1 | Abort c1 => c1 end) = Some e ->
    map_get k (cache c) = Some e.
Proof.
  revert c. induction fuel as [| fuel IH]; intros c; simpl; [discriminate |].
  destruct (noRoom htmlSize c).
  - destruct (map_size (cache c) =? 0).
    + intros [= <-]. auto.
    + intros Hr Hnd k e Hg.
      specialize (IH _ Hr (evict_NoDup _ Hnd) k e Hg).
      destruct (evict_cases c) as [He | (x & ex & _ & _ & _ & He)];
        rewrite He in IH; [exact IH |].
      simpl in IH. destruct (String.eqb k x) eqn:E.
      * apply String.eqb_eq in E. subst x.
        rewrite map_get_delete_same in IH by exact Hnd. discriminate.
      * rewrite map_get_delete_other in IH; [exact IH |].
        intros ->. rewrite String.eqb_refl in E. discriminate.
  - intros [= <-]. auto.
Qed.

Lemma setLoop_length (fuel : nat) (htmlSize : Z) (c : t) (r : LoopExit) :
  setLoop fuel htmlSize c = Some r ->
  (List.length (cache match r with Proceed c1 | Abort c1 => c1 end)
   <= List.length (cache c))%nat.
Proof.
  revert c. induction fuel as [| fuel IH]; intros c; simpl; [discriminate |].
  destruct (noRoom htmlSize c).
  - destruct (map_size (cache c) =? 0).
    + intros [= <-]. lia.
    + intros Hr. specialize (IH _ Hr).
      destruct (evict_cases c) as [He | (x & ex & _ & _ & _ & He)];
        rewrite He in IH; [exact IH |].
      simpl in IH. pose proof (length_map_delete_le x (cache c)). lia.
  - intros [= <-]. lia.
Qed.

End CacheLookups.

Section CacheBehaviour.

Import RenderCache CacheSpec CacheMore.

Lemma filter_twice_out {A : Type} (f : A -> bool) (l : list A) :
  filter f (filter (fun x => negb (f x)) l) = [].
Proof.
  induction l as [| x l IH]; simpl; [reflexivity |].
  destruct (f x) eqn:E; simpl; [exact IH |]. now rewrite E.
Qed.

Lemma filter_twice_in {A : Type} (f : A -> bool) (l : list A) :
  filter f (filter f l) = filter f l.
Proof.
  induction l as [| x l IH]; simpl; [reflexivity |].
  destruct (f x) eqn:E; simpl; [| exact IH]. rewrite E. now f_equal.
Qed.

(** X7.  [cleanExpired] on a cache with distinct keys: it reports the number of
    entries past their time to live, keeps the others in order and takes
    exactly the sizes of the removed ones off the total; a second sweep at
    the same instant finds nothing. *)
Theorem cleanExpired_sweeps (now : Z) (c : t) :
  NoDup (keys (cache c)) ->
  cleanExpired now c
  = (Z.of_nat (List.length (stale c now (cache c))),
     mkCache (fresh c now (cache c)) (maxSize c) (ttl c) (maxMemorySize c)
       (currentMemorySize c - entriesSize (stale c now (cache c))))
  /\ cleanExpired now (snd (cleanExpired now c))
     = (0, snd (cleanExpired now c)).
Proof.
  intros Hnd.
  assert (forall d, NoDup (keys (cache d)) ->
            cleanExpired now d
            = (Z.of_nat (List.length (stale d now (cache d))),
               mkCache (fresh d now (cache d)) (maxSize d) (ttl d)
                 (maxMemorySize d)
                 (currentMemorySize d - entriesSize (stale d now (cache d)))))
    as Hclosed.
  { intros d Hd. unfold cleanExpired.
    rewrite (cleanExpired_fold now (cache d) [] d 0) by (simpl; auto).
    reflexivity. }
  split; [now apply Hclosed |].
  rewrite (Hclosed c Hnd). cbn [snd].
  rewrite Hclosed by (cbn [cache]; now apply NoDup_keys_filter).
  unfold stale, fresh, expired. cbn [cache maxSize ttl maxMemorySize
    currentMemorySize].
  rewrite (filter_twice_out (fun ke => ttl c <? now - timestamp (snd ke))).
  rewrite (filter_twice_in
             (fun ke => negb (ttl c <? now - timestamp (snd ke)))).
  simpl. rewrite Z.sub_0_r. reflexivity.
Qed.

Lemma cleanExpired_sweeps_witness :
  cleanExpired 300005 twoKeys
  = (Z.of_nat (List.length (stale twoKeys 300005 (cache twoKeys))),
     mkCache (fresh twoKeys 300005 (cache twoKeys)) (maxSize twoKeys)
       (ttl twoKeys) (maxMemorySize twoKeys)
       (currentMemorySize twoKeys
        - entriesSize (stale twoKeys 300005 (cache twoKeys))))
  /\ cleanExpired 300005 (snd (cleanExpired 300005 twoKeys))
     = (0, snd (cleanExpired 300005 twoKeys)).
Proof.
  apply (cleanExpired_sweeps 300005 twoKeys).
  vm_compute. repeat constructor; simpl; intuition discriminate.
Defined.

(** X8.  [has] answers as [get] would, and changes the cache only when it
    removes an entry past its time to live, which is then the same removal
    [get] makes. *)
Theorem has_agrees_with_get (key : string) (now : Z) (c : t) :
  (fst (has key now c) = true <-> exists h, fst (get key now c) = Some h)
  /\ (fst (has key now c) = true -> snd (has key now c) = c)
  /\ (fst (has key now c) = false ->
      get key now c = (None, snd (has key now c))).
Proof.
  unfold has, get.
  destruct (map_get key (cache c)) as [e |]; simpl.
  - destruct (expired c now e); simpl.
    + repeat split; try discriminate; auto. intros [h Hh]. discriminate.
    + repeat split; try discriminate; eauto.
  - repeat split; try discriminate; auto. intros [h Hh]. discriminate.
Qed.

(** X9.  [delete(key)] on a cache with distinct keys: the key is gone for [get]
    and [has], every other key keeps its entry, the total drops by exactly
    the entry's size, and deleting a key that is absent changes nothing. *)
Theorem delete_removes_one (key : string) (now : Z) (c : t) :
  NoDup (keys (cache c)) ->
  fst (get key now (delete key c)) = None
  /\ fst (has key now (delete key c)) = false
  /\ (forall k, k <> key ->
        map_get k (cache (delete key c)) = map_get k (cache c))
  /\ leaked (delete key c) = leaked c
  /\ (map_get key (cache c) = None -> delete key c = c).
Proof.
  intros Hnd.
  assert (map_get key (cache (delete key c)) = None) as Hgone.
  { unfold delete. destruct (map_get key (cache c)) eqn:E; [| exact E].
    simpl. now apply map_get_delete_same. }
  split; [unfold get; now rewrite Hgone |].
  split; [unfold has; now rewrite Hgone |].
  unfold delete, leaked.
  destruct (map_get key (cache c)) as [e |] eqn:E; simpl.
  - split; [intros k Hk; now apply map_get_delete_other |].
    split; [rewrite entriesSize_delete, E; lia | discriminate].
  - auto.
Qed.

Lemma delete_removes_one_witness :
  fst (get "key1" 5 (delete "key1" twoKeys)) = None
  /\ fst (has "key1" 5 (delete "key1" twoKeys)) = false
  /\ (forall k, k <> "key1" ->
        map_get k (cache (delete "key1" twoKeys)) = map_get k (cache twoKeys))
  /\ leaked (delete "key1" twoKeys) = leaked twoKeys
  /\ (map_get "key1" (cache twoKeys) = None -> delete "key1" twoKeys = twoKeys).
Proof.
  apply (delete_removes_one "key1" 5 twoKeys).
  vm_compute. repeat constructor; simpl; intuition discriminate.
Defined.

(** X10.  The part of the total that no live entry accounts for is left as it is
    by [set], [delete] and [cleanExpired], can only grow under [get] and
    [has], and is reset by [clear] alone. *)
Theorem leak_reclaimed_by_clear_only (fuel : nat) (o : Op) (c c' : t) :
  NoDup (keys (cache c)) ->
  apply fuel o c = Some c' ->
  leakChange o (leaked c) (leaked c').
Proof.
  intros Hnd.
  destruct o as [key page now | key now | key now | key | | now];
    unfold leakChange, leaked; simpl.
  - unfold set. destruct (overShare _ _); [intros [= <-]; reflexivity |].
    destruct (setLoop fuel (estimateSize page) c) as [[c1 | c1] |] eqn:E;
      [| | discriminate]; intros [= <-];
      pose proof (setLoop_frame _ _ _ _ E) as Hf; simpl in Hf;
      unfold leaked in Hf.
    + destruct Hf as (Hl & _). unfold store. simpl.
      rewrite entriesSize_set. simpl.
      destruct (map_get key (cache c1)); lia.
    + destruct Hf as (Hl & _). exact Hl.
  - intros [= <-]. unfold get.
    destruct (map_get key (cache c)) as [e |] eqn:E; [| simpl; lia].
    destruct (expired c now e); simpl.
    + rewrite entriesSize_delete, E. pose proof (estimateSize_pos (html e)).
      lia.
    + rewrite entriesSize_set, E. simpl. lia.
  - intros [= <-]. unfold has.
    destruct (map_get key (cache c)) as [e |] eqn:E; [| simpl; lia].
    destruct (expired c now e); simpl; [| lia].
    rewrite entriesSize_delete, E. pose proof (estimateSize_pos (html e)).
    lia.
  - intros [= <-]. unfold delete.
    destruct (map_get key (cache c)) as [e |] eqn:E; simpl; [| lia].
    rewrite entriesSize_delete, E. lia.
  - intros [= <-]. reflexivity.
  - intros [= <-]. destruct (cleanExpired_sweeps now c Hnd) as [-> _].
    simpl. unfold stale, fresh.
    pose proof (entriesSize_filter_split
                  (fun ke => expired c now (snd ke)) (cache c)) as Hs.
    cbv beta in Hs. lia.
Qed.

Lemma leak_reclaimed_by_clear_only_witness :
  leakChange (OpGet "key1" 300005) (leaked twoKeys)
    (leaked (snd (get "key1" 300005 twoKeys)))
  /\ leaked (snd (get "key1" 300005 twoKeys)) = 130.
Proof.
  split; [| vm_compute; reflexivity].
  apply (leak_reclaimed_by_clear_only 1 (OpGet "key1" 300005) twoKeys).
  - vm_compute. repeat constructor; simpl; intuition discriminate.
  - reflexivity.
Defined.

(** X6.  On an empty cache whose tracked total leaves no room, every [set] is
    dropped: only [clear] brings such a cache back into use. *)
Theorem starved_cache_refuses (fuel : nat) (items : list Insertion) (c : t) :
  cache c = [] ->
  (forall i, In i items ->
     maxMemorySize c < currentMemorySize c + estimateSize (ins_html i)) ->
  (1 <= fuel)%nat ->
  run fuel (List.map setOp items) c = Some c.
Proof.
  intros Hnil Hfull Hfuel.
  induction items as [| i items IH]; simpl; [reflexivity |].
  assert (set fuel (ins_key i) (ins_html i) (ins_now i) c = Some c) as Hset.
  { unfold set. destruct (overShare _ _); [reflexivity |].
    destruct fuel as [| fuel]; [lia |]. simpl.
    unfold noRoom, map_size. rewrite Hnil. simpl.
    specialize (Hfull i (or_introl eq_refl)).
    apply Z.ltb_lt in Hfull. rewrite Hfull, orb_true_r. reflexivity. }
  rewrite Hset. apply IH. intros j Hj. apply Hfull. now right.
Qed.

Lemma starved_cache_refuses_witness :
  exists c,
    run 1 leakOps (new Scenario.smallMemory) = Some c
    /\ cache c = []
    /\ currentMemorySize c = 1000
    /\ run 1 (List.map setOp [mkInsertion "k" "<p>a</p>" 300002]) c = Some c.
Proof.
  eexists. split; [vm_compute; reflexivity |].
  split; [reflexivity |]. split; [reflexivity |].
  apply (starved_cache_refuses 1 [mkInsertion "k" "<p>a</p>" 300002]).
  - reflexivity.
  - intros i [<- | []]. vm_compute. reflexivity.
  - lia.
Defined.

End CacheBehaviour.

Section CacheExpiryAndEviction.

Import RenderCache CacheSpec CacheMore.

Lemma In_map_set_here (k : string) (e : CacheEntry) (m : EntryMap) :
  In (k, e) (map_set k e m).
Proof.
  induction m as [| [k0 e0] m IH]; simpl; [now left |].
  destruct (String.eqb k0 k) eqn:E; simpl.
  - apply String.eqb_eq in E. subst. now left.
  - now right.
Qed.

(** X2.  Time to live.  An entry stored by [set] at [now] is absent for [get]
    and [has] once more than [ttl] has passed, and a [cleanExpired] at that
    time counts it and removes it. *)
Theorem entry_expires (fuel : nat) (key html : string) (now now' : Z)
    (c : t) :
  5 * estimateSize html <= maxMemorySize c ->
  1 <= maxSize c ->
  noEmptyKey (cache c) ->
  leaked c + estimateSize html <= maxMemorySize c ->
  NoDup (keys (cache c)) ->
  (List.length (cache c) < fuel)%nat ->
  ttl c < now' - now ->
  exists c',
    set fuel key html now c = Some c'
    /\ fst (get key now' c') = None
    /\ fst (has key now' c') = false
    /\ 1 <= fst (cleanExpired now' c')
    /\ map_get key (cache (snd (cleanExpired now' c'))) = None.
Proof.
  intros Hshare Hmax Hkeys Hleak Hnd Hfuel Httl.
  unfold set. rewrite overShare_Z.
  destruct (maxMemorySize c <? 5 * estimateSize html) eqn:Eo;
    [apply Z.ltb_lt in Eo; lia |].
  destruct (setLoop_total fuel (estimateSize html) c Hkeys Hfuel) as [r Hr].
  rewrite Hr. pose proof (setLoop_frame _ _ _ _ Hr) as Hfr.
  pose proof (setLoop_NoDup _ _ _ _ Hr Hnd) as Hnd1.
  destruct r as [c1 | c1].
  - destruct Hfr as (_ & Ht & _ & _).
    eexists. split; [reflexivity |].
    set (c' := store key html now c1).
    assert (map_get key (cache c') = Some (stored html now)) as Hg.
    { unfold c', store. cbn [cache with_cache with_memory].
      apply map_get_set_same. }
    assert (expired c' now' (stored html now) = true) as He.
    { unfold expired, c', store. cbn [ttl with_cache with_memory stored
        timestamp]. apply Z.ltb_lt. lia. }
    assert (NoDup (keys (cache c'))) as Hnd'.
    { unfold c', store. cbn [cache with_cache with_memory].
      now apply NoDup_keys_set. }
    split; [unfold get; now rewrite Hg, He |].
    split; [unfold has; now rewrite Hg, He |].
    destruct (cleanExpired_sweeps now' c' Hnd') as [-> _]. cbn [fst snd cache].
    split.
    + assert (In (key, stored html now) (stale c' now' (cache c'))) as Hin.
      { unfold stale. apply filter_In. split; [| exact He].
        now apply map_get_In. }
      destruct (stale c' now' (cache c')); [contradiction | simpl; lia].
    + unfold fresh. eapply map_get_filter_out; [exact Hnd' | exact Hg |].
      simpl. now rewrite He.
  - exfalso. destruct Hfr as (Hl & _ & Hs & Hm & Hnil & Hn).
    unfold noRoom, map_size in Hn. rewrite Hnil in Hn. simpl in Hn.
    unfold leaked in Hl, Hleak. rewrite Hnil in Hl. simpl in Hl.
    apply orb_true_iff in Hn as [Hn | Hn].
    + apply Z.leb_le in Hn. lia.
    + apply Z.ltb_lt in Hn. lia.
Qed.

Lemma entry_expires_witness :
  exists c',
    set 3 "key3" "<h1>Test 3</h1>" 20 twoKeys = Some c'
    /\ fst (get "key3" 300021 c') = None
    /\ fst (has "key3" 300021 c') = false
    /\ 1 <= fst (cleanExpired 300021 c')
    /\ map_get "key3" (cache (snd (cleanExpired 300021 c'))) = None.
Proof.
  apply (entry_expires 3 "key3" "<h1>Test 3</h1>" 20 300021 twoKeys).
  - vm_compute. discriminate.
  - vm_compute. discriminate.
  - intros k [<- | [<- | []]]; discriminate.
  - vm_compute. discriminate.
  - vm_compute. repeat constructor; simpl; intuition discriminate.
  - simpl. lia.
  - vm_compute. reflexivity.
Defined.

(** X4.  [set(key, html)] never alters or adds an entry under another key: what
    is found under another key afterwards was there before, and what is
    found under [key] is the new entry or the one that was there. *)
Theorem set_leaves_other_keys (fuel : nat) (key html : string) (now : Z)
    (c c' : t) :
  NoDup (keys (cache c)) ->
  set fuel key html now c = Some c' ->
  (forall k e, k <> key ->
     map_get k (cache c') = Some e -> map_get k (cache c) = Some e)
  /\ (forall e,
        map_get key (cache c') = Some e ->
        e = stored html now \/ map_get key (cache c) = Some e).
Proof.
  intros Hnd. unfold set.
  destruct (overShare _ _); [intros [= <-]; auto |].
  destruct (setLoop fuel (estimateSize html) c) as [[c1 | c1] |] eqn:E;
    [| | discriminate]; intros [= <-];
    pose proof (setLoop_survivors _ _ _ _ E Hnd) as Hsurv; simpl in Hsurv.
  - unfold store. cbn [cache with_cache with_memory]. split.
    + intros k e Hk Hg. rewrite map_get_set_other in Hg by exact Hk. auto.
    + intros e Hg. rewrite map_get_set_same in Hg. injection Hg as <-.
      now left.
  - split; [intros k e _ Hg; auto | intros e Hg; right; auto].
Qed.

Lemma set_leaves_other_keys_witness :
  exists c',
    set 3 "key3" "<h1>Test 3</h1>" 20 twoKeys = Some c'
    /\ (forall k e, k <> "key3" ->
          map_get k (cache c') = Some e -> map_get k (cache twoKeys) = Some e)
    /\ (forall e,
          map_get "key3" (cache c') = Some e ->
          e = stored "<h1>Test 3</h1>" 20
          \/ map_get "key3" (cache twoKeys) = Some e).
Proof.
  eexists. split; [vm_compute; reflexivity |].
  apply (set_leaves_other_keys 3 "key3" "<h1>Test 3</h1>" 20 twoKeys).
  - vm_compute. repeat constructor; simpl; intuition discriminate.
  - vm_compute. reflexivity.
Defined.

(** X5.  With no empty-string key among the entries, [set] returns after at most
    as many turns of its loop as there are entries plus one, and leaves at
    most one entry more than it found. *)
Theorem set_terminates (fuel : nat) (key html : string) (now : Z) (c : t) :
  noEmptyKey (cache c) ->
  (List.length (cache c) < fuel)%nat ->
  exists c',
    set fuel key html now c = Some c'
    /\ (List.length (cache c') <= S (List.length (cache c)))%nat.
Proof.
  intros Hk Hf. unfold set. destruct (overShare _ _).
  - exists c. split; [reflexivity | lia].
  - destruct (setLoop_total fuel (estimateSize html) c Hk Hf) as [r Hr].
    rewrite Hr. pose proof (setLoop_length _ _ _ _ Hr) as Hl.
    destruct r as [c1 | c1]; eexists; (split; [reflexivity |]).
    + unfold store. cbn [cache with_cache with_memory].
      pose proof (length_map_set_le key
                    {| RenderCache.html := html; timestamp := now;
                       accessCount := 1; lastAccess := now |} (cache c1)).
      simpl in Hl. lia.
    + simpl in Hl. lia.
Qed.

Lemma set_terminates_witness :
  exists c',
    set 3 "key3" "<h1>Test 3</h1>" 20 twoKeys = Some c'
    /\ (List.length (cache c') <= S (List.length (cache twoKeys)))%nat.
Proof.
  apply (set_terminates 3 "key3" "<h1>Test 3</h1>" 20 twoKeys).
  - intros k [<- | [<- | []]]; discriminate.
  - simpl. lia.
Defined.

Lemma In_map_set_other (k : string) (e : CacheEntry) (m : EntryMap)
    (k' : string) (e' : CacheEntry) :
  k' <> k -> In (k', e') m -> In (k', e') (map_set k e m).
Proof.
  intros Hne. induction m as [| [k0 e0] m IH]; simpl; [tauto |].
  destruct (String.eqb k0 k) eqn:E; simpl.
  - apply String.eqb_eq in E. subst k0.
    intros [H | H]; [injection H as <- <-; congruence | now right].
  - intros [H | H]; [now left | right; now apply IH].
Qed.

(** X3.  Eviction goes by last access, not by insertion.  After [get] has hit
    on a key at a time later than the last access of every other entry, and
    there is another entry, the next eviction removes one of the others. *)
Theorem recently_read_survives (key : string) (now : Z) (c : t)
    (e : CacheEntry) :
  NoDup (keys (cache c)) ->
  map_get key (cache c) = Some e ->
  expired c now e = false ->
  (forall k' e', In (k', e') (cache c) -> k' <> key -> lastAccess e' < now) ->
  (exists k' e', In (k', e') (cache c) /\ k' <> key) ->
  fst (get key now c) = Some (html e)
  /\ map_has key (cache (evictLeastRecentlyUsed (snd (get key now c))))
     = true.
Proof.
  intros Hnd Hg Hlive Holder (k' & e' & Hin' & Hne').
  unfold get. rewrite Hg, Hlive. cbn [fst snd]. split; [reflexivity |].
  set (e1 := {| html := html e; timestamp := timestamp e;
                accessCount := accessCount e + 1; lastAccess := now |}).
  set (c1 := with_cache c (map_set key e1 (cache c))).
  assert (NoDup (keys (cache c1))) as Hnd1
    by (apply NoDup_keys_set; exact Hnd).
  assert (map_get key (cache c1) = Some e1) as Hg1
    by (apply map_get_set_same).
  assert (In (k', e') (cache c1)) as Hin1
    by (apply In_map_set_other; assumption).
  assert (cache c1 <> []) as Hne1 by (intros H; rewrite H in Hin1; exact Hin1).
  destruct (evict_least_recent c1 Hne1 Hnd1)
    as (pre & kv & ev & post & Hsplit & [Hpre Hpost] & Hev & Hstuck).
  assert (kv <> key) as Hkv.
  { intros ->.
    assert (ev = e1) as ->.
    { assert (map_get key (cache c1) = Some ev) as H.
      { apply In_map_get; [exact Hnd1 |]. rewrite Hsplit.
        apply in_or_app. right. now left. }
      congruence. }
    specialize (Holder k' e' Hin' Hne').
    rewrite Hsplit in Hin1. apply in_app_or in Hin1 as [H | [H | H]].
    - specialize (Hpre _ H). simpl in Hpre. lia.
    - injection H as H _. congruence.
    - specialize (Hpost _ H). simpl in Hpost. lia. }
  unfold map_has.
  destruct (String.eqb kv "") eqn:Ekv.
  - apply String.eqb_eq in Ekv. rewrite (Hstuck Ekv), Hg1. reflexivity.
  - rewrite Hev by (intros ->; discriminate). cbn [cache with_cache
      with_memory].
    assert (map_get key (pre ++ post) = Some e1) as Hkeep.
    { assert (map_delete kv (cache c1) = pre ++ post) as Hd.
      { rewrite Hsplit. apply map_delete_app_here.
        rewrite Hsplit, keys_app in Hnd1. simpl in Hnd1.
        apply NoDup_remove_2 in Hnd1. intros H. apply Hnd1.
        apply in_or_app. now left. }
      rewrite <- Hd, map_get_delete_other by (intros H; congruence).
      exact Hg1. }
    now rewrite Hkeep.
Qed.

Lemma recently_read_survives_witness :
  fst (get "key1" 20 twoKeys) = Some "<h1>Test 1</h1>"
  /\ map_has "key1"
       (cache (evictLeastRecentlyUsed (snd (get "key1" 20 twoKeys))))
     = true.
Proof.
  apply (recently_read_survives "key1" 20 twoKeys
           (stored "<h1>Test 1</h1>" 0)).
  - vm_compute. repeat constructor; simpl; intuition discriminate.
  - reflexivity.
  - reflexivity.
  - intros k' e' [H | [H | []]] Hk; injection H as <- <-;
      [congruence | simpl; lia].
  - exists "key2", (stored "<h1>Test 2</h1>" 10). split.
    + right. now left.
    + discriminate.
Defined.

End CacheExpiryAndEviction.

(** * Further properties of the message protocol *)

Section MessageKindClaims.

Import Messages MessageKinds.

Lemma isTag_string (s label : string) :
  isTag (JsString s) label = String.eqb s label.
Proof. reflexivity. Qed.

(** A value that is not an object is turned away by both validators and
    has no properties. *)
Lemma primitive_rejected (m : JsValue) :
  (forall fields, m <> JsObject fields) ->
  isExtensionToWebviewMessage m = false
  /\ isWebviewToExtensionMessage m = false
  /\ forall name, prop name m = JsUndefined.
Proof.
  intros Hm. unfold isExtensionToWebviewMessage, isWebviewToExtensionMessage.
  destruct m as [| | b | q | s | fields]; simpl.
  - auto.
  - auto.
  - destruct b; auto.
  - destruct (Qeq_bool q 0); auto.
  - destruct (String.eqb s ""); auto.
  - exfalso. now apply (Hm fields).
Qed.

Ltac primitive_case :=
  match goal with
  | |- context [isExtensionToWebviewMessage ?m] =>
      let H := fresh in
      assert (forall fields, m <> JsObject fields) as H by discriminate;
      destruct (primitive_rejected m H) as (-> & -> & _)
  end.

(** X12.  The two directions share one kind.  A value is accepted by both
    validators exactly when it is an [error] message with a string
    [message]; [isErrorMessage] and [isErrorReportMessage] are one test. *)
Theorem only_error_is_valid_both_ways (m : JsValue) :
  isExtensionToWebviewMessage m && isWebviewToExtensionMessage m
  = isErrorMessage m
  /\ isErrorMessage m = isErrorReportMessage m.
Proof.
  split; [| reflexivity].
  destruct m as [| | b | q | s | fields];
    try (primitive_case; reflexivity).
  unfold isExtensionToWebviewMessage, isWebviewToExtensionMessage,
    isErrorMessage, kindIs.
  cbn [falsy typeof String.eqb Ascii.eqb Bool.eqb negb orb prop].
  cbv zeta.
  destruct (lookup "type" fields) as [| | b | q | s | fs]; try reflexivity.
  rewrite !isTag_string.
  destruct (String.eqb_spec s "update") as [-> | _];
    [cbn; now rewrite andb_false_r |].
  destruct (String.eqb_spec s "error") as [-> | _].
  { cbn. destruct (isString (lookup "message" fields)); reflexivity. }
  destruct (String.eqb_spec s "scrollFromEditor") as [-> | _];
    [cbn; now rewrite andb_false_r |].
  destruct (String.eqb_spec s "config") as [-> | _];
    [cbn; now rewrite andb_false_r |].
  reflexivity.
Qed.

(** X11.  What [MessageSender] builds, the validators accept: each message for
    the surface passes [isExtensionToWebviewMessage], each message for the
    orchestrator passes [isWebviewToExtensionMessage], and apart from
    [error] messages neither passes the validator of the other
    direction. *)
Theorem sender_matches_validators :
  (forall m : ExtensionToWebviewMessage,
      isExtensionToWebviewMessage (toJs m) = true
      /\ isWebviewToExtensionMessage (toJs m)
         = match m with ErrorMessage _ => true | _ => false end)
  /\ (forall m : WebviewToExtensionMessage,
        isWebviewToExtensionMessage (build m) = true
        /\ isExtensionToWebviewMessage (build m)
           = match m with ErrorReportMessage _ => true | _ => false end).
Proof.
  split.
  - intros [html | message | percent line | style theme]; split; reflexivity.
  - intros [| percent [line |] | url | message | style | theme]; split;
      reflexivity.
Qed.

(** X13.  Each single-kind validator accepts what its sender builds and nothing
    of another kind. *)
Theorem kind_validators_tell_kinds_apart (m : JsValue) :
  (isUpdateMessage m = true ->
   isExtensionToWebviewMessage m = true /\ isErrorMessage m = false
   /\ isScrollFromEditorMessage m = false)
  /\ (isScrollFromEditorMessage m = true ->
      isExtensionToWebviewMessage m = true /\ isUpdateMessage m = false
      /\ isErrorMessage m = false)
  /\ (isScrollMessage m = true ->
      isWebviewToExtensionMessage m = true /\ isReadyMessage m = false
      /\ isOpenExternalMessage m = false /\ isErrorReportMessage m = false)
  /\ (isOpenExternalMessage m = true ->
      isWebviewToExtensionMessage m = true /\ isReadyMessage m = false
      /\ isScrollMessage m = false /\ isErrorReportMessage m = false)
  /\ (isReadyMessage m = true ->
      isWebviewToExtensionMessage m = true /\ isScrollMessage m = false
      /\ isOpenExternalMessage m = false /\ isErrorReportMessage m = false).
Proof.
  destruct m as [| | b | q | s | fields];
    try (repeat split; discriminate).
  unfold isUpdateMessage, isScrollFromEditorMessage, isScrollMessage,
    isOpenExternalMessage, isReadyMessage, isErrorMessage,
    isErrorReportMessage, isExtensionToWebviewMessage,
    isWebviewToExtensionMessage, kindIs.
  cbn [falsy typeof String.eqb Ascii.eqb Bool.eqb negb orb prop].
  cbv zeta.
  destruct (lookup "type" fields) as [| | b | q | s | fs];
    try (repeat split; discriminate).
  rewrite !isTag_string.
  repeat split;
    repeat match goal with
           | H : _ && _ = true |- _ => apply andb_true_iff in H as [? ?]
           | H : String.eqb s _ = true |- _ =>
               apply String.eqb_eq in H; subst s
           end;
    cbn; try reflexivity; try assumption;
    try (apply andb_true_iff; split; assumption).
Qed.

End MessageKindClaims.

(** * Further properties of the surface's scroll handling *)

Section SurfaceReports.

Import ScrollSpec ScrollMore.

Lemma clampScroll_range (s : Surface.t) (v : Q) :
  (0 <= Surface.clampScroll s v)%Q
  /\ (Surface.clampScroll s v
      <= Qmax 0 (Surface.scrollHeight s - Surface.clientHeight s))%Q.
Proof.
  unfold Surface.clampScroll. split.
  - apply Q.le_max_l.
  - apply Q.max_lub; [apply Q.le_max_l |].
    apply Q.le_min_r.
Qed.

Lemma scrollReport_unit (h c : Q) (s : Surface.t) :
  scrolledWithin h c s ->
  Messages.isWebviewToExtensionMessage (Surface.scrollReport s) = true
  /\ unitScroll (Surface.scrollReport s).
Proof.
  intros (Hh & Hc & H0 & H1). split; [reflexivity |].
  unfold unitScroll, Surface.scrollReport. rewrite Hh, Hc. cbv zeta.
  eexists. split; [reflexivity |].
  destruct (Qle_bool (h - c) 0) eqn:E.
  - split; [apply Qle_refl | discriminate].
  - assert (0 < h - c)%Q as Hpos.
    { apply Qnot_le_lt. intros H. apply Qle_bool_iff in H. congruence. }
    assert (Qmax 0 (h - c) == h - c)%Q as Hmax.
    { apply Q.max_r. apply Qlt_le_weak. exact Hpos. }
    split.
    + apply Qle_shift_div_l; [exact Hpos |]. rewrite Qmult_0_l. exact H0.
    + apply Qle_shift_div_r; [exact Hpos |]. rewrite Qmult_1_l.
      rewrite <- Hmax. exact H1.
Qed.

Lemma sound_fire (h c : Q) (x : Timers.Timer Surface.Action) (s : Surface.t) :
  sound h c s -> sound h c (Surface.fire x s).
Proof.
  intros [Hg Hp]. unfold Surface.fire.
  destruct (Timers.action x); split; simpl; try exact Hg; try exact Hp.
  apply Forall_app. split; [exact Hp |].
  constructor; [| constructor]. exact (scrollReport_unit h c s Hg).
Qed.

Lemma sound_advance (h c : Q) (fuel : nat) (now : Z) (s : Surface.t) :
  sound h c s -> sound h c (Surface.advance fuel now s).
Proof.
  revert s. induction fuel as [| fuel IH]; intros s Hs; simpl; [exact Hs |].
  destruct (Timers.nextDue now (Surface.timers s)) as [x |]; [| exact Hs].
  apply IH. now apply sound_fire.
Qed.

Lemma sound_onScroll (h c : Q) (now : Z) (s : Surface.t) :
  sound h c s -> sound h c (Surface.onScroll now s).
Proof.
  intros Hs. unfold Surface.onScroll.
  destruct (Surface.isScrollingFromEditor s); [exact Hs |].
  destruct Hs as [Hg Hp]. split; simpl; assumption.
Qed.

Lemma sound_handle (h c : Q) (now : Z) (e : Surface.Event) (s : Surface.t) :
  sound h c s -> sound h c (Surface.handle now e s).
Proof.
  intros Hs. destruct e as [percent line | top |]; simpl.
  - destruct Hs as [(Hh & Hc & H0 & H1) Hp].
    unfold Surface.handleScrollFromEditor. split; simpl; [| exact Hp].
    repeat split; simpl; try assumption.
    + apply clampScroll_range.
    + rewrite <- Hh, <- Hc. apply clampScroll_range.
  - apply sound_onScroll.
    destruct Hs as [(Hh & Hc & H0 & H1) Hp]. split; simpl; [| exact Hp].
    repeat split; simpl; try assumption.
    + apply clampScroll_range.
    + rewrite <- Hh, <- Hc. apply clampScroll_range.
  - now apply sound_onScroll.
Qed.

Lemma sound_run (h c : Q) (events : list (Z * Surface.Event)) (s : Surface.t) :
  sound h c s -> sound h c (Surface.run events s).
Proof.
  revert s. induction events as [| [now e] events IH]; intros s Hs; simpl;
    [exact Hs |].
  apply IH. apply sound_handle. now apply sound_advance.
Qed.

(** X18.  Whatever reaches the surface script (messages from the orchestrator
    with any fraction, user scrolls to any position, echoes) and whenever
    its timers run, every message it posts about scrolling passes
    [isWebviewToExtensionMessage] and is a [scroll] report whose fraction
    lies between 0 and 1; the messages posted by a click on a link and by
    the two selects pass the validator too. *)
Theorem surface_posts_valid_messages :
  (forall (scrollHeight clientHeight : Q)
          (events : list (Z * Surface.Event)) (now : Z),
      Forall (fun m => Messages.isWebviewToExtensionMessage m = true
                       /\ unitScroll m)
        (Surface.posted
           (Surface.runTimers now
              (Surface.run events (Surface.init scrollHeight clientHeight)))))
  /\ (forall (listeners : nat) (href : string),
        Forall (fun m => Messages.isWebviewToExtensionMessage m = true)
          (fst (onLinkClick listeners href)))
  /\ (forall value : string,
        Messages.isWebviewToExtensionMessage (onMarkdownStyleChange value)
        = true
        /\ Messages.isWebviewToExtensionMessage (onCodeThemeChange value)
           = true).
Proof.
  split; [| split].
  - intros h c events now.
    apply (sound_advance h c). apply sound_run.
    split; [| constructor].
    repeat split; simpl; try apply Qle_refl. apply Q.le_max_l.
  - intros listeners href. unfold onLinkClick, linkListener. cbn [fst].
    destruct (negb (String.eqb href "")
              && (String.prefix "http://" href
                  || String.prefix "https://" href)); cbn [fst].
    + induction listeners as [| n IH]; simpl; [constructor |].
      constructor; [reflexivity | exact IH].
    + induction listeners as [| n IH]; simpl; [constructor | exact IH].
  - intros value. split; reflexivity.
Qed.

End SurfaceReports.

(** * The debounce of the surface's scroll reports *)

Section SurfaceDebounce.

Import ScrollSpec ScrollMore.

Lemma armed_first (s : Surface.t) (t : Z) (top : Q) :
  atRest s ->
  armed s (Surface.handle t (Surface.UserScroll top) (Surface.runTimers t s))
    t top.
Proof.
  intros [Hflag Hpend].
  destruct s as [a H C st flag [n l] P]. simpl in Hflag, Hpend. subst flag l.
  unfold Surface.runTimers. simpl.
  unfold Surface.onScroll. simpl.
  destruct st as [h |]; simpl; eexists; eexists; reflexivity.
Qed.

Lemma armed_next (s0 s : Surface.t) (t t' : Z) (top top' : Q) :
  armed s0 s t top -> t <= t' < t + 100 ->
  armed s0
    (Surface.handle t' (Surface.UserScroll top') (Surface.runTimers t' s))
    t' top'.
Proof.
  intros (h & n & ->) Ht.
  unfold Surface.runTimers. simpl.
  unfold Timers.nextDue. simpl.
  assert ((t + 100 <=? t') = false) as -> by (apply Z.leb_gt; lia).
  simpl. unfold Surface.onScroll. simpl.
  rewrite Nat.eqb_refl. simpl.
  eexists. eexists. reflexivity.
Qed.

Lemma armed_fires (s0 s : Surface.t) (t now : Z) (top : Q) :
  armed s0 s t top -> t + 100 <= now ->
  Surface.posted (Surface.runTimers now s)
  = Surface.posted s0 ++ [reportAt s0 top].
Proof.
  intros (h & n & ->) Ht.
  unfold Surface.runTimers. simpl.
  unfold Timers.nextDue. simpl.
  assert ((t + 100 <=? now) = true) as -> by (apply Z.leb_le; lia).
  simpl. reflexivity.
Qed.

Lemma armed_burst (s0 s : Surface.t) (e : Z * Q) (rest : list (Z * Q)) :
  armed s0 s (fst e) (snd e) -> paced (fst e) rest ->
  armed s0 (Surface.run (userScrolls rest) s)
    (fst (lastOf e rest)) (snd (lastOf e rest)).
Proof.
  revert s e. induction rest as [| [t' top'] rest IH]; intros s e Ha Hp;
    simpl; [exact Ha |].
  destruct Hp as [Ht Hp].
  apply (IH _ (t', top')); [| exact Hp].
  simpl. apply (armed_next s0 s (fst e) t' (snd e) top' Ha Ht).
Qed.

(** X19.  The surface reports a burst of user scrolls once.  When the surface is
    at rest and the user's scroll events follow each other by less than
    100 ms, nothing is posted while the burst lasts, and 100 ms after its
    last event exactly one [scroll] report is posted: the one for the
    position of the last event. *)
Theorem burst_reports_once (s : Surface.t) (first : Z * Q)
    (rest : list (Z * Q)) (now : Z) :
  atRest s -> paced (fst first) rest ->
  fst (lastOf first rest) + 100 <= now ->
  Surface.posted (Surface.run (userScrolls (first :: rest)) s)
  = Surface.posted s
  /\ Surface.posted
       (Surface.runTimers now (Surface.run (userScrolls (first :: rest)) s))
     = Surface.posted s ++ [reportAt s (snd (lastOf first rest))].
Proof.
  intros Hrest Hp Hnow.
  assert (armed s (Surface.run (userScrolls (first :: rest)) s)
            (fst (lastOf first rest)) (snd (lastOf first rest))) as Ha.
  { simpl. apply armed_burst; [| exact Hp]. apply armed_first. exact Hrest. }
  split.
  - destruct Ha as (h & n & ->). reflexivity.
  - exact (armed_fires s _ _ now _ Ha Hnow).
Qed.

Lemma burst_reports_once_witness :
  Surface.posted
    (Surface.run (userScrolls [(0, 100%Q); (60, 300%Q); (130, 750%Q)])
       surface0)
  = Surface.posted surface0
  /\ Surface.posted
       (Surface.runTimers 230
          (Surface.run (userScrolls [(0, 100%Q); (60, 300%Q); (130, 750%Q)])
             surface0))
     = Surface.posted surface0 ++ [reportAt surface0 750].
Proof.
  apply (burst_reports_once surface0 (0, 100%Q) [(60, 300%Q); (130, 750%Q)]
           230).
  - split; reflexivity.
  - simpl. lia.
  - simpl. lia.
Defined.

End SurfaceDebounce.

(** * Further properties of the scroll synchronisation manager *)

Section ManagerMessages.

Import ScrollSpec ScrollMore.

(** X14.  What [syncWebviewScroll] posts.  With no visible range it posts
    nothing.  Otherwise, when the first visible line is a line of the
    document, it posts one [scrollFromEditor] message whose fraction lies
    between 0 and 1 and whose line is that line: a message of the shape the
    protocol table asks for, and one the surface-side validator accepts.
    On a document of at most one line the fraction is 0, not a division by
    zero. *)
Theorem sync_message_well_formed :
  (forall editor : ScrollSync.Editor,
      ScrollSync.visibleRanges editor = [] ->
      ScrollSync.syncWebviewScroll editor = [])
  /\ (forall (editor : ScrollSync.Editor) (first : Z) (rest : list Z),
        ScrollSync.visibleRanges editor = first :: rest ->
        0 <= first <= ScrollSync.lineCount editor - 1 ->
        exists percent,
          ScrollSync.syncWebviewScroll editor
          = [ScrollSync.Post
               (Messages.ScrollFromEditorMessage percent first)]
          /\ (0 <= percent)%Q /\ (percent <= 1)%Q
          /\ (ScrollSync.lineCount editor <= 1 -> percent = 0%Q)
          /\ Messages.tableShapeToSurface
               (Messages.toJs
                  (Messages.ScrollFromEditorMessage percent first))
          /\ Messages.isExtensionToWebviewMessage
               (Messages.toJs
                  (Messages.ScrollFromEditorMessage percent first)) = true).
Proof.
  split.
  - intros editor H. unfold ScrollSync.syncWebviewScroll. now rewrite H.
  - intros editor first rest Hv Hr.
    unfold ScrollSync.syncWebviewScroll. rewrite Hv. cbv zeta.
    eexists. split; [reflexivity |].
    assert ((0 <= (if 1 <? ScrollSync.lineCount editor
                   then inject_Z first
                        / inject_Z (ScrollSync.lineCount editor - 1)
                   else 0))%Q
            /\ ((if 1 <? ScrollSync.lineCount editor
                 then inject_Z first
                      / inject_Z (ScrollSync.lineCount editor - 1)
                 else 0) <= 1)%Q) as [H0 H1].
    { destruct (1 <? ScrollSync.lineCount editor) eqn:E.
      - apply Z.ltb_lt in E.
        assert (0 < inject_Z (ScrollSync.lineCount editor - 1))%Q as Hpos.
        { unfold Qlt. simpl. lia. }
        split.
        + apply Qle_shift_div_l; [exact Hpos |]. rewrite Qmult_0_l.
          unfold Qle. simpl. lia.
        + apply Qle_shift_div_r; [exact Hpos |]. rewrite Qmult_1_l.
          unfold Qle. simpl. lia.
      - split; [apply Qle_refl | discriminate]. }
    split; [exact H0 |]. split; [exact H1 |]. split.
    + intros Hn.
      assert ((1 <? ScrollSync.lineCount editor) = false) as ->
        by (apply Z.ltb_ge; lia).
      reflexivity.
    + split; [| reflexivity].
      split; [eexists; reflexivity |].
      right. right. left. split; [reflexivity |]. split.
      * eexists. split; [reflexivity |]. split; [exact H0 | exact H1].
      * exists (inject_Z first). split; [reflexivity |].
        unfold Messages.integral. rewrite Qfloor_Z. apply Qeq_refl.
Qed.

Lemma sync_message_well_formed_witness :
  exists percent,
    ScrollSync.syncWebviewScroll editor101
    = [ScrollSync.Post (Messages.ScrollFromEditorMessage percent 50)]
    /\ (0 <= percent)%Q /\ (percent <= 1)%Q
    /\ (ScrollSync.lineCount editor101 <= 1 -> percent = 0%Q)
    /\ Messages.tableShapeToSurface
         (Messages.toJs (Messages.ScrollFromEditorMessage percent 50))
    /\ Messages.isExtensionToWebviewMessage
         (Messages.toJs (Messages.ScrollFromEditorMessage percent 50)) = true.
Proof.
  apply (proj2 sync_message_well_formed editor101 50 []).
  - reflexivity.
  - simpl. lia.
Defined.

(** While every pending callback that lifts the manager's suppression is
    due later than [now], running the timers that are due leaves
    [isScrollingFromWebview] set. *)
Lemma advance_keeps_webview_flag (fuel : nat) (editor : ScrollSync.Editor)
    (now : Z) (st : ScrollSync.t * list ScrollSync.Output) :
  ScrollSync.isScrollingFromWebview (fst st) = true ->
  (forall x, In x (Timers.pending (ScrollSync.timers (fst st))) ->
             Timers.action x = ScrollSync.ResetScrollingFromWebview ->
             now < Timers.due x) ->
  ScrollSync.isScrollingFromWebview
    (fst (ScrollSync.advance fuel editor now st)) = true.
Proof.
  revert st. induction fuel as [| fuel IH]; intros [s out] Hflag Hlate;
    simpl in *; [exact Hflag |].
  destruct (Timers.nextDue now (ScrollSync.timers s)) as [x |] eqn:E;
    [| exact Hflag].
  destruct (nextDue_In _ _ _ E) as [Hin Hdue].
  unfold ScrollSync.fire.
  destruct (Timers.action x) eqn:Ea.
  - apply IH; simpl; [exact Hflag |].
    intros y Hy Hay. apply Hlate; [| exact Hay].
    apply filter_In in Hy as [Hy _]. exact Hy.
  - specialize (Hlate x Hin Ea). lia.
Qed.

(** X16.  The manager ignores the echo of its own [revealRange].  When a
    surface scroll is handled at time [t] and no earlier callback that
    lifts the suppression is still pending, a change of the editor's
    visible ranges before [t + 150] changes nothing: no debounce timer is
    armed, so nothing is sent back to the surface. *)
Theorem source_echo_suppressed (env env' : ScrollSync.Env)
    (editor captured : ScrollSync.Editor) (t t' : Z)
    (percent : Float64.Number) (line : option Float64.Number)
    (s : ScrollSync.t) :
  ScrollSync.tracked env s = Some editor ->
  ScrollSync.enableScrollSync env = true ->
  ScrollSync.isScrollingFromEditor s = false ->
  noWebviewResetPending s ->
  t <= t' < t + 150 ->
  let st := ScrollSync.runTimers captured t'
              (ScrollSync.handleWebviewScroll env t percent line s) in
  ScrollSync.onDidChangeTextEditorVisibleRanges env' t' (fst st) = fst st.
Proof.
  intros Htr Hen Hfl Hnone Ht st.
  assert (ScrollSync.isScrollingFromWebview (fst st) = true) as Hflag.
  { unfold st, ScrollSync.runTimers. apply advance_keeps_webview_flag.
    - unfold ScrollSync.handleWebviewScroll. rewrite Htr, Hen, Hfl. reflexivity.
    - unfold ScrollSync.handleWebviewScroll. rewrite Htr, Hen, Hfl. simpl.
      intros x Hx Hax. apply in_app_or in Hx as [Hx | [<- | []]].
      + exfalso. exact (Hnone x Hx Hax).
      + simpl. lia. }
  unfold ScrollSync.onDidChangeTextEditorVisibleRanges.
  destruct (ScrollSync.tracked env' (fst st)); [| reflexivity].
  now rewrite Hflag.
Qed.

Lemma source_echo_suppressed_witness :
  ScrollSync.onDidChangeTextEditorVisibleRanges (envAt 50) 40
    (fst (ScrollSync.runTimers editor101 40
            (ScrollSync.handleWebviewScroll env101 0
               (Float64.Finite (1 # 2)) None (ScrollSync.new "doc"))))
  = fst (ScrollSync.runTimers editor101 40
           (ScrollSync.handleWebviewScroll env101 0
              (Float64.Finite (1 # 2)) None (ScrollSync.new "doc"))).
Proof.
  apply (source_echo_suppressed env101 (envAt 50) editor101 editor101 0 40
           (Float64.Finite (1 # 2)) None (ScrollSync.new "doc")).
  - reflexivity.
  - reflexivity.
  - reflexivity.
  - intros x [].
  - lia.
Defined.

End ManagerMessages.

(** * The manager's debounce timer *)

Section ManagerTimers.

Import ScrollSpec ScrollMore.

Lemma NoDup_map_filter {A B : Type} (f : A -> B) (g : A -> bool)
    (l : list A) :
  NoDup (List.map f l) -> NoDup (List.map f (filter g l)).
Proof.
  induction l as [| x l IH]; simpl; intros H; [constructor |].
  inversion H as [| ? ? Hx Hl]; subst.
  destruct (g x); simpl; [| now apply IH].
  constructor; [| now apply IH].
  intros Hin. apply Hx. apply in_map_iff in Hin as (y & Hy & Hin).
  apply filter_In in Hin as [Hin _]. apply in_map_iff. now exists y.
Qed.

Lemma tidy_new (document : string) : tidy (ScrollSync.new document).
Proof.
  unfold tidy. simpl. split; [constructor |]. split; intros x [].
Qed.

(** Clearing timers keeps the table tidy. *)
Lemma tidy_cleared (s s' : ScrollSync.t)
    (g : Timers.Timer ScrollSync.Action -> bool) :
  tidy s ->
  Timers.pending (ScrollSync.timers s')
  = filter g (Timers.pending (ScrollSync.timers s)) ->
  Timers.nextId (ScrollSync.timers s') = Timers.nextId (ScrollSync.timers s) ->
  ScrollSync.scrollTimeout s' = ScrollSync.scrollTimeout s ->
  tidy s'.
Proof.
  intros (Hnd & Hlt & Hsync) Hp Hn Hh. unfold tidy.
  rewrite Hp, Hn, Hh. split; [now apply NoDup_map_filter |].
  split; intros x Hx; apply filter_In in Hx as [Hx _]; auto.
Qed.

Lemma tidy_fire (editor : ScrollSync.Editor)
    (x : Timers.Timer ScrollSync.Action) (s : ScrollSync.t) :
  tidy s -> tidy (fst (ScrollSync.fire editor x s)).
Proof.
  intros H. unfold ScrollSync.fire.
  destruct (Timers.action x); simpl;
    eapply tidy_cleared; try exact H; reflexivity.
Qed.

Lemma tidy_advance (fuel : nat) (editor : ScrollSync.Editor) (now : Z)
    (st : ScrollSync.t * list ScrollSync.Output) :
  tidy (fst st) -> tidy (fst (ScrollSync.advance fuel editor now st)).
Proof.
  revert st. induction fuel as [| fuel IH]; intros [s out] H; simpl in *;
    [exact H |].
  destruct (Timers.nextDue now (ScrollSync.timers s)) as [x |]; [| exact H].
  pose proof (tidy_fire editor x s H) as Hf.
  destruct (ScrollSync.fire editor x s) as [s' out']. now apply IH.
Qed.

Lemma tidy_listener (env : ScrollSync.Env) (now : Z) (s : ScrollSync.t) :
  tidy s -> tidy (ScrollSync.onDidChangeTextEditorVisibleRanges env now s).
Proof.
  intros H. unfold ScrollSync.onDidChangeTextEditorVisibleRanges.
  destruct (ScrollSync.tracked env s) as [editor |]; [| exact H].
  destruct (ScrollSync.isScrollingFromWebview s); [exact H |].
  destruct (negb (ScrollSync.enableScrollSync env)); [exact H |].
  destruct H as (Hnd & Hlt & Hsync). unfold tidy. simpl.
  assert (forall x,
             In x (Timers.pending
                     (Timers.clearIfSet (ScrollSync.scrollTimeout s)
                        (ScrollSync.timers s))) ->
             In x (Timers.pending (ScrollSync.timers s))
             /\ isSync x = false) as Hold.
  { intros x Hx. destruct (ScrollSync.scrollTimeout s) as [h |] eqn:Eh;
      simpl in Hx.
    - apply filter_In in Hx as [Hx Hne]. split; [exact Hx |].
      destruct (isSync x) eqn:Es; [| reflexivity].
      specialize (Hsync x Hx Es). injection Hsync as ->.
      rewrite Nat.eqb_refl in Hne. discriminate.
    - split; [exact Hx |].
      destruct (isSync x) eqn:Es; [| reflexivity].
      specialize (Hsync x Hx Es). discriminate. }
  assert (Timers.nextId
            (Timers.clearIfSet (ScrollSync.scrollTimeout s)
               (ScrollSync.timers s))
          = Timers.nextId (ScrollSync.timers s)) as Hn.
  { destruct (ScrollSync.scrollTimeout s); reflexivity. }
  rewrite Hn. split; [| split].
  - rewrite map_app. simpl. apply NoDup_app; [| repeat constructor; intros [] |].
    + destruct (ScrollSync.scrollTimeout s); simpl;
        [now apply NoDup_map_filter | exact Hnd].
    + intros a Ha [<- | []].
      apply in_map_iff in Ha as (y & Hy & Hin).
      destruct (Hold y Hin) as [Hin' _]. specialize (Hlt y Hin'). lia.
  - intros x Hx. apply in_app_or in Hx as [Hx | [<- | []]].
    + destruct (Hold x Hx) as [Hin _]. specialize (Hlt x Hin). lia.
    + simpl. lia.
  - intros x Hx Es. apply in_app_or in Hx as [Hx | [<- | []]].
    + destruct (Hold x Hx) as [_ Hno]. congruence.
    + reflexivity.
Qed.

Lemma tidy_webview (env : ScrollSync.Env) (now : Z)
    (percent : Float64.Number) (line : option Float64.Number)
    (s : ScrollSync.t) :
  tidy s ->
  tidy (fst (ScrollSync.handleWebviewScroll env now percent line s)).
Proof.
  intros H. unfold ScrollSync.handleWebviewScroll.
  destruct (ScrollSync.tracked env s) as [editor |]; [| exact H].
  destruct (negb (ScrollSync.enableScrollSync env)); [exact H |].
  destruct (ScrollSync.isScrollingFromEditor s); [exact H |].
  destruct H as (Hnd & Hlt & Hsync). unfold tidy. simpl.
  split; [| split].
  - rewrite map_app. simpl. apply NoDup_app; [exact Hnd | |].
    + repeat constructor. intros [].
    + intros a Ha [<- | []].
      apply in_map_iff in Ha as (y & Hy & Hin). specialize (Hlt y Hin). lia.
  - intros x Hx. apply in_app_or in Hx as [Hx | [<- | []]].
    + specialize (Hlt x Hx). lia.
    + simpl. lia.
  - intros x Hx Es. apply in_app_or in Hx as [Hx | [<- | []]].
    + now apply Hsync.
    + discriminate.
Qed.

Lemma tidy_run (steps : list ScrollSync.Step)
    (st : ScrollSync.t * list ScrollSync.Output) :
  tidy (fst st) -> tidy (fst (ScrollSync.run steps st)).
Proof.
  revert st. induction steps as [| x steps IH]; intros st H; simpl;
    [exact H |].
  pose proof (tidy_advance
                (List.length (Timers.pending (ScrollSync.timers (fst st))))
                (ScrollSync.captured x) (ScrollSync.at_time x) st H) as H1.
  fold (ScrollSync.runTimers (ScrollSync.captured x) (ScrollSync.at_time x) st)
    in H1.
  destruct (ScrollSync.runTimers (ScrollSync.captured x)
              (ScrollSync.at_time x) st) as [s1 out1].
  simpl in H1.
  assert (tidy (fst (ScrollSync.handle x s1))) as H2.
  { unfold ScrollSync.handle. destruct (ScrollSync.event x); simpl.
    - now apply tidy_listener.
    - now apply tidy_webview. }
  destruct (ScrollSync.handle x s1) as [s2 out2]. now apply IH.
Qed.

(** Timers that share no handle and all carry one handle are at most
    one. *)
Lemma same_handle_once {A : Type} (l : list (Timers.Timer A)) (h : nat) :
  NoDup (List.map Timers.tid l) ->
  (forall x, In x l -> Timers.tid x = h) ->
  (List.length l <= 1)%nat.
Proof.
  destruct l as [| x [| y l]]; simpl; intros Hnd Hall; try lia.
  exfalso. inversion Hnd as [| ? ? Hx _]; subst. apply Hx. left.
  rewrite (Hall x), (Hall y); auto.
Qed.

Lemma tidy_one_sync (s : ScrollSync.t) :
  tidy s ->
  (List.length (filter isSync (Timers.pending (ScrollSync.timers s))) <= 1)%nat.
Proof.
  intros (Hnd & _ & Hsync).
  destruct (ScrollSync.scrollTimeout s) as [h |] eqn:Eh.
  - apply (same_handle_once _ h); [now apply NoDup_map_filter |].
    intros x Hx. apply filter_In in Hx as [Hx Es].
    specialize (Hsync x Hx Es). congruence.
  - destruct (filter isSync (Timers.pending (ScrollSync.timers s)))
      as [| x l] eqn:E; simpl; [lia |].
    assert (In x (filter isSync (Timers.pending (ScrollSync.timers s))))
      as Hx by (rewrite E; now left).
    apply filter_In in Hx as [Hx Es]. specialize (Hsync x Hx Es).
    discriminate.
Qed.

(** Callbacks that only lift the suppression post nothing. *)
Lemma advance_without_sync (fuel : nat) (editor : ScrollSync.Editor)
    (now : Z) (st : ScrollSync.t * list ScrollSync.Output) :
  (forall x, In x (Timers.pending (ScrollSync.timers (fst st))) ->
             isSync x = false) ->
  snd (ScrollSync.advance fuel editor now st) = snd st.
Proof.
  revert st. induction fuel as [| fuel IH]; intros [s out] Hno; simpl in *;
    [reflexivity |].
  destruct (Timers.nextDue now (ScrollSync.timers s)) as [x |] eqn:E;
    [| reflexivity].
  destruct (nextDue_In _ _ _ E) as [Hin _].
  pose proof (Hno x Hin) as Hx. unfold isSync in Hx.
  unfold ScrollSync.fire.
  destruct (Timers.action x); [discriminate |].
  rewrite IH; simpl; [now rewrite app_nil_r |].
  intros y Hy. apply filter_In in Hy as [Hy _]. now apply Hno.
Qed.

(** X17.  The manager keeps at most one debounce callback pending, whatever
    events reach it and whenever its timers run; and once [dispose] has
    run, no callback left behind posts anything to the surface. *)
Theorem manager_debounce_timer (document : string)
    (steps : list ScrollSync.Step) (editor : ScrollSync.Editor) (now : Z) :
  let st := ScrollSync.run steps (ScrollSync.new document, []) in
  (List.length
     (filter isSync (Timers.pending (ScrollSync.timers (fst st)))) <= 1)%nat
  /\ snd (ScrollSync.runTimers editor now
            (ScrollSync.dispose (fst st), snd st))
     = snd st.
Proof.
  intros st.
  assert (tidy (fst st)) as Ht.
  { unfold st. apply tidy_run. apply tidy_new. }
  split; [now apply tidy_one_sync |].
  unfold ScrollSync.runTimers.
  rewrite advance_without_sync; [reflexivity |].
  simpl. intros x Hx.
  destruct Ht as (_ & _ & Hsync).
  destruct (isSync x) eqn:Es; [| reflexivity].
  destruct (ScrollSync.scrollTimeout (fst st)) as [h |] eqn:Eh; simpl in Hx.
  - apply filter_In in Hx as [Hx Hne]. specialize (Hsync x Hx Es).
    injection Hsync as ->. rewrite Nat.eqb_refl in Hne. discriminate.
  - specialize (Hsync x Hx Es). discriminate.
Qed.

End ManagerTimers.

(** * The debounce of the manager's scroll messages *)

Section ManagerDebounce.

Import ScrollSpec ScrollMore.

Lemma listener_arms (s0 s : ScrollSync.t) (x : ScrollSync.Step)
    (out : list ScrollSync.Output) :
  sourceScroll (ScrollSync.doc s0) x ->
  ScrollSync.doc s = ScrollSync.doc s0 ->
  ScrollSync.isScrollingFromWebview s = false ->
  (forall h, ScrollSync.scrollTimeout s = Some h ->
             Timers.pending
               (Timers.clearTimeout h (ScrollSync.timers s)) = []) ->
  (ScrollSync.scrollTimeout s = None ->
   Timers.pending (ScrollSync.timers s) = []) ->
  exists s', ScrollSync.handle x s = (s', [])
             /\ managerArmed s0 s' (ScrollSync.at_time x).
Proof.
  intros (He & Hen & editor & Hact & Hdoc) Hd Hw Hsome Hnone.
  unfold ScrollSync.handle. rewrite He.
  unfold ScrollSync.onDidChangeTextEditorVisibleRanges, ScrollSync.tracked.
  rewrite Hact, Hdoc, Hd, String.eqb_refl, Hw, Hen. simpl.
  eexists. split; [reflexivity |].
  unfold managerArmed.
  destruct (ScrollSync.scrollTimeout s) as [h |] eqn:Eh; simpl.
  - specialize (Hsome h eq_refl). simpl in Hsome. rewrite Hsome. simpl.
    eexists. eexists. eexists. reflexivity.
  - rewrite (Hnone eq_refl). simpl.
    eexists. eexists. eexists. reflexivity.
Qed.

Lemma managerArmed_next (s0 s : ScrollSync.t) (t : Z) (x : ScrollSync.Step)
    (out : list ScrollSync.Output) :
  managerArmed s0 s t ->
  sourceScroll (ScrollSync.doc s0) x ->
  t <= ScrollSync.at_time x < t + 100 ->
  exists s',
    ScrollSync.run [x] (s, out) = (s', out)
    /\ managerArmed s0 s' (ScrollSync.at_time x).
Proof.
  intros (h & n & e & ->) Hx Ht.
  unfold ScrollSync.run, ScrollSync.runTimers. simpl.
  unfold Timers.nextDue. simpl.
  assert ((t + 100 <=? ScrollSync.at_time x) = false) as ->
    by (apply Z.leb_gt; lia).
  destruct (listener_arms s0
              {| ScrollSync.doc := ScrollSync.doc s0;
                 ScrollSync.isScrollingFromEditor := true;
                 ScrollSync.isScrollingFromWebview := false;
                 ScrollSync.scrollTimeout := Some h;
                 ScrollSync.timers :=
                   Timers.mkTable n
                     [Timers.mkTimer h (t + 100)
                        (ScrollSync.SyncWebviewScroll e)] |} x out Hx)
    as (s' & Hs' & Ha); try reflexivity.
  - intros h' [= <-]. simpl. now rewrite Nat.eqb_refl.
  - discriminate.
  - rewrite Hs'. exists s'. rewrite app_nil_r. split; [reflexivity | exact Ha].
Qed.

Lemma managerArmed_burst (s0 s : ScrollSync.t) (t : Z)
    (rest : list ScrollSync.Step) (out : list ScrollSync.Output) :
  managerArmed s0 s t -> pacedSteps (ScrollSync.doc s0) t rest ->
  exists s',
    ScrollSync.run rest (s, out) = (s', out)
    /\ managerArmed s0 s' (lastTime t rest).
Proof.
  revert s t. induction rest as [| x rest IH]; intros s t Ha Hp; simpl.
  - exists s. split; [reflexivity | exact Ha].
  - destruct Hp as (Hx & Ht & Hp).
    destruct (managerArmed_next s0 s t x out Ha Hx Ht) as (s1 & Hrun & Ha1).
    simpl in Hrun.
    destruct (ScrollSync.runTimers (ScrollSync.captured x)
                (ScrollSync.at_time x) (s, out)) as [sa outa].
    destruct (ScrollSync.handle x sa) as [sb outb].
    injection Hrun as -> ->.
    exact (IH s1 (ScrollSync.at_time x) Ha1 Hp).
Qed.

(** X15.  The manager reports a burst of source scrolls once.  When the manager
    is at rest and the editor's visible ranges change several times, each
    change less than 100 ms after the one before, nothing is posted while
    the burst lasts; 100 ms after the last change the callback posts what
    [syncWebviewScroll] computes from the editor as it is then, once, and
    [isScrollingFromEditor] is lifted. *)
Theorem source_burst_posts_once (s : ScrollSync.t) (first : ScrollSync.Step)
    (rest : list ScrollSync.Step) (out : list ScrollSync.Output)
    (editor : ScrollSync.Editor) (now : Z) :
  managerAtRest s ->
  sourceScroll (ScrollSync.doc s) first ->
  pacedSteps (ScrollSync.doc s) (ScrollSync.at_time first) rest ->
  lastTime (ScrollSync.at_time first) rest + 100 <= now ->
  let st := ScrollSync.run (first :: rest) (s, out) in
  snd st = out
  /\ snd (ScrollSync.runTimers editor now st)
     = out ++ ScrollSync.syncWebviewScroll editor
  /\ ScrollSync.isScrollingFromEditor
       (fst (ScrollSync.runTimers editor now st)) = false.
Proof.
  intros [Hw Hpend] Hfirst Hp Hnow st.
  assert (exists s', st = (s', out)
                     /\ managerArmed s s'
                          (lastTime (ScrollSync.at_time first) rest))
    as (s' & Hst & Ha).
  { unfold st. simpl.
    assert (ScrollSync.runTimers (ScrollSync.captured first)
              (ScrollSync.at_time first) (s, out) = (s, out)) as ->.
    { unfold ScrollSync.runTimers. simpl. rewrite Hpend. reflexivity. }
    destruct (listener_arms s s first out Hfirst eq_refl Hw)
      as (s1 & Hs1 & Ha1).
    - intros h _. simpl. rewrite Hpend. reflexivity.
    - intros _. exact Hpend.
    - rewrite Hs1, app_nil_r.
      exact (managerArmed_burst s s1 _ rest out Ha1 Hp). }
  rewrite Hst. destruct Ha as (h & n & e & ->).
  split; [reflexivity |].
  unfold ScrollSync.runTimers. simpl.
  unfold Timers.nextDue. simpl.
  assert ((lastTime (ScrollSync.at_time first) rest + 100 <=? now) = true)
    as -> by (apply Z.leb_le; lia).
  simpl. split; reflexivity.
Qed.

Lemma source_burst_posts_once_witness :
  snd (ScrollSync.run quickScrolls (ScrollSync.new "doc", [])) = []
  /\ snd (ScrollSync.runTimers (editorAt 20) 60
            (ScrollSync.run quickScrolls (ScrollSync.new "doc", [])))
     = [] ++ ScrollSync.syncWebviewScroll (editorAt 20)
  /\ ScrollSync.isScrollingFromEditor
       (fst (ScrollSync.runTimers (editorAt 20) 60
               (ScrollSync.run quickScrolls (ScrollSync.new "doc", []))))
     = false.
Proof.
  apply (source_burst_posts_once (ScrollSync.new "doc")
           (ScrollSync.mkStep (-100) (envAt 10) (editorAt 10)
              ScrollSync.VisibleRangesChanged)
           [ScrollSync.mkStep (-40) (envAt 20) (editorAt 10)
              ScrollSync.VisibleRangesChanged]).
  - split; reflexivity.
  - split; [reflexivity |]. split; [reflexivity |].
    eexists. split; reflexivity.
  - simpl. split; [| lia]. split; [reflexivity |]. split; [reflexivity |].
    eexists. split; reflexivity.
  - simpl. lia.
Defined.

End ManagerDebounce.

(** * Further properties of the patch engine *)

Section PatchAttributes.

Import PatchSpec PatchMore.

Lemma getAttribute_not_in (a : Patch.Attrs) (name : string) :
  ~ In name (List.map fst a) -> Patch.getAttribute name a = None.
Proof.
  induction a as [| [k v] a IH]; simpl; intros H; [reflexivity |].
  destruct (String.eqb_spec k name) as [-> | Hne].
  - exfalso. apply H. now left.
  - apply IH. intros Hin. apply H. now right.
Qed.

Lemma names_removeAttribute (k x : string) (a : Patch.Attrs) :
  In x (List.map fst (Patch.removeAttribute k a)) -> In x (List.map fst a).
Proof.
  induction a as [| [k' v'] a IH]; simpl; [auto |].
  destruct (String.eqb k' k); simpl; [now right |].
  intros [H | H]; [now left | right; now apply IH].
Qed.

Lemma NoDup_removeAttribute (k : string) (a : Patch.Attrs) :
  NoDup (List.map fst a) -> NoDup (List.map fst (Patch.removeAttribute k a)).
Proof.
  induction a as [| [k' v'] a IH]; simpl; intros H; [constructor |].
  inversion H as [| ? ? Hx Hl]; subst.
  destruct (String.eqb k' k); simpl; [exact Hl |].
  constructor; [| now apply IH].
  intros Hin. apply Hx. eapply names_removeAttribute. exact Hin.
Qed.

Lemma getAttribute_removeAttribute (k name : string) (a : Patch.Attrs) :
  NoDup (List.map fst a) ->
  Patch.getAttribute name (Patch.removeAttribute k a)
  = if String.eqb k name then None else Patch.getAttribute name a.
Proof.
  induction a as [| [k' v'] a IH]; simpl; intros H.
  - now destruct (String.eqb k name).
  - inversion H as [| ? ? Hx Hl]; subst.
    destruct (String.eqb_spec k' k) as [-> | Hne].
    + destruct (String.eqb_spec k name) as [-> | Hn]; [| reflexivity].
      now apply getAttribute_not_in.
    + simpl. destruct (String.eqb_spec k' name) as [-> | Hn'].
      * destruct (String.eqb_spec k name) as [-> | _];
          [congruence | reflexivity].
      * now apply IH.
Qed.

Lemma getAttribute_setAttribute (k v name : string) (a : Patch.Attrs) :
  Patch.getAttribute name (Patch.setAttribute k v a)
  = if String.eqb k name then Some v else Patch.getAttribute name a.
Proof.
  induction a as [| [k' v'] a IH]; simpl.
  - reflexivity.
  - destruct (String.eqb_spec k' k) as [-> | Hne]; simpl.
    + now destruct (String.eqb k name).
    + destruct (String.eqb_spec k' name) as [-> | Hn'].
      * destruct (String.eqb_spec k name) as [-> | _];
          [congruence | reflexivity].
      * exact IH.
Qed.

Lemma names_setAttribute (k v x : string) (a : Patch.Attrs) :
  In x (List.map fst (Patch.setAttribute k v a)) ->
  x = k \/ In x (List.map fst a).
Proof.
  induction a as [| [k' v'] a IH]; simpl.
  - intros [H | []]. now left.
  - destruct (String.eqb k' k); simpl.
    + intros [H | H]; right; [now left | now right].
    + intros [H | H]; [right; now left |].
      destruct (IH H) as [Hk | Hin]; [now left | right; now right].
Qed.

Lemma NoDup_setAttribute (k v : string) (a : Patch.Attrs) :
  NoDup (List.map fst a) -> NoDup (List.map fst (Patch.setAttribute k v a)).
Proof.
  induction a as [| [k' v'] a IH]; simpl; intros H.
  - constructor; [intros [] | constructor].
  - inversion H as [| ? ? Hx Hl]; subst.
    destruct (String.eqb_spec k' k) as [-> | Hne]; simpl.
    + constructor; assumption.
    + constructor; [| now apply IH].
      intros Hin. destruct (names_setAttribute _ _ _ _ Hin) as [Hk | Hin'];
        [congruence | now apply Hx].
Qed.

Lemma stale_fold (toAttrs : Patch.Attrs) (l cur : Patch.Attrs) :
  NoDup (List.map fst cur) ->
  let r := fold_left
             (fun (cur : Patch.Attrs) (attr : string * string) =>
                if Patch.hasAttribute (fst attr) toAttrs then cur
                else Patch.removeAttribute (fst attr) cur) l cur in
  NoDup (List.map fst r)
  /\ forall name,
       Patch.getAttribute name r
       = if existsb (fun x => String.eqb (fst x) name) l
            && negb (Patch.hasAttribute name toAttrs)
         then None else Patch.getAttribute name cur.
Proof.
  revert cur. induction l as [| x l IH]; intros cur Hnd; simpl.
  - split; [exact Hnd | reflexivity].
  - destruct (Patch.hasAttribute (fst x) toAttrs) eqn:Eh.
    + destruct (IH cur Hnd) as [Hn Hg]. split; [exact Hn |].
      intros name. rewrite Hg.
      destruct (String.eqb_spec (fst x) name) as [<- | _]; simpl;
        [| reflexivity].
      rewrite Eh. simpl. now rewrite andb_false_r.
    + destruct (IH (Patch.removeAttribute (fst x) cur)
                  (NoDup_removeAttribute _ _ Hnd)) as [Hn Hg].
      split; [exact Hn |].
      intros name. rewrite Hg.
      rewrite (getAttribute_removeAttribute _ _ _ Hnd).
      destruct (String.eqb_spec (fst x) name) as [<- | _]; simpl;
        [| reflexivity].
      rewrite Eh. simpl.
      now destruct (existsb (fun x0 => String.eqb (fst x0) (fst x)) l).
Qed.

Lemma removeStale_get (fromAttrs toAttrs : Patch.Attrs) (name : string) :
  NoDup (List.map fst fromAttrs) ->
  NoDup (List.map fst (Patch.removeStale fromAttrs toAttrs))
  /\ Patch.getAttribute name (Patch.removeStale fromAttrs toAttrs)
     = if Patch.hasAttribute name toAttrs
       then Patch.getAttribute name fromAttrs else None.
Proof.
  intros Hnd. unfold Patch.removeStale.
  destruct (stale_fold toAttrs (rev fromAttrs) fromAttrs Hnd) as [Hn Hg].
  split; [exact Hn |]. rewrite Hg.
  destruct (Patch.hasAttribute name toAttrs); simpl;
    [now rewrite andb_false_r |].
  rewrite andb_true_r.
  destruct (existsb (fun x => String.eqb (fst x) name) (rev fromAttrs))
    eqn:E; [reflexivity |].
  apply getAttribute_not_in. intros Hin.
  apply in_map_iff in Hin as ([k v] & Hk & Hin). simpl in Hk. subst k.
  assert (existsb (fun x => String.eqb (fst x) name) (rev fromAttrs) = true)
    as Ht.
  { apply existsb_exists. exists (name, v). split.
    - apply in_rev. now rewrite rev_involutive.
    - simpl. apply String.eqb_refl. }
  congruence.
Qed.

Lemma copy_fold (l cur : Patch.Attrs) :
  NoDup (List.map fst l) -> NoDup (List.map fst cur) ->
  let r := fold_left
             (fun (cur : Patch.Attrs) (attr : string * string) =>
                match Patch.getAttribute (fst attr) cur with
                | Some v =>
                    if String.eqb v (snd attr) then cur
                    else Patch.setAttribute (fst attr) (snd attr) cur
                | None => Patch.setAttribute (fst attr) (snd attr) cur
                end) l cur in
  NoDup (List.map fst r)
  /\ forall name,
       Patch.getAttribute name r
       = match Patch.getAttribute name l with
         | Some v => Some v
         | None => Patch.getAttribute name cur
         end.
Proof.
  revert cur. induction l as [| [k v] l IH]; intros cur Hl Hnd; simpl.
  - split; [exact Hnd | reflexivity].
  - inversion Hl as [| ? ? Hk Hl']; subst.
    set (cur' := match Patch.getAttribute k cur with
                 | Some v' =>
                     if String.eqb v' v then cur
                     else Patch.setAttribute k v cur
                 | None => Patch.setAttribute k v cur
                 end).
    assert (NoDup (List.map fst cur')
            /\ forall name,
                 Patch.getAttribute name cur'
                 = if String.eqb k name then Some v
                   else Patch.getAttribute name cur) as [Hn' Hg'].
    { unfold cur'. destruct (Patch.getAttribute k cur) as [v' |] eqn:Eg.
      - destruct (String.eqb_spec v' v) as [-> | Hne].
        + split; [exact Hnd |]. intros name.
          destruct (String.eqb_spec k name) as [<- | _];
            [exact Eg | reflexivity].
        + split; [now apply NoDup_setAttribute |].
          intros name. apply getAttribute_setAttribute.
      - split; [now apply NoDup_setAttribute |].
        intros name. apply getAttribute_setAttribute. }
    destruct (IH cur' Hl' Hn') as [Hn Hg]. split; [exact Hn |].
    intros name. rewrite Hg, Hg'.
    destruct (String.eqb_spec k name) as [<- | _]; [| reflexivity].
    now rewrite (getAttribute_not_in l k Hk).
Qed.

Lemma morphAttrs_get (fromAttrs toAttrs : Patch.Attrs) :
  NoDup (List.map fst fromAttrs) -> NoDup (List.map fst toAttrs) ->
  sameAttributes (Patch.morphAttrs fromAttrs toAttrs) toAttrs
  /\ NoDup (List.map fst (Patch.morphAttrs fromAttrs toAttrs)).
Proof.
  intros Hf Ht. unfold Patch.morphAttrs, Patch.copyAttrs.
  destruct (copy_fold toAttrs (Patch.removeStale fromAttrs toAttrs) Ht
              (proj1 (removeStale_get fromAttrs toAttrs "" Hf)))
    as [Hn Hg].
  split; [| exact Hn].
  intros name. rewrite Hg.
  destruct (Patch.getAttribute name toAttrs) as [v |] eqn:E; [reflexivity |].
  rewrite (proj2 (removeStale_get fromAttrs toAttrs name Hf)).
  unfold Patch.hasAttribute. now rewrite E.
Qed.

(** X22.  The two attribute loops of [morphDom] leave the element with exactly
    the attributes of the new node: every name has the value it has there,
    a name the new node lacks is gone, and no name occurs twice. *)
Theorem morphed_attributes_agree (fromAttrs toAttrs : Patch.Attrs) :
  NoDup (List.map fst fromAttrs) -> NoDup (List.map fst toAttrs) ->
  sameAttributes (Patch.morphAttrs fromAttrs toAttrs) toAttrs
  /\ NoDup (List.map fst (Patch.morphAttrs fromAttrs toAttrs)).
Proof. exact (morphAttrs_get fromAttrs toAttrs). Qed.

Lemma morphed_attributes_agree_witness :
  sameAttributes
    (Patch.morphAttrs [("class", "a"); ("id", "s")] [("id", "t")])
    [("id", "t")]
  /\ NoDup (List.map fst
              (Patch.morphAttrs [("class", "a"); ("id", "s")] [("id", "t")])).
Proof.
  apply (morphed_attributes_agree [("class", "a"); ("id", "s")] [("id", "t")]).
  - simpl. repeat constructor; simpl; intuition discriminate.
  - simpl. repeat constructor; simpl; intuition discriminate.
Defined.

End PatchAttributes.

(** * What [morphDom] brings about *)

Section PatchAgreement.

Import PatchSpec PatchMore.

Variable parseHTML : string -> string -> list Patch.Node.
Variable serializeHTML : list Patch.Node -> string.

Lemma agrees_refl : forall t, agrees t t.
Proof.
  fix IH 1. intros [tag attrs children | v | v]; simpl.
  - split; [intros name; reflexivity |].
    induction children as [| c children IHc]; [exact I |].
    split; [apply IH | exact IHc].
  - reflexivity.
  - exact I.
Qed.

Lemma morphDom_agrees :
  forall f t, wellFormed f -> wellFormed t -> near f t ->
              agrees (Patch.morphDom parseHTML serializeHTML f t) t.
Proof.
  fix IH 1. intros [tag fa fcs | v | v] [tag' ta tcs | v' | v'] Hf Ht Hn;
    try apply agrees_refl.
  - destruct Hf as [Hfa Hfc]. destruct Ht as [Hta Htc].
    destruct Hn as [Hfar Hnc].
    cbn [Patch.morphDom]. rewrite Hfar. cbn [agrees].
    split; [exact (proj1 (morphAttrs_get fa ta Hfa Hta)) |].
    clear Hfar. revert fcs tcs Hfc Htc Hnc.
    fix IHc 1. intros [| f' fs'] [| t' ts'] Hfc Htc Hnc.
    + exact I.
    + exact (proj2 (agrees_refl (Patch.Element "" [] (t' :: ts')))).
    + exact I.
    + destruct Hfc as [Hf' Hfs]. destruct Htc as [Ht' Hts].
      destruct Hnc as [Hn' Hns].
      split; [exact (IH f' t' Hf' Ht' Hn') |].
      exact (IHc fs' ts' Hfs Hts Hns).
  - cbn [Patch.morphDom].
    destruct (String.eqb_spec v v') as [-> | _]; reflexivity.
  - exact I.
Qed.

(** X23.  [morphDom] brings the old tree to the new one up to what it never looks
    at.  When no element carries an attribute twice and no pair of elements
    it meets has child counts more than ten apart, the tree that stands in
    place of the old one afterwards agrees with the new tree: the same
    shape, the same attributes name by name, the same texts.  Only the tag
    names of elements and the text of comments may still be the old
    ones. *)
Theorem morphDom_reaches_target (f t : Patch.Node) :
  wellFormed f -> wellFormed t -> near f t ->
  agrees (Patch.morphDom parseHTML serializeHTML f t) t.
Proof. exact (morphDom_agrees f t). Qed.

Lemma attributes_all_absent (a : Patch.Attrs) :
  sameAttributes a [] -> a = [].
Proof.
  destruct a as [| [k v] a]; [reflexivity |].
  intros H. specialize (H k). simpl in H. rewrite String.eqb_refl in H.
  discriminate.
Qed.

(** X24.  The two paths of [updatePreviewContent].  When the container is empty,
    or the length of the page differs from that of the shown content by
    more than half of the longer one, the content is replaced by what the
    page parses to and the container keeps its attributes.  Otherwise the
    container is morphed against a bare [div]: it keeps its tag but loses
    every attribute it has, its [id] included, and when no attribute
    occurs twice and no child counts are more than ten apart its children
    agree with what the page parses to. *)
Theorem update_replaces_or_morphs (html tag : string) (attrs : Patch.Attrs)
    (children : list Patch.Node) :
  NoDup (List.map fst attrs) ->
  let preview := Patch.Element tag attrs children in
  let r := Patch.updatePreviewContent parseHTML serializeHTML html preview in
  (children = []
   \/ Patch.bigChange (String.length (serializeHTML children))
        (String.length html) = true ->
   r = Patch.Element tag attrs (parseHTML tag html))
  /\ (children <> [] ->
      Patch.bigChange (String.length (serializeHTML children))
        (String.length html) = false ->
      attributes r = []
      /\ (allWellFormed children ->
          allWellFormed (parseHTML "div" html) ->
          near preview (Patch.Element "div" [] (parseHTML "div" html)) ->
          allAgree (childNodes r) (parseHTML "div" html))).
Proof.
  intros Hnd preview r. unfold r, preview, Patch.updatePreviewContent.
  split.
  - destruct children as [| c cs]; [reflexivity |].
    intros [H | H]; [discriminate | now rewrite H].
  - destruct children as [| c cs]; [congruence |].
    intros _ Hbig. rewrite Hbig.
    assert (Patch.morphAttrs attrs [] = []) as Hattrs.
    { apply attributes_all_absent.
      apply (morphAttrs_get attrs []); [exact Hnd | constructor]. }
    split.
    + cbn [Patch.morphDom]. rewrite Hattrs.
      now destruct (Patch.farApart _ _).
    + intros Hwc Hwp Hnear.
      pose proof (morphDom_agrees (Patch.Element tag attrs (c :: cs))
                    (Patch.Element "div" [] (parseHTML "div" html))
                    (conj Hnd Hwc) (conj (NoDup_nil _) Hwp) Hnear) as Ha.
      destruct Hnear as [Hfar _].
      cbn [Patch.morphDom] in Ha |- *. rewrite Hfar in Ha |- *.
      cbn [agrees childNodes] in Ha |- *. exact (proj2 Ha).
Qed.

End PatchAgreement.

Section PatchAgreementWitnesses.

Import PatchSpec PatchMore.

Lemma morphDom_reaches_target_witness :
  agrees (Patch.morphDom Patch.readFragment Patch.innerHTML shown wanted)
    wanted.
Proof.
  apply (morphDom_reaches_target Patch.readFragment Patch.innerHTML
           shown wanted).
  - simpl. repeat split; repeat constructor; simpl; intuition discriminate.
  - simpl. repeat split; repeat constructor; simpl; intuition discriminate.
  - simpl. repeat split; reflexivity.
Defined.

Lemma update_replaces_or_morphs_witness :
  (childNodes quoted = []
   \/ Patch.bigChange
        (String.length (Patch.innerHTML (childNodes quoted)))
        (String.length paragraph) = true ->
   update paragraph quoted
   = Patch.Element "div" [("id", "preview")]
       (Patch.readFragment "div" paragraph))
  /\ (childNodes quoted <> [] ->
      Patch.bigChange
        (String.length (Patch.innerHTML (childNodes quoted)))
        (String.length paragraph) = false ->
      attributes (update paragraph quoted) = []
      /\ (allWellFormed (childNodes quoted) ->
          allWellFormed (Patch.readFragment "div" paragraph) ->
          near quoted
            (Patch.Element "div" [] (Patch.readFragment "div" paragraph)) ->
          allAgree (childNodes (update paragraph quoted))
            (Patch.readFragment "div" paragraph))).
Proof.
  apply (update_replaces_or_morphs Patch.readFragment Patch.innerHTML
           paragraph "div" [("id", "preview")] (childNodes quoted)).
  simpl. repeat constructor. simpl. intuition.
Defined.

End PatchAgreementWitnesses.

(** * Further properties of the preview provider *)

Section ProviderCache.

Import ProviderSpec CacheSpec.

(** A page within the share of one entry, stored in a cache that can make
    room for it, is what [get] returns until its time to live is over. *)
Lemma set_stores (fuel : nat) (key html : string) (now : Z)
    (c : RenderCache.t) :
  5 * RenderCache.estimateSize html <= RenderCache.maxMemorySize c ->
  1 <= RenderCache.maxSize c ->
  noEmptyKey (RenderCache.cache c) ->
  leaked c + RenderCache.estimateSize html <= RenderCache.maxMemorySize c ->
  (List.length (RenderCache.cache c) < fuel)%nat ->
  exists c',
    RenderCache.set fuel key html now c = Some c'
    /\ forall now', now' - now <= RenderCache.ttl c ->
                    fst (RenderCache.get key now' c') = Some html.
Proof.
  intros Hshare Hmax Hkeys Hleak Hfuel.
  unfold RenderCache.set. rewrite overShare_Z.
  destruct (RenderCache.maxMemorySize c <? 5 * RenderCache.estimateSize html)
    eqn:Eo; [apply Z.ltb_lt in Eo; lia |].
  destruct (setLoop_total fuel (RenderCache.estimateSize html) c Hkeys Hfuel)
    as [r Hr].
  rewrite Hr. pose proof (setLoop_frame _ _ _ _ Hr) as Hfr.
  destruct r as [c1 | c1].
  - destruct Hfr as (_ & Ht & _ & _).
    eexists. split; [reflexivity |].
    intros now' Httl. apply get_after_store. rewrite Ht. exact Httl.
  - exfalso. destruct Hfr as (Hl & _ & Hs & Hm & Hnil & Hn).
    unfold RenderCache.noRoom, RenderCache.map_size in Hn.
    rewrite Hnil in Hn. simpl in Hn.
    unfold leaked in Hl. rewrite Hnil in Hl. simpl in Hl.
    apply orb_true_iff in Hn as [Hn | Hn].
    + apply Z.leb_le in Hn. lia.
    + apply Z.ltb_lt in Hn. unfold leaked in Hleak. lia.
Qed.

(** X26.  A page is rendered once.  When the current document's page is
    not in the cache, [doUpdatePreview] starts a render; when the render
    settles with a page, nothing else having happened since, the page is
    stored and pushed.  A [doUpdatePreview] for the same text and settings
    that starts after that, before the time to live is over, pushes the
    same page from the cache and starts no render. *)
Theorem second_render_comes_from_cache
    (generateKey : Provider.RenderOptions -> string)
    (env : Provider.Env) (now settled now' : Z)
    (doc : Provider.TextDocument) (html : string) (p : Provider.t) :
  Provider.panel p = true ->
  Provider.currentDocument p = Some doc ->
  RenderCache.map_get
    (generateKey (Provider.renderOptions (Provider.config env) doc))
    (RenderCache.cache (Provider.cache p)) = None ->
  html <> "" ->
  5 * RenderCache.estimateSize html
  <= RenderCache.maxMemorySize (Provider.cache p) ->
  1 <= RenderCache.maxSize (Provider.cache p) ->
  noEmptyKey (RenderCache.cache (Provider.cache p)) ->
  leaked (Provider.cache p) + RenderCache.estimateSize html
  <= RenderCache.maxMemorySize (Provider.cache p) ->
  now <= settled <= now' ->
  now' - settled <= RenderCache.ttl (Provider.cache p) ->
  exists job p1 p2,
    Provider.beginUpdate generateKey env now p = (p, Some job)
    /\ Provider.options job
       = Provider.renderOptions (Provider.config env) doc
    /\ Provider.finishUpdate job (inl html) settled p = Some p1
    /\ Provider.effects p1
       = Provider.effects p
         ++ Provider.PostMessage (Messages.UpdateMessage html)
            :: (if 200 <? settled - now
                then [Provider.ConsoleWarnSlow (settled - now)] else [])
    /\ Provider.beginUpdate generateKey env now' p1 = (p2, None)
    /\ Provider.effects p2
       = Provider.effects p1
         ++ [Provider.PostMessage (Messages.UpdateMessage html)].
Proof.
  intros Hpanel Hdoc Hmiss Hhtml Hshare Hmax Hkeys Hleak Horder Httl.
  set (key := generateKey (Provider.renderOptions (Provider.config env) doc))
    in *.
  destruct (set_stores (S (List.length (RenderCache.cache (Provider.cache p))))
              key html settled (Provider.cache p)
              Hshare Hmax Hkeys Hleak (Nat.lt_succ_diag_r _))
    as (c2 & Hset & Hget).
  specialize (Hget now' Httl).
  destruct (RenderCache.get key now' c2) as [found c3] eqn:Eg.
  simpl in Hget. subst found.
  assert (Provider.with_cache (Provider.cache p) p = p) as Heta.
  { destruct p. reflexivity. }
  exists {| Provider.cacheKey := key;
            Provider.options :=
              Provider.renderOptions (Provider.config env) doc;
            Provider.startTime := now |}.
  eexists. eexists.
  split.
  { unfold Provider.beginUpdate. rewrite Hpanel, Hdoc. simpl. fold key.
    unfold RenderCache.get. rewrite Hmiss. rewrite Heta. reflexivity. }
  split; [reflexivity |].
  split.
  { unfold Provider.finishUpdate.
    cbn [Provider.cacheKey Provider.startTime]. rewrite Hset, Hpanel.
    reflexivity. }
  split; [reflexivity |].
  unfold Provider.beginUpdate. simpl. rewrite Hpanel, Hdoc. fold key.
  rewrite Eg.
  destruct (String.eqb_spec html "") as [-> | _]; [congruence |].
  split; reflexivity.
Qed.

Lemma second_render_comes_from_cache_witness :
  exists job p1 p2,
    Provider.beginUpdate demoKey demoEnv 0 showingA = (showingA, Some job)
    /\ Provider.options job
       = Provider.renderOptions (Provider.config demoEnv) docA
    /\ Provider.finishUpdate job (inl "<p># A</p>") 30 showingA = Some p1
    /\ Provider.effects p1
       = Provider.effects showingA
         ++ Provider.PostMessage (Messages.UpdateMessage "<p># A</p>")
            :: (if 200 <? 30 - 0
                then [Provider.ConsoleWarnSlow (30 - 0)] else [])
    /\ Provider.beginUpdate demoKey demoEnv 1000 p1 = (p2, None)
    /\ Provider.effects p2
       = Provider.effects p1
         ++ [Provider.PostMessage (Messages.UpdateMessage "<p># A</p>")].
Proof.
  apply (second_render_comes_from_cache demoKey demoEnv 0 30 1000 docA
           "<p># A</p>" showingA).
  - reflexivity.
  - reflexivity.
  - reflexivity.
  - discriminate.
  - vm_compute. discriminate.
  - vm_compute. discriminate.
  - intros k [].
  - vm_compute. discriminate.
  - lia.
  - vm_compute. discriminate.
Defined.

End ProviderCache.

Section ProviderEngine.

Import ProviderSpec ProviderMore.

(** X27.  The provider on top of [MarkdownEngine.render].  A document that is
    blank once trimmed is never handed to the pipeline: the update ends in
    the error path, which logs the engine's message, posts it to the
    surface as an [error] message and shows a notification; no [update]
    message is posted and nothing is stored in the cache.  For any other
    document the provider's options pass the platform check, so the
    outcome is the pipeline's page, or its error behind the engine's
    prefix. *)
Theorem blank_document_is_an_error :
  (forall (trim : string -> string)
          (pipeline : Provider.RenderOptions -> string + string)
          (generateKey : Provider.RenderOptions -> string)
          (env : Provider.Env) (now elapsed : Z)
          (doc : Provider.TextDocument) (p : Provider.t),
      Provider.panel p = true ->
      Provider.currentDocument p = Some doc ->
      trim (Provider.getText doc) = "" ->
      fst (RenderCache.get
             (generateKey (Provider.renderOptions (Provider.config env) doc))
             now (Provider.cache p)) = None ->
      Provider.doUpdatePreview generateKey
        (MarkdownEngine.render trim pipeline) env now elapsed p
      = Some
          (Provider.emit
             [Provider.ConsoleError "Markdown 渲染失败: Markdown 内容为空或无效";
              Provider.PostMessage
                (Messages.ErrorMessage
                   "Markdown 渲染失败: Markdown 内容为空或无效");
              Provider.ShowErrorMessage
                "Markdown 渲染失败: Markdown 内容为空或无效"]
             (Provider.with_cache
                (snd (RenderCache.get
                        (generateKey
                           (Provider.renderOptions (Provider.config env) doc))
                        now (Provider.cache p))) p)))
  /\ (forall (trim : string -> string)
             (pipeline : Provider.RenderOptions -> string + string)
             (config : Provider.Config) (doc : Provider.TextDocument),
        trim (Provider.getText doc) <> "" ->
        MarkdownEngine.render trim pipeline
          (Provider.renderOptions config doc)
        = match pipeline (Provider.renderOptions config doc) with
          | inl html => inl html
          | inr errorMessage =>
              inr ("Markdown 渲染失败: " ++ errorMessage)%string
          end).
Proof.
  split.
  - intros trim pipeline generateKey env now elapsed doc p Hpanel Hdoc Hblank
      Hmiss.
    unfold Provider.doUpdatePreview. rewrite Hpanel, Hdoc. simpl.
    destruct (RenderCache.get
                (generateKey
                   (Provider.renderOptions (Provider.config env) doc))
                now (Provider.cache p)) as [found c1].
    simpl in Hmiss. subst found. simpl.
    unfold MarkdownEngine.render, MarkdownEngine.isValidMarkdown.
    cbn [Provider.markdown Provider.renderOptions].
    rewrite Hblank. reflexivity.
  - intros trim pipeline config doc Hfull.
    unfold MarkdownEngine.render, MarkdownEngine.isValidMarkdown.
    cbn [Provider.markdown Provider.platform Provider.renderOptions].
    destruct (trim (Provider.getText doc)) as [| a s]; [congruence |].
    reflexivity.
Qed.

Lemma blank_document_is_an_error_witness :
  Provider.doUpdatePreview demoKey
    (MarkdownEngine.render trimSpaces demoRender) demoEnv 0 0 showingBlank
  = Some
      (Provider.emit
         [Provider.ConsoleError "Markdown 渲染失败: Markdown 内容为空或无效";
          Provider.PostMessage
            (Messages.ErrorMessage
               "Markdown 渲染失败: Markdown 内容为空或无效");
          Provider.ShowErrorMessage
            "Markdown 渲染失败: Markdown 内容为空或无效"]
         (Provider.with_cache
            (snd (RenderCache.get
                    (demoKey
                       (Provider.renderOptions (Provider.config demoEnv)
                          blankDoc))
                    0 (Provider.cache showingBlank))) showingBlank)).
Proof.
  apply (proj1 blank_document_is_an_error trimSpaces demoRender demoKey
           demoEnv 0 0 blankDoc showingBlank).
  - reflexivity.
  - reflexivity.
  - reflexivity.
  - reflexivity.
Defined.

End ProviderEngine.

(** * The provider's debounce timer and [dispose] *)

Section ProviderTimers.

Import ProviderSpec ProviderMore.

Variable generateKey : Provider.RenderOptions -> string.

Lemma beginUpdate_frame (env : Provider.Env) (now : Z) (p : Provider.t) :
  Provider.timers (fst (Provider.beginUpdate generateKey env now p))
  = Provider.timers p
  /\ Provider.updateTimeout (fst (Provider.beginUpdate generateKey env now p))
     = Provider.updateTimeout p.
Proof.
  unfold Provider.beginUpdate.
  destruct (negb (Provider.panel p)); [auto |].
  destruct (Provider.currentDocument p) as [doc |]; [| auto].
  destruct (RenderCache.get _ now (Provider.cache p)) as [found c1].
  destruct found as [html |]; [| auto].
  destruct (String.eqb html ""); auto.
Qed.

Lemma finishUpdate_frame (job : Provider.Job) (result : string + string)
    (now : Z) (p p' : Provider.t) :
  Provider.finishUpdate job result now p = Some p' ->
  Provider.timers p' = Provider.timers p
  /\ Provider.updateTimeout p' = Provider.updateTimeout p.
Proof.
  unfold Provider.finishUpdate. destruct result as [html | message].
  - destruct (RenderCache.set _ _ _ _ _) as [c2 |]; [| discriminate].
    destruct (Provider.panel p); intros [= <-]; auto.
  - destruct (Provider.panel p); intros [= <-]; auto.
Qed.

Lemma oneTimer_frame (p p' : Provider.t) :
  Provider.timers p' = Provider.timers p ->
  Provider.updateTimeout p' = Provider.updateTimeout p ->
  oneTimer p -> oneTimer p'.
Proof. unfold oneTimer. intros -> ->. auto. Qed.

Lemma oneTimer_updatePreview (document : option Provider.TextDocument)
    (now : Z) (p : Provider.t) :
  oneTimer p -> oneTimer (Provider.updatePreview document now p).
Proof.
  intros H. unfold Provider.updatePreview.
  destruct (match document with
            | Some d =>
                match Provider.currentDocument p with
                | Some cur =>
                    negb (String.eqb (Provider.uri d) (Provider.uri cur))
                | None => false
                end
            | None => false
            end); [exact H |].
  destruct (negb (Provider.panel p)); [exact H |].
  destruct (Provider.currentDocument p) as [cur |]; [| exact H].
  right. simpl.
  destruct H as [Hnil | (h & d & Hh & Hp)].
  - exists (Timers.nextId (Provider.timers p)), (now + 100).
    split; [destruct (Provider.updateTimeout p); reflexivity |].
    destruct (Provider.updateTimeout p); simpl; rewrite Hnil; reflexivity.
  - exists (Timers.nextId (Provider.timers p)), (now + 100).
    rewrite Hh. simpl. rewrite Hp. simpl. rewrite Nat.eqb_refl. simpl.
    split; reflexivity.
Qed.

Lemma pending_dispose (p : Provider.t) :
  oneTimer p -> Timers.pending (Provider.timers (dispose p)) = [].
Proof.
  intros [Hnil | (h & d & Hh & Hp)]; unfold dispose; simpl.
  - destruct (Provider.updateTimeout p); simpl; rewrite Hnil; reflexivity.
  - rewrite Hh. simpl. rewrite Hp. simpl. now rewrite Nat.eqb_refl.
Qed.

Lemma oneTimer_beginFire (env : Provider.Env)
    (x : Timers.Timer Provider.Action) (p : Provider.t) :
  oneTimer p -> In x (Timers.pending (Provider.timers p)) ->
  Timers.pending (Provider.timers (fst (beginFire generateKey env x p))) = [].
Proof.
  intros H Hx. unfold beginFire. destruct (Timers.action x).
  rewrite (proj1 (beginUpdate_frame _ _ _)). simpl.
  destruct H as [Hnil | (h & d & Hh & Hp)].
  - rewrite Hnil in Hx. destruct Hx.
  - rewrite Hp in Hx |- *. destruct Hx as [<- | []]. simpl.
    now rewrite Nat.eqb_refl.
Qed.

Lemma oneTimer_catchUp (fuel : nat) (env : Provider.Env) (now : Z)
    (w : World) :
  oneTimer (provider w) ->
  oneTimer (provider (catchUp generateKey fuel env now w)).
Proof.
  revert w. induction fuel as [| fuel IH]; intros w H; simpl; [exact H |].
  destruct (Timers.nextDue now (Provider.timers (provider w))) as [x |] eqn:E;
    [| exact H].
  destruct (nextDue_In _ _ _ E) as [Hin _].
  apply IH. left. simpl. now apply oneTimer_beginFire.
Qed.

Lemma oneTimer_occur (m : Moment) (w w' : World) :
  oneTimer (provider w) -> occur generateKey m w = Some w' ->
  oneTimer (provider w').
Proof.
  intros H. unfold occur.
  destruct (occurrence m)
    as [[document | document | document | message | |] | job result].
  - intros [= <-]. now apply oneTimer_updatePreview.
  - intros [= <-]. simpl. unfold beginSwitch.
    destruct (negb (Provider.panel (provider w))); [exact H |].
    destruct (beginUpdate_frame (around m) (clock m)
                {| Provider.panel := Provider.panel (provider w);
                   Provider.currentDocument := Some document;
                   Provider.updateTimeout :=
                     Provider.updateTimeout (provider w);
                   Provider.cache := Provider.cache (provider w);
                   Provider.scrollSyncManager :=
                     Some (ScrollSync.new (Provider.uri document));
                   Provider.timers := Provider.timers (provider w);
                   Provider.effects :=
                     Provider.effects (provider w)
                     ++ [Provider.SetTitle (Provider.fileName document)] |})
      as [Ht Hu].
    exact (oneTimer_frame _ _ Ht Hu H).
  - intros [= <-]. simpl. unfold showPreview.
    destruct (Provider.panel (provider w)); apply oneTimer_updatePreview;
      exact H.
  - intros [= <-]. simpl. unfold beginMessage.
    destruct (negb (Messages.isWebviewToExtensionMessage message));
      [exact H |].
    destruct (Messages.isTag (Messages.prop "type" message) "ready").
    { simpl. unfold Provider.sendCurrentConfig.
      destruct (negb (Provider.panel (provider w))); exact H. }
    destruct (Messages.isTag (Messages.prop "type" message) "scroll").
    { simpl. unfold Provider.dispatchScroll.
      destruct (Provider.scrollSyncManager (provider w)) as [mgr |];
        [| exact H].
      destruct (Provider.asNumber (Messages.prop "percent" message));
        [| exact H].
      destruct (ScrollSync.handleWebviewScroll _ _ _ _ mgr). exact H. }
    repeat match goal with
           | |- oneTimer (fst (if ?b then _ else _)) =>
               destruct b; [exact H |]
           end.
    exact H.
  - intros [= <-]. exact H.
  - intros [= <-]. left. now apply pending_dispose.
  - destruct (nth_error (inFlight w) job) as [[| j] |];
      [| | intros [= <-]; exact H].
    + intros [= <-]. simpl.
      destruct (beginUpdate_frame (around m) (clock m) (provider w))
        as [Ht Hu].
      exact (oneTimer_frame _ _ Ht Hu H).
    + destruct (Provider.finishUpdate j result (clock m) (provider w))
        as [p' |] eqn:E; [| discriminate].
      intros [= <-]. simpl.
      destruct (finishUpdate_frame _ _ _ _ _ E) as [Ht Hu].
      exact (oneTimer_frame _ _ Ht Hu H).
Qed.

Lemma oneTimer_unfold (moments : list Moment) (w w' : World) :
  oneTimer (provider w) -> unfold generateKey moments w = Some w' ->
  oneTimer (provider w').
Proof.
  revert w. induction moments as [| m moments IH]; intros w H; simpl.
  - intros [= <-]. exact H.
  - destruct (occur generateKey m _) as [w1 |] eqn:E; [| discriminate].
    apply IH. eapply oneTimer_occur; [| exact E].
    now apply oneTimer_catchUp.
Qed.

(** X28.  The provider keeps at most one debounce timer pending, whatever
    calls and messages reach it and however the renders it awaits settle in
    between.  [dispose] cancels that timer and empties the cache, and from
    then on no timer fires and [updatePreview], [switchDocument] and
    [doUpdatePreview] do nothing and start nothing.  What can still happen
    is that a render which was in flight settles: nothing is posted to the
    surface; the error of reading the panel that is gone, or the render
    error, is logged; and a rendered page is still handed to [set] of the
    disposed provider's cache. *)
Theorem disposed_provider_is_inert (moments : list Moment) (w : World)
    (env : Provider.Env) (now : Z) :
  unfold generateKey moments (start) = Some w ->
  (List.length (Timers.pending (Provider.timers (provider w))) <= 1)%nat
  /\ Timers.pending (Provider.timers (dispose (provider w))) = []
  /\ RenderCache.cache (Provider.cache (dispose (provider w))) = []
  /\ RenderCache.currentMemorySize (Provider.cache (dispose (provider w)))
     = 0
  /\ (forall fuel jobs,
         catchUp generateKey fuel env now
           {| provider := dispose (provider w); inFlight := jobs |}
         = {| provider := dispose (provider w); inFlight := jobs |})
  /\ (forall document,
         Provider.updatePreview document now (dispose (provider w))
         = dispose (provider w))
  /\ (forall document,
         beginSwitch generateKey env document now (dispose (provider w))
         = (dispose (provider w), None))
  /\ Provider.beginUpdate generateKey env now (dispose (provider w))
     = (dispose (provider w), None)
  /\ (forall job message,
         Provider.finishUpdate job (inr message) now (dispose (provider w))
         = Some (Provider.emit [Provider.ConsoleError message]
                   (dispose (provider w))))
  /\ (forall job html,
         exists c,
           RenderCache.set 1 (Provider.cacheKey job) html now
             (Provider.cache (dispose (provider w))) = Some c
           /\ Provider.finishUpdate job (inl html) now (dispose (provider w))
              = Some (Provider.emit [Provider.ConsoleError Provider.panelGone]
                        (Provider.with_cache c (dispose (provider w))))).
Proof.
  intros Hrun.
  assert (oneTimer (provider w)) as H.
  { eapply oneTimer_unfold; [| exact Hrun]. left. reflexivity. }
  pose proof (pending_dispose (provider w) H) as Hd.
  split.
  { destruct H as [-> | (h & d & _ & ->)]; simpl; lia. }
  split; [exact Hd |].
  split; [reflexivity |]. split; [reflexivity |].
  split.
  { intros [| fuel] jobs; [reflexivity |].
    cbn [catchUp provider]. unfold Timers.nextDue. rewrite Hd.
    reflexivity. }
  split.
  { intros [document |]; reflexivity. }
  split; [reflexivity |]. split; [reflexivity |].
  split; [reflexivity |].
  intros job html. unfold Provider.finishUpdate.
  change (RenderCache.cache (Provider.cache (dispose (provider w))))
    with (@nil (string * RenderCache.CacheEntry)).
  change (S (List.length (@nil (string * RenderCache.CacheEntry))))
    with 1%nat.
  destruct (RenderCache.set 1 (Provider.cacheKey job) html now
              (Provider.cache (dispose (provider w)))) as [c |] eqn:E.
  - exists c. split; reflexivity.
  - exfalso. revert E. unfold RenderCache.set.
    destruct (RenderCache.overShare _ _); [discriminate |].
    unfold RenderCache.setLoop.
    destruct (RenderCache.noRoom _ _); [| discriminate].
    change (RenderCache.map_size
              (RenderCache.cache (Provider.cache (dispose (provider w)))))
      with 0.
    discriminate.
Qed.

End ProviderTimers.

Section ProviderTimersWitness.

Import ProviderSpec ProviderMore.

Lemma disposed_provider_is_inert_witness :
  exists w,
    unfold demoKey closedWhileRendering start = Some w
    /\ Provider.effects (provider w)
       = [Provider.ConsoleError Provider.panelGone]
    /\ (List.length (Timers.pending (Provider.timers (provider w))) <= 1)%nat
    /\ Timers.pending (Provider.timers (dispose (provider w))) = []
    /\ RenderCache.cache (Provider.cache (dispose (provider w))) = []
    /\ RenderCache.currentMemorySize (Provider.cache (dispose (provider w)))
       = 0
    /\ (forall fuel jobs,
           catchUp demoKey fuel demoEnv 500
             {| provider := dispose (provider w); inFlight := jobs |}
           = {| provider := dispose (provider w); inFlight := jobs |})
    /\ (forall document,
           Provider.updatePreview document 500 (dispose (provider w))
           = dispose (provider w))
    /\ (forall document,
           beginSwitch demoKey demoEnv document 500 (dispose (provider w))
           = (dispose (provider w), None))
    /\ Provider.beginUpdate demoKey demoEnv 500 (dispose (provider w))
       = (dispose (provider w), None)
    /\ (forall job message,
           Provider.finishUpdate job (inr message) 500 (dispose (provider w))
           = Some (Provider.emit [Provider.ConsoleError message]
                     (dispose (provider w))))
    /\ (forall job html,
           exists c,
             RenderCache.set 1 (Provider.cacheKey job) html 500
               (Provider.cache (dispose (provider w))) = Some c
             /\ Provider.finishUpdate job (inl html) 500
                  (dispose (provider w))
                = Some (Provider.emit
                          [Provider.ConsoleError Provider.panelGone]
                          (Provider.with_cache c (dispose (provider w))))).
Proof.
  eexists. split; [vm_compute; reflexivity |].
  split; [reflexivity |].
  apply (disposed_provider_is_inert demoKey closedWhileRendering _ demoEnv
           500).
  vm_compute. reflexivity.
Defined.

End ProviderTimersWitness.

(** * The provider's debounce *)

Section ProviderDebounce.

Import ProviderSpec ProviderMore.

Variable generateKey : Provider.RenderOptions -> string.
Variable render : Provider.RenderOptions -> string + string.

Lemma update_arms (doc : Provider.TextDocument)
    (document : option Provider.TextDocument) (now : Z) (p q : Provider.t) :
  Provider.panel p = true ->
  Provider.currentDocument p = Some doc ->
  forCurrent doc document ->
  Provider.panel q = Provider.panel p ->
  Provider.currentDocument q = Provider.currentDocument p ->
  Provider.cache q = Provider.cache p ->
  Provider.scrollSyncManager q = Provider.scrollSyncManager p ->
  Provider.effects q = Provider.effects p ->
  Timers.pending
    (Timers.clearIfSet (Provider.updateTimeout q) (Provider.timers q)) = [] ->
  exists h n, Provider.updatePreview document now q = waiting p h n now.
Proof.
  intros Hpanel Hdoc Hfor Hp Hd Hc Hm He Hclear.
  unfold Provider.updatePreview. rewrite Hd, Hdoc, Hp, Hpanel.
  assert (match document with
          | Some d => negb (String.eqb (Provider.uri d) (Provider.uri doc))
          | None => false
          end = false) as ->.
  { destruct document as [d |]; [| reflexivity].
    simpl in Hfor. rewrite Hfor, String.eqb_refl. reflexivity. }
  simpl. rewrite Hclear. unfold waiting.
  rewrite Hc, Hm, He, Hpanel, Hdoc. simpl.
  eexists. eexists. reflexivity.
Qed.

Lemma waiting_next (doc : Provider.TextDocument) (env : Provider.Env)
    (elapsed t : Z) (e : Z * option Provider.TextDocument) (h n : nat)
    (p : Provider.t) :
  Provider.panel p = true ->
  Provider.currentDocument p = Some doc ->
  forCurrent doc (snd e) -> t <= fst e < t + 100 ->
  exists h' n',
    run generateKey render (updateSteps env elapsed [e]) (waiting p h n t)
    = Some (waiting p h' n' (fst e)).
Proof.
  intros Hpanel Hdoc Hfor Ht. simpl.
  unfold runTimers. simpl. unfold Timers.nextDue. simpl.
  assert ((t + 100 <=? fst e) = false) as -> by (apply Z.leb_gt; lia).
  unfold handle. simpl.
  destruct (update_arms doc (snd e) (fst e) p (waiting p h n t))
    as (h' & n' & ->); try reflexivity; try assumption.
  - simpl. now rewrite Nat.eqb_refl.
  - eexists. eexists. reflexivity.
Qed.

Lemma waiting_burst (doc : Provider.TextDocument) (env : Provider.Env)
    (elapsed t : Z) (rest : list (Z * option Provider.TextDocument))
    (h n : nat) (p : Provider.t) :
  Provider.panel p = true ->
  Provider.currentDocument p = Some doc ->
  pacedUpdates doc t rest ->
  exists h' n',
    run generateKey render (updateSteps env elapsed rest) (waiting p h n t)
    = Some (waiting p h' n' (lastUpdate t rest)).
Proof.
  intros Hpanel Hdoc. revert t h n.
  induction rest as [| [t' d] rest IH]; intros t h n Hp.
  - exists h, n. reflexivity.
  - destruct Hp as (Hfor & Ht & Hp).
    destruct (waiting_next doc env elapsed t (t', d) h n p Hpanel Hdoc Hfor Ht)
      as (h1 & n1 & H1).
    destruct (IH t' h1 n1 Hp) as (h2 & n2 & H2).
    exists h2, n2.
    cbn [updateSteps List.map run] in H1 |- *.
    destruct (runTimers _ _ _ _ _ (waiting p h n t)) as [q1 |];
      [| discriminate].
    destruct (handle _ _ _ q1) as [q2 |]; [| discriminate].
    injection H1 as ->. exact H2.
Qed.

(** X25.  The provider renders a burst of changes once.  With the panel open and
    no timer pending, calls of [updatePreview] for the current document
    that follow each other by less than 100 ms push nothing while the
    burst lasts; 100 ms after the last call the one timer left fires, and
    what happens then is a single [doUpdatePreview]. *)
Theorem update_burst_renders_once (doc : Provider.TextDocument)
    (env : Provider.Env) (elapsed now : Z)
    (first : Z * option Provider.TextDocument)
    (rest : list (Z * option Provider.TextDocument)) (p : Provider.t) :
  Provider.panel p = true ->
  Provider.currentDocument p = Some doc ->
  Timers.pending (Provider.timers p) = [] ->
  forCurrent doc (snd first) ->
  pacedUpdates doc (fst first) rest ->
  lastUpdate (fst first) rest + 100 <= now ->
  exists p' h n,
    run generateKey render (updateSteps env elapsed (first :: rest)) p
    = Some p'
    /\ Provider.effects p' = Provider.effects p
    /\ Provider.cache p' = Provider.cache p
    /\ runTimers generateKey render env elapsed now p'
       = Provider.doUpdatePreview generateKey render env
           (lastUpdate (fst first) rest + 100) elapsed (settled p h n).
Proof.
  intros Hpanel Hdoc Hpend Hfor Hp Hnow.
  destruct (update_arms doc (snd first) (fst first) p p Hpanel Hdoc Hfor
              eq_refl eq_refl eq_refl eq_refl eq_refl) as (h0 & n0 & H0).
  { destruct (Provider.updateTimeout p); simpl; rewrite Hpend; reflexivity. }
  destruct (waiting_burst doc env elapsed (fst first) rest h0 n0 p
              Hpanel Hdoc Hp) as (h & n & Hrun).
  exists (waiting p h n (lastUpdate (fst first) rest)), h, n.
  split.
  { simpl. unfold runTimers. rewrite Hpend. simpl.
    unfold handle. simpl. rewrite H0. exact Hrun. }
  split; [reflexivity |]. split; [reflexivity |].
  unfold runTimers. simpl. unfold Timers.nextDue. simpl.
  assert ((lastUpdate (fst first) rest + 100 <=? now) = true) as ->
    by (apply Z.leb_le; lia).
  unfold Provider.fire. cbn [Timers.action Timers.tid Timers.due].
  match goal with
  | |- match Provider.doUpdatePreview _ _ _ _ _ ?q with _ => _ end = _ =>
      replace q with (settled p h n)
        by (unfold settled, waiting, Timers.clearTimeout; simpl;
            now rewrite Nat.eqb_refl)
  end.
  destruct (Provider.doUpdatePreview generateKey render env
              (lastUpdate (fst first) rest + 100) elapsed (settled p h n));
    reflexivity.
Qed.

End ProviderDebounce.

Section ProviderDebounceWitness.

Import ProviderSpec ProviderMore.

Lemma update_burst_renders_once_witness :
  exists p' h n,
    run demoKey demoRender
      (updateSteps demoEnv 20 [(0, Some docA); (60, None); (130, Some docA)])
      showingA
    = Some p'
    /\ Provider.effects p' = Provider.effects showingA
    /\ Provider.cache p' = Provider.cache showingA
    /\ runTimers demoKey demoRender demoEnv 20 230 p'
       = Provider.doUpdatePreview demoKey demoRender demoEnv
           (lastUpdate 0 [(60, None); (130, Some docA)] + 100) 20
           (settled showingA h n).
Proof.
  apply (update_burst_renders_once demoKey demoRender docA demoEnv 20 230
           (0, Some docA) [(60, None); (130, Some docA)] showingA).
  - reflexivity.
  - reflexivity.
  - reflexivity.
  - reflexivity.
  - simpl. repeat split; lia.
  - simpl. lia.
Defined.

End ProviderDebounceWitness.

(** * [showPreview] on an open panel, and the extension's own debounce *)

Section ProviderCallers.

Import ProviderSpec ProviderMore.

(** X29.  [showPreview] for another document while the panel is open makes that
    document current and arms the debounce timer, but, unlike
    [switchDocument], it sets no title and leaves the scroll manager of the
    old document in place.  That manager tracks the old document only: a
    [scroll] message from the surface moves nothing and a scroll of the new
    document's editor arms nothing.  Without a panel, [showPreview] opens
    one and creates the manager for the document. *)
Theorem showPreview_keeps_old_scroll_manager :
  (forall (generateKey : Provider.RenderOptions -> string)
          (render : Provider.RenderOptions -> string + string)
          (env : Provider.Env) (now now' elapsed : Z)
          (document : Provider.TextDocument) (p : Provider.t)
          (mgr : ScrollSync.t) (editor : ScrollSync.Editor)
          (percent : Q) (line : option Q),
      Provider.panel p = true ->
      Provider.scrollSyncManager p = Some mgr ->
      ScrollSync.doc mgr <> Provider.uri document ->
      Provider.activeTextEditor env = Some editor ->
      ScrollSync.document editor = Provider.uri document ->
      Provider.currentDocument (showPreview document now p) = Some document
      /\ Provider.scrollSyncManager (showPreview document now p) = Some mgr
      /\ Provider.effects (showPreview document now p) = Provider.effects p
      /\ (exists h,
             Provider.updateTimeout (showPreview document now p) = Some h
             /\ In (Timers.mkTimer h (now + 100) Provider.DoUpdatePreview)
                  (Timers.pending
                     (Provider.timers (showPreview document now p))))
      /\ (exists q,
             Provider.handleWebviewMessage generateKey render env now'
               elapsed (Messages.createScrollMessage percent line)
               (showPreview document now p) = Some q
             /\ Provider.effects q = Provider.effects p
             /\ Provider.scrollSyncManager q = Some mgr)
      /\ ScrollSync.onDidChangeTextEditorVisibleRanges
           (Provider.scrollEnv env) now' mgr = mgr)
  /\ (forall (document : Provider.TextDocument) (now : Z) (p : Provider.t),
        Provider.panel p = false ->
        Provider.panel (showPreview document now p) = true
        /\ Provider.currentDocument (showPreview document now p)
           = Some document
        /\ Provider.scrollSyncManager (showPreview document now p)
           = Some (ScrollSync.new (Provider.uri document))).
Proof.
  split.
  - intros generateKey render env now now' elapsed document p mgr editor
      percent line Hpanel Hmgr Hne Hact Hdoc.
    assert (ScrollSync.tracked (Provider.scrollEnv env) mgr = None) as Htr.
    { unfold ScrollSync.tracked, Provider.scrollEnv. simpl. rewrite Hact, Hdoc.
      destruct (String.eqb_spec (Provider.uri document) (ScrollSync.doc mgr));
        [congruence | reflexivity]. }
    unfold showPreview. rewrite Hpanel.
    unfold Provider.updatePreview. simpl.
    split; [reflexivity |]. split; [exact Hmgr |]. split; [reflexivity |].
    split.
    { eexists. split; [reflexivity |]. apply in_or_app. right. now left. }
    split.
    + unfold Provider.handleWebviewMessage.
      assert (Messages.isWebviewToExtensionMessage
                (Messages.createScrollMessage percent line) = true) as ->
        by (destruct line; reflexivity).
      simpl. unfold Provider.dispatchScroll. simpl. rewrite Hmgr.
      unfold ScrollSync.handleWebviewScroll. rewrite Htr.
      eexists. split; [reflexivity |]. simpl.
      split; [apply app_nil_r | reflexivity].
    + unfold ScrollSync.onDidChangeTextEditorVisibleRanges. now rewrite Htr.
  - intros document now p Hpanel. unfold showPreview. rewrite Hpanel.
    unfold Provider.updatePreview. simpl. repeat split.
Qed.

Lemma showPreview_keeps_old_scroll_manager_witness :
  Provider.currentDocument (showPreview docB 10 showingA) = Some docB
  /\ Provider.scrollSyncManager (showPreview docB 10 showingA)
     = Some (ScrollSync.new "file:///a.md")
  /\ Provider.effects (showPreview docB 10 showingA)
     = Provider.effects showingA
  /\ (exists h,
         Provider.updateTimeout (showPreview docB 10 showingA) = Some h
         /\ In (Timers.mkTimer h (10 + 100) Provider.DoUpdatePreview)
              (Timers.pending
                 (Provider.timers (showPreview docB 10 showingA))))
  /\ (exists q,
         Provider.handleWebviewMessage demoKey demoRender demoEnv 20 0
           (Messages.createScrollMessage (1 # 2) None)
           (showPreview docB 10 showingA) = Some q
         /\ Provider.effects q = Provider.effects showingA
         /\ Provider.scrollSyncManager q
            = Some (ScrollSync.new "file:///a.md"))
  /\ ScrollSync.onDidChangeTextEditorVisibleRanges
       (Provider.scrollEnv demoEnv) 20 (ScrollSync.new "file:///a.md")
     = ScrollSync.new "file:///a.md".
Proof.
  apply (proj1 showPreview_keeps_old_scroll_manager demoKey demoRender
           demoEnv 10 20 0 docB showingA (ScrollSync.new "file:///a.md")
           (ScrollSync.mkEditor "file:///b.md" 1 [0]) (1 # 2) None).
  - reflexivity.
  - reflexivity.
  - discriminate.
  - reflexivity.
  - reflexivity.
Defined.

(** X30.  The extension debounces document changes with one timer for all
    documents.  A change to the previewed document alone reaches the
    provider 100 ms later, where [updatePreview] arms the provider's own
    timer.  When a change to another markdown document follows within
    those 100 ms, the pending call is cancelled and the one made instead is
    for the other document, which the provider ignores: the provider is
    left exactly as it was, and the change to the previewed document is
    not rendered. *)
Theorem other_document_cancels_update (p : Provider.t)
    (previewed other : Provider.TextDocument) (t0 t1 now : Z) :
  Provider.currentDocument p = Some previewed ->
  Provider.uri other <> Provider.uri previewed ->
  t0 <= t1 < t0 + 100 ->
  t1 + 100 <= now ->
  Extension.previewProvider
    (Extension.runTimers now
       (Extension.onDidChangeTextDocument "markdown" previewed t0
          (Extension.idle p)))
  = Provider.updatePreview (Some previewed) (t0 + 100) p
  /\ Extension.previewProvider
       (Extension.runTimers now
          (Extension.onDidChangeTextDocument "markdown" other t1
             (Extension.runTimers t1
                (Extension.onDidChangeTextDocument "markdown" previewed t0
                   (Extension.idle p)))))
     = p
  /\ Timers.pending
       (Extension.timers
          (Extension.runTimers now
             (Extension.onDidChangeTextDocument "markdown" other t1
                (Extension.runTimers t1
                   (Extension.onDidChangeTextDocument "markdown" previewed t0
                      (Extension.idle p))))))
     = [].
Proof.
  intros Hdoc Hne Ht Hnow.
  unfold Extension.onDidChangeTextDocument, Extension.idle. simpl.
  unfold Extension.runTimers. simpl.
  unfold Timers.nextDue. simpl.
  assert ((t0 + 100 <=? now) = true) as -> by (apply Z.leb_le; lia).
  assert ((t0 + 100 <=? t1) = false) as -> by (apply Z.leb_gt; lia).
  simpl. unfold Timers.nextDue. simpl.
  assert ((t1 + 100 <=? now) = true) as -> by (apply Z.leb_le; lia).
  simpl. split; [reflexivity |]. split; [| reflexivity].
  unfold Provider.updatePreview. rewrite Hdoc.
  destruct (String.eqb_spec (Provider.uri other) (Provider.uri previewed));
    [congruence | reflexivity].
Qed.

Lemma other_document_cancels_update_witness :
  Extension.previewProvider
    (Extension.runTimers 300
       (Extension.onDidChangeTextDocument "markdown" docA 0
          (Extension.idle showingA)))
  = Provider.updatePreview (Some docA) (0 + 100) showingA
  /\ Extension.previewProvider
       (Extension.runTimers 300
          (Extension.onDidChangeTextDocument "markdown" docB 40
             (Extension.runTimers 40
                (Extension.onDidChangeTextDocument "markdown" docA 0
                   (Extension.idle showingA)))))
     = showingA
  /\ Timers.pending
       (Extension.timers
          (Extension.runTimers 300
             (Extension.onDidChangeTextDocument "markdown" docB 40
                (Extension.runTimers 40
                   (Extension.onDidChangeTextDocument "markdown" docA 0
                      (Extension.idle showingA))))))
     = [].
Proof.
  apply (other_document_cancels_update showingA docA docB 0 40 300).
  - reflexivity.
  - discriminate.
  - lia.
  - lia.
Defined.

End ProviderCallers.

(** * From the surface to the host *)

Section SurfaceToHost.

Import ScrollSpec ScrollMore ProviderSpec.






(** X20.  A report of the surface needs no clamping.  For a fraction
    between 0 and 1, which is all the surface ever sends, and no line, the
    binary64 product of the fraction and [lineCount - 1] is finite, and a
    handled surface scroll reveals its floor, which is a line of the
    document: the first line for fraction 0, the last for fraction 1. *)
Theorem surface_report_reveals_floor_line (env : ScrollSync.Env) (now : Z)
    (percent : Q) (s : ScrollSync.t) (editor : ScrollSync.Editor) :
  ScrollSync.tracked env s = Some editor ->
  ScrollSync.enableScrollSync env = true ->
  ScrollSync.isScrollingFromEditor s = false ->
  1 <= ScrollSync.lineCount editor ->
  ScrollSync.lineCount editor - 1 < 2 ^ 53 ->
  (0 <= percent)%Q -> (percent <= 1)%Q ->
  exists product target,
    Float64.mul (Float64.Finite percent)
      (Float64.ofZ (ScrollSync.lineCount editor - 1))
    = Float64.Finite product
    /\ snd (ScrollSync.handleWebviewScroll env now (Float64.Finite percent)
              None s)
       = [ScrollSync.RevealRange (Float64.Finite target)]
    /\ (target == inject_Z (Qfloor product))%Q
    /\ 0 <= Qfloor product <= ScrollSync.lineCount editor - 1
    /\ ((percent == 0)%Q -> (target == 0)%Q)
    /\ ((percent == 1)%Q ->
        (target == inject_Z (ScrollSync.lineCount editor - 1))%Q).
Proof.
  intros Htr Hen Hfl Hn Hbig H0 H1.
  set (last := ScrollSync.lineCount editor - 1) in *.
  assert (0 <= inject_Z last)%Q as Hlast.
  { unfold Qle. simpl. unfold last. lia. }
  assert (0 <= percent * inject_Z last)%Q as Hlo.
  { apply Qmult_le_0_compat; assumption. }
  assert (percent * inject_Z last <= inject_Z last)%Q as Hhi.
  { rewrite <- (Qmult_1_l (inject_Z last)) at 2.
    apply Qmult_le_compat_r; assumption. }
  destruct (round_bounded _ _ Hlo Hhi Hbig) as (y & Hy & Hy0 & Hy1).
  assert (0 <= Qfloor y <= last) as Hfloor.
  { split.
    - change 0 with (Qfloor 0). apply Qfloor_resp_le. exact Hy0.
    - pose proof (Qfloor_resp_le _ _ Hy1) as Hle.
      rewrite Qfloor_Z in Hle. exact Hle. }
  pose proof (clamp_number (inject_Z last)
                (Float64.Finite (inject_Z (Qfloor y))) Hlast) as Hc.
  cbn [clampNumber] in Hc. apply sameNumber_finite in Hc as (t & Ht & Hc).
  assert (t == inject_Z (Qfloor y))%Q as Hval.
  { rewrite Hc. rewrite <- (max_min_clamp _ _ Hlast).
    rewrite (Q.min_l (inject_Z (Qfloor y)) (inject_Z last))
      by (rewrite <- Zle_Qle; apply Hfloor).
    apply Q.max_r. change 0%Q with (inject_Z 0).
    rewrite <- Zle_Qle. apply Hfloor. }
  exists y, t. split; [exact Hy |]. split.
  { unfold ScrollSync.handleWebviewScroll. rewrite Htr, Hen, Hfl.
    cbn [snd]. unfold ScrollSync.targetLine. fold last.
    change (Float64.mul (Float64.Finite percent) (Float64.ofZ last))
      with (Float64.round (percent * inject_Z last)).
    rewrite Hy. cbn [Float64.floor]. unfold Float64.ofZ.
    rewrite Ht. reflexivity. }
  split; [exact Hval |]. split; [exact Hfloor |]. split.
  - intros Hp.
    destruct (round_integer (percent * inject_Z last) 0) as (y' & Hy' & He).
    + rewrite Hp. apply Qmult_0_l.
    + lia.
    + unfold Float64.mul, Float64.ofZ in Hy. rewrite Hy in Hy'.
      injection Hy' as <-. rewrite Hval, He. reflexivity.
  - intros Hp.
    destruct (round_integer (percent * inject_Z last) last) as (y' & Hy' & He).
    + rewrite Hp. apply Qmult_1_l.
    + unfold last in *. lia.
    + unfold Float64.mul, Float64.ofZ in Hy. rewrite Hy in Hy'.
      injection Hy' as <-. rewrite Hval, He, Qfloor_Z. reflexivity.
Qed.

Lemma surface_report_reveals_floor_line_witness :
  exists product target,
    Float64.mul (Float64.Finite third)
      (Float64.ofZ (ScrollSync.lineCount editor4 - 1))
    = Float64.Finite product
    /\ snd (ScrollSync.handleWebviewScroll env4 0 (Float64.Finite third)
              None (ScrollSync.new "doc"))
       = [ScrollSync.RevealRange (Float64.Finite target)]
    /\ (target == inject_Z (Qfloor product))%Q
    /\ 0 <= Qfloor product <= ScrollSync.lineCount editor4 - 1
    /\ ((third == 0)%Q -> (target == 0)%Q)
    /\ ((third == 1)%Q ->
        (target == inject_Z (ScrollSync.lineCount editor4 - 1))%Q).
Proof.
  apply (surface_report_reveals_floor_line env4 0 third
           (ScrollSync.new "doc") editor4).
  - reflexivity.
  - reflexivity.
  - reflexivity.
  - simpl. lia.
  - simpl. lia.
  - discriminate.
  - discriminate.
Defined.

End SurfaceToHost.
